(** * pwneddb: prefix addresses, range parsing, gap finding and the
      download coordinator

    A shallow embedding of [pwneddb/api.py], [pwneddb/db.py],
    [pwneddb/updatinator.py], [pwneddb/utils.py] and
    [pwneddb/command_line.py], with the signal handlers of
    [pwneddb/__main__.py].

    Conventions of the embedding.
    - A Python [str] is a Rocq [string] read as ASCII text: every character
      is a code point below 128.  Text outside ASCII (where [str.casefold]
      and [int] follow the Unicode tables) is outside the model.
    - A Python [int] is a [Z].
    - A raised exception is the [Raise] branch of [result]; the payload says
      which exception and which message.
    - Objects with mutable fields (the API client, the database, the
      command line) are records threaded through the calls that change them.
    - Calls to [logging] only write to the log file and are left out;
      [print] is kept as the list of lines written.
    - The store is the two tables of SQLite with their constraints: the
      primary keys, [UNIQUE (prefix)], and [INTEGER] columns of 64 bits.  A
      commit writes all its rows or, when it raises, none.
    - A signal is an event of the outside world: [run] is given, turn by
      turn of its loop, the points at which one arrives.
    - [(rows / TOTAL_ROWS) * 100.0] is computed in [Q].  For
      [0 <= rows <= 2^20] the two floating point operations are exact (a
      division by a power of two, then a product below [2^27] scaled by
      [2^-20]), so the rational is the value of the float. *)

From Stdlib Require Import ZArith NArith List String Ascii Bool Lia QArith.
Import ListNotations.
Local Open Scope string_scope.
Local Open Scope Z_scope.

(** ** Exceptions *)

(** The [ValueError]s that reach the code, by what their message says. *)
Inductive value_error : Type :=
| not_enough_values (expected got : nat)
    (* not enough values to unpack (expected 2, got 1) *)
| too_many_values (expected : nat)
    (* too many values to unpack (expected 2) *)
| invalid_literal (base : Z) (text : string)
    (* invalid literal for int() with base 10: 'null' *)
| exceeds_digit_limit (digits : N)
    (* Exceeds the limit (4300 digits) for integer string conversion *)
| not_5_characters (prefix : string)
    (* Given prefix not 5-characters long: 'abcdef' *)
| message (text : string).
    (* raise ValueError('...') with a fixed text *)

Inductive exn : Type :=
| ValueError (e : value_error)
| RuntimeError (text : string)
| RuntimeError_line (number : nat) (e : value_error)
    (* RuntimeError(f"line {number}: {e}") *)
| HTTPError (status_code : Z)
    (* requests.HTTPError, from response.raise_for_status() *)
| RequestException (text : string)
    (* requests' transport errors: DNS, connection reset, ... *)
| IntegrityError (text : string)
    (* sqlalchemy.exc.IntegrityError *)
| OverflowError (text : string)
    (* from sqlite3, for an integer that does not fit a column *)
| SystemExit (text : string).

Inductive result (A : Type) : Type :=
| Return (a : A)
| Raise (e : exn).
Arguments Return {A} a.
Arguments Raise {A} e.

Definition is_return {A} (r : result A) : bool :=
  match r with Return _ => true | Raise _ => false end.

(** ** The Python built-ins the code calls *)

Module Py.

(** [str.isspace] on ASCII: TAB LF VT FF CR, FS GS RS US, and the space. *)
Definition isspace (c : ascii) : bool :=
  let n := N_of_ascii c in
  ((9 <=? n) && (n <=? 13) || (28 <=? n) && (n <=? 32))%N.

(** C's [isspace], which [int] uses on an ASCII string: TAB LF VT FF CR and
    the space. *)
Definition ISSPACE (c : ascii) : bool :=
  let n := N_of_ascii c in
  ((9 <=? n) && (n <=? 13) || (n =? 32))%N.

Definition lower_char (c : ascii) : ascii :=
  let n := N_of_ascii c in
  if ((65 <=? n) && (n <=? 90))%N then ascii_of_N (n + 32) else c.

(** [s.casefold()]; on ASCII it is [s.lower()]. *)
Fixpoint casefold (s : string) : string :=
  match s with
  | EmptyString => EmptyString
  | String c r => String (lower_char c) (casefold r)
  end.

(** [s.startswith(p)] *)
Fixpoint startswith (s p : string) {struct p} : bool :=
  match p, s with
  | EmptyString, _ => true
  | String _ _, EmptyString => false
  | String b p', String a s' => Ascii.eqb a b && startswith s' p'
  end.

(** [s[n:]] *)
Fixpoint slice_from (n : nat) (s : string) : string :=
  match n, s with
  | O, _ => s
  | S _, EmptyString => EmptyString
  | S m, String _ r => slice_from m r
  end.

(** [len(s)] *)
Definition len (s : string) : Z := Z.of_nat (String.length s).

(** [s.split()]: the maximal runs of characters that are not white space. *)
Fixpoint split (s : string) : list string :=
  match s with
  | EmptyString => []
  | String c r =>
      if isspace c then split r
      else match r with
           | EmptyString => [String c EmptyString]
           | String c' _ =>
               if isspace c' then String c EmptyString :: split r
               else match split r with
                    | t :: ts => String c t :: ts
                    | [] => [String c EmptyString]
                    end
           end
  end.

(** [s.split(sep)] for a one-character separator: one more part than there
    are separators. *)
Fixpoint split_sep (sep : ascii) (s : string) : list string :=
  match s with
  | EmptyString => [EmptyString]
  | String c r =>
      if Ascii.eqb c sep then EmptyString :: split_sep sep r
      else match split_sep sep r with
           | t :: ts => String c t :: ts
           | [] => [String c EmptyString]
           end
  end.

(** [a, b = parts] *)
Definition unpack2 (parts : list string) : result (string * string) :=
  match parts with
  | [a; b] => Return (a, b)
  | [] | [_] => Raise (ValueError (not_enough_values 2 (List.length parts)))
  | _ => Raise (ValueError (too_many_values 2))
  end.

(** The value of a character as a digit: [0-9] then [a-z] or [A-Z] as
    10..35 ([_PyLong_DigitValue]). *)
Definition digit_value (c : ascii) : option Z :=
  let n := N_of_ascii c in
  if ((48 <=? n) && (n <=? 57))%N then Some (Z.of_N n - 48)
  else if ((97 <=? n) && (n <=? 122))%N then Some (Z.of_N n - 87)
  else if ((65 <=? n) && (n <=? 90))%N then Some (Z.of_N n - 55)
  else None.

Definition is_digit (base : Z) (c : ascii) : bool :=
  match digit_value c with
  | Some d => d <? base
  | None => false
  end.

Fixpoint skip_space (s : string) : string :=
  match s with
  | String c r => if ISSPACE c then skip_space r else s
  | EmptyString => EmptyString
  end.

(** The digit scan of [PyLong_FromString]: digits of the base with single
    underscores between them.  [prev] says that the character before was an
    underscore.  The result is the value, the number of digits and the text
    left; [None] is a misplaced underscore. *)
Fixpoint scan (base : Z) (prev : bool) (s : string) (acc : Z) (digits : N)
  : option (Z * N * string) :=
  match s with
  | EmptyString => if prev then None else Some (acc, digits, s)
  | String c r =>
      if Ascii.eqb c "_" then
        if prev then None else scan base true r acc digits
      else if is_digit base c then
        match digit_value c with
        | Some d => scan base false r (acc * base + d) (digits + 1)
        | None => None
        end
      else if prev then None else Some (acc, digits, s)
  end.

(** [sys.get_int_max_str_digits()], CPython's default.  The limit is looked
    at only above 640 digits and only for a base that is not a power of
    two. *)
Definition int_max_str_digits : N := 4300.
Definition max_str_digits_threshold : N := 640.

Definition is_binary_base (base : Z) : bool :=
  (base =? 2) || (base =? 4) || (base =? 8) || (base =? 16) || (base =? 32).

(** The steps of [PyLong_FromString], in its order. *)
Definition take_sign (s : string) : Z * string :=
  match s with
  | String c r =>
      if Ascii.eqb c "+" then (1, r)
      else if Ascii.eqb c "-" then (-1, r)
      else (1, s)
  | EmptyString => (1, s)
  end.

(** For base 16 a [0x] or [0X] may come first, and one underscore after
    it. *)
Definition skip_base_prefix (base : Z) (s : string) : string :=
  match s with
  | String z (String x r) =>
      if Ascii.eqb z "0" && (base =? 16)
         && (Ascii.eqb x "x" || Ascii.eqb x "X")
      then
        match r with
        | String u r' => if Ascii.eqb u "_" then r' else r
        | EmptyString => r
        end
      else s
  | _ => s
  end.

Definition starts_with_underscore (s : string) : bool :=
  match s with
  | String c _ => Ascii.eqb c "_"
  | EmptyString => false
  end.

(** [int(s, base)] for [2 <= base <= 36]: white space around, a sign, the
    prefix of the base, then the digits. *)
Definition int (s : string) (base : Z) : result Z :=
  let bad := Raise (ValueError (invalid_literal base s)) in
  let '(sign, s2) := take_sign (skip_space s) in
  let s3 := skip_base_prefix base s2 in
  if starts_with_underscore s3 then bad
  else
    match scan base false s3 0 0 with
    | None => bad
    | Some (v, digits, rest) =>
        if negb (is_binary_base base)
           && (max_str_digits_threshold <? digits)%N
           && (0 <? int_max_str_digits)%N
           && (int_max_str_digits <? digits)%N
        then Raise (ValueError (exceeds_digit_limit digits))
        else if (digits =? 0)%N then bad
        else match skip_space rest with
             | EmptyString => Return (sign * v)
             | String _ _ => bad
             end
    end.

Definition hex_digit (d : Z) : ascii :=
  if d <? 10 then ascii_of_N (Z.to_N d + 48) else ascii_of_N (Z.to_N d + 87).

(** The digits of [n >= 0] in base 16, most significant first, put in front
    of [acc]. *)
Fixpoint hex_digits (fuel : nat) (n : Z) (acc : string) : string :=
  match fuel with
  | O => acc
  | S f =>
      let acc' := String (hex_digit (n mod 16)) acc in
      if n <? 16 then acc' else hex_digits f (n / 16) acc'
  end.

(** [format(value, 'x')]: lower-case hexadecimal, a minus sign in front of
    a negative value. *)
Definition format_x (value : Z) : string :=
  let a := Z.abs value in
  let ds := hex_digits (S (Z.to_nat (Z.log2 a))) a EmptyString in
  if value <? 0 then String "-" ds else ds.

Fixpoint repeat_char (c : ascii) (n : nat) : string :=
  match n with
  | O => EmptyString
  | S m => String c (repeat_char c m)
  end.

(** The format specification [fill>width]: right-aligned in [width]
    characters, padded on the left with [fill]. *)
Definition rjust (s : string) (width : nat) (fill : ascii) : string :=
  repeat_char fill (width - String.length s) ++ s.

End Py.

(** ** State and exceptions

    A method that changes its object is a function from the object to an
    outcome and the object afterwards; what was changed before an exception
    was raised stays changed. *)

Definition M (S A : Type) : Type := S -> result A * S.

Definition ret {S A} (a : A) : M S A := fun s => (Return a, s).
Definition raise {S A} (e : exn) : M S A := fun s => (Raise e, s).
Definition bind {S A B} (m : M S A) (k : A -> M S B) : M S B :=
  fun s => match m s with
           | (Return a, s') => k a s'
           | (Raise e, s') => (Raise e, s')
           end.
Definition get {S} : M S S := fun s => (Return s, s).
Definition modify {S} (f : S -> S) : M S unit := fun s => (Return tt, f s).
Definition lift {S A} (r : result A) : M S A := fun s => (r, s).

Declare Scope monad_scope.
Delimit Scope monad_scope with monad.
Notation "x <- m ;; k" := (bind m (fun x => k))
  (at level 61, m at next level, right associativity) : monad_scope.
Notation "m ;;; k" := (bind m (fun _ => k))
  (at level 61, right associativity) : monad_scope.

(** ** pwneddb/api.py *)

Module Api.

Definition HashCounts : Type := list (string * Z).

Module Prefix.

Record t : Type := { _prefix : string }.

Definition MAX_VALUE : Z := 16 ^ 5 - 1.

Definition __init__ (prefix : string) : result t :=
  (* Clean *)
  let prefix := Py.casefold prefix in
  let prefix :=
    if Py.startswith prefix "0x" then Py.slice_from 2 prefix else prefix in
  (* Length? *)
  if negb (Py.len prefix =? 5) then
    Raise (ValueError (message "prefix must be exactly 5-characters long"))
  else
    (* Hexadecimal? *)
    match Py.int prefix 16 with
    | Raise (ValueError _) =>
        Raise (ValueError (message "prefix must be hexadecimal string"))
    | Raise e => Raise e
    | Return _ => Return {| _prefix := prefix |}
    end.

Definition __eq__ (self other : t) : bool :=
  String.eqb (_prefix self) (_prefix other).

Definition __int__ (self : t) : result Z := Py.int (_prefix self) 16.

Definition __len__ (self : t) : Z := Py.len (_prefix self).

Definition __str__ (self : t) : string := _prefix self.

Definition from_integer (value : Z) : result t :=
  if value <? 0 then
    Raise (ValueError (message "value must be a positive integer"))
  else if MAX_VALUE <? value then
    Raise (ValueError (message "value cannot be greater than MAX_VALUE"))
  else __init__ (Py.rjust (Py.format_x value) 5 "0").

End Prefix.

(** What the code uses of [requests]. *)
Module Requests.

(** [session.get(url, timeout=...)]; [timeout] is [None] when the caller
    passes none, and [requests] then waits without a bound. *)
Record Request : Type := { url : string; timeout : option Q }.

Record Response : Type :=
  { status_code : Z; content : string; text : string }.

(** The transport: what comes back for a request, given how many requests
    the session has sent before.  [sent] records the requests made. *)
Record Session : Type :=
  { transport : nat -> Request -> result Response; sent : list Request }.

Definition get (url : string) (timeout : option Q)
  : M Session Response :=
  fun s =>
    let request := {| url := url; timeout := timeout |} in
    (transport s (List.length (sent s)) request,
     {| transport := transport s; sent := (sent s ++ [request])%list |}).

Definition raise_for_status (response : Response) : result unit :=
  if (400 <=? status_code response) && (status_code response <? 600)
  then Raise (HTTPError (status_code response))
  else Return tt.

End Requests.

Module PwnedPasswordsAPIv3.

Record t : Type :=
  { session : Requests.Session;
    timeout : Q;
    bytes_received : Z;
    num_requests : Z;
    num_request_errors : Z }.

Definition URL_RANGE : string := "https://api.pwnedpasswords.com/range".

(** [timeout: float = 5.0] *)
Definition default_timeout : Q := 5 # 1.

(** [requests.session()] makes the session; here it is handed in. *)
Definition __init__ (session : Requests.Session) (timeout : Q) : t :=
  {| session := session;
     timeout := timeout;
     bytes_received := 0;
     num_requests := 0;
     num_request_errors := 0 |}.

(** The body of the [try] in [_extract], for one line. *)
Definition _extract_line (prefix : Prefix.t) (line : string)
  : result (string * Z) :=
  match Py.unpack2 (Py.split_sep ":" line) with
  | Raise e => Raise e
  | Return (suffix, count) =>
      let sha1sum := Py.casefold (Prefix.__str__ prefix ++ suffix) in
      match Py.int count 10 with
      | Raise e => Raise e
      | Return n => Return (sha1sum, n)
      end
  end.

(** The loop of [_extract] over [enumerate(lines, number)]. *)
Fixpoint _extract_loop (prefix : Prefix.t) (number : nat)
  (lines : list string) (data : HashCounts) : result HashCounts :=
  match lines with
  | [] => Return data
  | line :: rest =>
      match _extract_line prefix line with
      | Return datum => _extract_loop prefix (S number) rest (data ++ [datum])%list
      | Raise (ValueError e) => Raise (RuntimeError_line number e)
      | Raise e => Raise e
      end
  end.

Definition _extract (prefix : Prefix.t) (string : string)
  : result HashCounts :=
  _extract_loop prefix 1 (Py.split string) [].

Local Open Scope monad_scope.

Definition with_session (m : M Requests.Session Requests.Response)
  : M t Requests.Response :=
  fun self =>
    let '(r, s) := m (session self) in
    (r, {| session := s;
           timeout := timeout self;
           bytes_received := bytes_received self;
           num_requests := num_requests self;
           num_request_errors := num_request_errors self |}).

Definition _get (url : string) : M t string :=
  (* Request *)
  modify (fun self =>
    {| session := session self;
       timeout := timeout self;
       bytes_received := bytes_received self;
       num_requests := num_requests self + 1;
       num_request_errors := num_request_errors self |}) ;;;
  response <- with_session (Requests.get url None) ;;
  lift (Requests.raise_for_status response) ;;;
  (* Log result *)
  modify (fun self =>
    {| session := session self;
       timeout := timeout self;
       bytes_received :=
         bytes_received self + Py.len (Requests.content response);
       num_requests := num_requests self;
       num_request_errors := num_request_errors self |}) ;;;
  ret (Requests.text response).

Definition fetch_range (prefix : Prefix.t + string) : M t HashCounts :=
  prefix <- lift (match prefix with
                  | inl p => Return p
                  | inr s => Prefix.__init__ s
                  end) ;;
  let url := (URL_RANGE ++ "/" ++ Prefix.__str__ prefix)%string in
  string <- _get url ;;
  data <- lift (_extract prefix string) ;;
  ret data.

End PwnedPasswordsAPIv3.

End Api.

(** ** pwneddb/db.py *)

Module Db.

(** The two tables of the schema. *)
Module prefixes.
Record row : Type := { id : Z; prefix : string; updated : Q }.
End prefixes.

Module passwords.
Record row : Type :=
  { id : Z; sha1 : string; password : option string; count : Z;
    prefix_id : Z }.
End passwords.

(** The session, as the committed content of the database it is bound to.
    Every write of the code is an [add] followed at once by [commit], so
    there is no pending state to keep between calls. *)
Record Session : Type :=
  { prefixes_table : list prefixes.row;
    passwords_table : list passwords.row }.

Definition empty : Session :=
  {| prefixes_table := []; passwords_table := [] |}.

Module Password.

Record t : Type :=
  { sha1 : string; password : option string; count : Z }.

(** [Password(sha1=sha1, count=count)] *)
Definition __init__ (sha1 : string) (count : Z) : t :=
  {| sha1 := sha1; password := None; count := count |}.

End Password.

Module Prefix.

Record t : Type :=
  { prefix : string; updated : option Q; passwords : list Password.t }.

Definition validate_prefix (prefix : string) : result string :=
  if negb (Py.len prefix =? 5) then
    Raise (ValueError (not_5_characters prefix))
  else
    let prefix := Py.casefold prefix in
    Return prefix.

(** [Prefix(prefix=prefix, passwords=passwords)]; assigning [prefix] runs
    the validator. *)
Definition __init__ (prefix : string) (passwords : list Password.t)
  : result t :=
  match validate_prefix prefix with
  | Raise e => Raise e
  | Return prefix =>
      Return {| prefix := prefix; updated := None; passwords := passwords |}
  end.

End Prefix.

(** An [INTEGER PRIMARY KEY] left out of an [INSERT]: one more than the
    largest in the table. *)
Definition next_id (ids : list Z) : Z := 1 + fold_right Z.max 0 ids.

Definition insert_password (prefix_id : Z) (table : list passwords.row)
  (p : Password.t) : list passwords.row :=
  (table ++
   [ {| passwords.id := next_id (map passwords.id table);
        passwords.sha1 := Password.sha1 p;
        passwords.password := Password.password p;
        passwords.count := Password.count p;
        passwords.prefix_id := prefix_id |} ])%list.

(** An [INTEGER] column of SQLite holds a signed 64-bit number; [sqlite3]
    raises [OverflowError] for a Python [int] outside that range. *)
Definition fits_integer (n : Z) : bool := (- 2 ^ 63 <=? n) && (n <? 2 ^ 63).

Definition counts_fit (instance : Prefix.t) : bool :=
  forallb (fun p => fits_integer (Password.count p)) (Prefix.passwords instance).

Definition new_row (now : Q) (id : Z) (instance : Prefix.t) : prefixes.row :=
  {| prefixes.id := id;
     prefixes.prefix := Prefix.prefix instance;
     prefixes.updated :=
       match Prefix.updated instance with
       | Some u => u
       | None => now
       end |}.

(** The [INSERT]s of one [Prefix] instance and, by the cascade of the
    relationship, of its passwords: first the row of [prefixes], where
    [UNIQUE (prefix)] compares the text exactly, then the rows of
    [passwords], where every count must fit its column.  [now] is
    [time.time()], the default of [updated]. *)
Definition insert (now : Q) (instance : Prefix.t) (s : Session)
  : result Session :=
  if existsb (String.eqb (Prefix.prefix instance))
       (map prefixes.prefix (prefixes_table s))
  then Raise (IntegrityError "UNIQUE constraint failed: prefixes.prefix")
  else if negb (counts_fit instance)
  then Raise (OverflowError "Python int too large to convert to SQLite INTEGER")
  else
    let id := next_id (map prefixes.id (prefixes_table s)) in
    Return
      {| prefixes_table :=
           (prefixes_table s ++ [new_row now id instance])%list;
         passwords_table :=
           fold_left (insert_password id) (Prefix.passwords instance)
             (passwords_table s) |}.

(** A flush of several instances writes all the rows of [prefixes] first,
    instance after instance, and gives each its key. *)
Fixpoint insert_prefixes (now : Q) (instances : list Prefix.t)
  (table : list prefixes.row) : result (list prefixes.row * list Z) :=
  match instances with
  | [] => Return (table, [])
  | i :: rest =>
      if existsb (String.eqb (Prefix.prefix i)) (map prefixes.prefix table)
      then Raise (IntegrityError "UNIQUE constraint failed: prefixes.prefix")
      else
        let id := next_id (map prefixes.id table) in
        match insert_prefixes now rest (table ++ [new_row now id i])%list with
        | Return (table', ids) => Return (table', id :: ids)
        | Raise e => Raise e
        end
  end.

(** Then it writes the rows of [passwords], each with the key of its
    instance. *)
Fixpoint insert_passwords (keyed : list (Z * Prefix.t))
  (table : list passwords.row) : list passwords.row :=
  match keyed with
  | [] => table
  | (id, i) :: rest =>
      insert_passwords rest
        (fold_left (insert_password id) (Prefix.passwords i) table)
  end.

Definition insert_all (now : Q) (instances : list Prefix.t) (s : Session)
  : result Session :=
  match insert_prefixes now instances (prefixes_table s) with
  | Raise e => Raise e
  | Return (table, ids) =>
      if negb (forallb counts_fit instances)
      then
        Raise (OverflowError "Python int too large to convert to SQLite INTEGER")
      else
        Return
          {| prefixes_table := table;
             passwords_table :=
               insert_passwords (combine ids instances) (passwords_table s) |}
  end.

Module Manager.

(** [session.add(instance); session.commit()]: the transaction commits
    whole, or is rolled back and raises. *)
Definition add (now : Q) (instance : Prefix.t) : M Session unit :=
  fun s =>
    match insert now instance s with
    | Return s' => (Return tt, s')
    | Raise e => (Raise e, s)
    end.

Definition add_all (now : Q) (instances : list Prefix.t) : M Session unit :=
  fun s =>
    match insert_all now instances s with
    | Return s' => (Return tt, s')
    | Raise e => (Raise e, s)
    end.

End Manager.

Module PasswordManager.
Definition count_rows (s : Session) : Z :=
  Z.of_nat (List.length (passwords_table s)).
End PasswordManager.

Module PrefixManager.

Definition TOTAL_ROWS : Z := 16 ^ 5.

Definition count_rows (s : Session) : Z :=
  Z.of_nat (List.length (prefixes_table s)).

(** [ORDER BY prefix DESC]: SQLite compares the text character by
    character. *)
Fixpoint insert_desc (x : string) (l : list string) : list string :=
  match l with
  | [] => [x]
  | y :: r => if String.leb y x then x :: l else y :: insert_desc x r
  end.

Definition order_by_desc (l : list string) : list string :=
  fold_right insert_desc [] l.

(** [select(prefix).order_by(prefix.desc())] and [.first()] *)
Definition largest_prefix (s : Session) : option string :=
  hd_error (order_by_desc (map prefixes.prefix (prefixes_table s))).

Definition find_missing (s : Session) : result (option string) :=
  let largest := largest_prefix s in
  match largest with
  | None =>
      (* Empty table? *)
      Return (Some "00000")
  | Some largest =>
      match Py.int largest 16 with
      | Raise e => Raise e
      | Return n =>
          let value := n + 1 in
          (* Full table? *)
          if value =? TOTAL_ROWS then Return None
          else
            let prefix := Py.rjust (Py.format_x value) 5 "0" in
            Return (Some prefix)
      end
  end.

Definition percentage_complete (s : Session) : result Q :=
  let largest := largest_prefix s in
  match
    match largest with
    | None => Return 0
    | Some largest =>
        match Py.int largest 16 with
        | Raise e => Raise e
        | Return n => Return (n + 1)
        end
    end
  with
  | Raise e => Raise e
  | Return rows =>
      let percentage :=
        ((inject_Z rows / inject_Z TOTAL_ROWS) * (100 # 1))%Q in
      Return percentage
  end.

End PrefixManager.

End Db.

(** ** pwneddb/updatinator.py *)

Module Updatinator.

Local Open Scope monad_scope.

(** [prefixes] is the [PrefixManager], that is the session it holds. *)
Record t : Type :=
  { prefixes : Db.Session; api : Api.PwnedPasswordsAPIv3.t }.

Definition __init__ (database_session : Db.Session)
  (http : Api.Requests.Session) : t :=
  {| prefixes := database_session;
     api := Api.PwnedPasswordsAPIv3.__init__ http
              Api.PwnedPasswordsAPIv3.default_timeout |}.

Definition with_api {A} (m : M Api.PwnedPasswordsAPIv3.t A) : M t A :=
  fun self =>
    let '(r, a) := m (api self) in
    (r, {| prefixes := prefixes self; api := a |}).

Definition with_prefixes {A} (m : M Db.Session A) : M t A :=
  fun self =>
    let '(r, s) := m (prefixes self) in
    (r, {| prefixes := s; api := api self |}).

(** [now] is the clock read when the new row is written. *)
Definition create_new (now : Q) : M t (string * Z) :=
  self <- get ;;
  missing <- lift (Db.PrefixManager.find_missing (prefixes self)) ;;
  match missing with
  | None => raise (RuntimeError "No missing prefixes found")
  | Some missing =>
      hashes <- with_api (Api.PwnedPasswordsAPIv3.fetch_range (inr missing)) ;;
      let passwords :=
        map (fun '(sha1, count) => Db.Password.__init__ sha1 count) hashes in
      instance <- lift (Db.Prefix.__init__ missing passwords) ;;
      with_prefixes (Db.Manager.add now instance) ;;;
      ret (missing, Z.of_nat (List.length passwords))
  end.

End Updatinator.

(** ** pwneddb/utils.py *)

Module Utils.

(** [int(seconds)] for an [int] or a finite [float], read as the rational
    it is: the fraction is dropped, towards zero. *)
Definition int_of (seconds : Q) : Z :=
  Z.quot (Qnum seconds) (Z.pos (Qden seconds)).

Definition decimal_digit (d : Z) : ascii := ascii_of_N (Z.to_N d + 48).

(** The digits of [n >= 0] in base 10, most significant first, put in
    front of [acc]. *)
Fixpoint decimal_digits (fuel : nat) (n : Z) (acc : list ascii)
  : list ascii :=
  match fuel with
  | O => acc
  | S f =>
      let acc' := decimal_digit (n mod 10) :: acc in
      if n <? 10 then acc' else decimal_digits f (n / 10) acc'
  end.

Definition digits_of (n : Z) : list ascii :=
  decimal_digits (S (Z.to_nat (Z.log2 n))) n [].

(** [repr(n)] of an [int] *)
Definition repr (n : Z) : string :=
  let ds := string_of_list_ascii (digits_of (Z.abs n)) in
  if n <? 0 then String "-" ds else ds.

(** A comma after every third digit, counted from the least significant
    one; the digits come least significant first. *)
Fixpoint group (digits : list ascii) : list ascii :=
  match digits with
  | a :: b :: c :: (_ :: _) as rest => a :: b :: c :: ","%char :: group rest
  | _ => digits
  end.

(** [format(n, ',')] *)
Definition format_comma (n : Z) : string :=
  let ds :=
    string_of_list_ascii (rev (group (rev (digits_of (Z.abs n))))) in
  if n <? 0 then String "-" ds else ds.

(** Mean Gregorian year: [int(60 * 60 * 24 * 365.2425)]; the product is
    the float 31556952.0. *)
Definition YEAR : Z := 31556952.

Definition DURATIONS : list (string * Z) :=
  [ ("year", YEAR);
    ("month", YEAR / 12);
    ("week", 60 * 60 * 24 * 7);
    ("day", 60 * 60 * 24);
    ("hour", 60 * 60);
    ("minute", 60);
    ("second", 1) ].

(** The loop over [DURATIONS]: the first unit of which there are two or
    more. *)
Fixpoint first_unit (seconds : Z) (units : list (string * Z))
  : option string :=
  match units with
  | [] => None
  | (key, length) :: rest =>
      let count := seconds / length in
      if 1 <? count then Some (format_comma count ++ " " ++ key ++ "s")
      else first_unit seconds rest
  end.

Definition duration (seconds : Q) : result string :=
  (* Validate input *)
  let seconds := int_of seconds in
  if seconds <? 0 then
    Raise (ValueError
             (message ("Positive number expected, given: " ++ repr seconds)))
  else
    (* Use two or more units of whatever time unit we have *)
    let duration := format_comma seconds ++ " seconds" in
    match first_unit seconds DURATIONS with
    | Some text => Return text
    | None =>
        (* Special case *)
        if seconds =? 1 then Return "1 second" else Return duration
    end.

End Utils.

(** ** pwneddb/command_line.py *)

Module CommandLine.

Local Open Scope monad_scope.

(** What [print] writes to the standard output. *)
Inductive line : Type :=
| starting (next_prefix : option string)
    (* Downloading new password hashes, starting with {next_prefix} *)
| progress (completed : Q) (prefix : string)
    (* {completed:.2f}% completed. Downloaded prefix {prefix}. *)
| blank
| summary (total_prefixes total_passwords : Z) (duration : string).
    (* Finished. Created {total_prefixes:,} prefix and
       {total_passwords:,} password records in {duration}. *)

Record t : Type :=
  { updater : Updatinator.t;
    total_prefixes : Z;
    total_passwords : Z;
    session_closed : bool;
    stdout : list line;
    stderr : list string }.

Definition __init__ (updater : Updatinator.t) : t :=
  {| updater := updater;
     total_prefixes := 0;
     total_passwords := 0;
     session_closed := false;
     stdout := [];
     stderr := [] |}.

Definition with_updater {A} (m : M Updatinator.t A) : M t A :=
  fun self =>
    let '(r, u) := m (updater self) in
    (r, {| updater := u;
           total_prefixes := total_prefixes self;
           total_passwords := total_passwords self;
           session_closed := session_closed self;
           stdout := stdout self;
           stderr := stderr self |}).

Definition print (l : line) : M t unit :=
  modify (fun self =>
    {| updater := updater self;
       total_prefixes := total_prefixes self;
       total_passwords := total_passwords self;
       session_closed := session_closed self;
       stdout := (stdout self ++ [l])%list;
       stderr := stderr self |}).

Definition print_stderr (e : string) : M t unit :=
  modify (fun self =>
    {| updater := updater self;
       total_prefixes := total_prefixes self;
       total_passwords := total_passwords self;
       session_closed := session_closed self;
       stdout := stdout self;
       stderr := (stderr self ++ [e])%list |}).

Definition session_close : M t unit :=
  modify (fun self =>
    {| updater := updater self;
       total_prefixes := total_prefixes self;
       total_passwords := total_passwords self;
       session_closed := true;
       stdout := stdout self;
       stderr := stderr self |}).

(** [self.total_prefixes += 1] *)
Definition add_total_prefixes : M t unit :=
  modify (fun self =>
    {| updater := updater self;
       total_prefixes := total_prefixes self + 1;
       total_passwords := total_passwords self;
       session_closed := session_closed self;
       stdout := stdout self;
       stderr := stderr self |}).

(** [self.total_passwords += num_passwords] *)
Definition add_total_passwords (num_passwords : Z) : M t unit :=
  modify (fun self =>
    {| updater := updater self;
       total_prefixes := total_prefixes self;
       total_passwords := total_passwords self + num_passwords;
       session_closed := session_closed self;
       stdout := stdout self;
       stderr := stderr self |}).

Definition print_progress (prefix : string) : M t unit :=
  self <- get ;;
  completed <- lift (Db.PrefixManager.percentage_complete
                       (Updatinator.prefixes (updater self))) ;;
  print (progress completed prefix).

Definition create_new (now : Q) : M t unit :=
  created <- with_updater (Updatinator.create_new now) ;;
  let '(prefix, num_passwords) := created in
  add_total_prefixes ;;;
  add_total_passwords num_passwords ;;;
  print_progress prefix.

(** ** Signals

    The handlers of [__main__] turn SIGINT and SIGTERM into [SystemExit],
    raised in the main thread wherever the interpreter is.  A [point] is a
    place in [run] and in the calls it makes where that can happen: before
    each statement that writes to the objects, to the store, to the
    transport or to the terminal, or that can raise.  A signal taken
    inside a call of a library is taken before or after what the call
    writes. *)
Inductive point : Type :=
(* run, before the loop *)
| before_next_prefix
| before_opening
(* the loop, outside the try block *)
| before_try
(* Updatinator.create_new *)
| before_find_missing
(* PwnedPasswordsAPIv3.fetch_range *)
| before_prefix
(* PwnedPasswordsAPIv3._get *)
| before_count
| before_request
| before_status
| before_bytes
(* PwnedPasswordsAPIv3.fetch_range *)
| before_extract
(* Updatinator.create_new *)
| before_instance
| before_add
(* CommandLine.create_new *)
| before_total_prefixes
| before_total_passwords
(* CommandLine.print_progress *)
| before_percentage
| before_progress
| after_progress
(* run, the handler of SystemExit *)
| before_close
| before_blank
| before_stderr
| before_break
(* run, after the loop *)
| before_duration
| before_summary
| before_return.

(** The points inside the [try] block of [run]. *)
Definition in_try (p : point) : bool :=
  match p with
  | before_find_missing | before_prefix | before_count | before_request
  | before_status | before_bytes | before_extract | before_instance
  | before_add | before_total_prefixes | before_total_passwords
  | before_percentage | before_progress | after_progress => true
  | _ => false
  end.

(** One turn of the loop as the outside world makes it: [time.time()] when
    the row is written, the message of the signal that arrives at a point,
    if one does, and [time.perf_counter() - started] after the loop, if it
    ends in this turn.  The signals before the loop are given with the
    first turn. *)
Record cycle : Type :=
  { now : Q; signal : point -> option string; elapsed : Q }.

Definition checkpoint (c : cycle) (p : point) : M t unit :=
  match signal c p with
  | Some text => raise (SystemExit text)
  | None => ret tt
  end.

Definition on_api {A} (m : M Api.PwnedPasswordsAPIv3.t A) : M t A :=
  with_updater (Updatinator.with_api m).

Definition on_prefixes {A} (m : M Db.Session A) : M t A :=
  with_updater (Updatinator.with_prefixes m).

(** [self.num_requests += 1] *)
Definition count_request : M Api.PwnedPasswordsAPIv3.t unit :=
  modify (fun self =>
    {| Api.PwnedPasswordsAPIv3.session := Api.PwnedPasswordsAPIv3.session self;
       Api.PwnedPasswordsAPIv3.timeout := Api.PwnedPasswordsAPIv3.timeout self;
       Api.PwnedPasswordsAPIv3.bytes_received :=
         Api.PwnedPasswordsAPIv3.bytes_received self;
       Api.PwnedPasswordsAPIv3.num_requests :=
         Api.PwnedPasswordsAPIv3.num_requests self + 1;
       Api.PwnedPasswordsAPIv3.num_request_errors :=
         Api.PwnedPasswordsAPIv3.num_request_errors self |}).

(** [self.bytes_received += len(response.content)] *)
Definition count_bytes (response : Api.Requests.Response)
  : M Api.PwnedPasswordsAPIv3.t unit :=
  modify (fun self =>
    {| Api.PwnedPasswordsAPIv3.session := Api.PwnedPasswordsAPIv3.session self;
       Api.PwnedPasswordsAPIv3.timeout := Api.PwnedPasswordsAPIv3.timeout self;
       Api.PwnedPasswordsAPIv3.bytes_received :=
         Api.PwnedPasswordsAPIv3.bytes_received self
         + Py.len (Api.Requests.content response);
       Api.PwnedPasswordsAPIv3.num_requests :=
         Api.PwnedPasswordsAPIv3.num_requests self;
       Api.PwnedPasswordsAPIv3.num_request_errors :=
         Api.PwnedPasswordsAPIv3.num_request_errors self |}).

(** The body of the [try] block, [self.create_new()], statement by
    statement through the calls it makes, with the points where a signal
    can be taken.  Without a signal it is [create_new]. *)
Definition try_body (c : cycle) : M t unit :=
  (* Updatinator.create_new *)
  checkpoint c before_find_missing ;;;
  self <- get ;;
  missing <- lift (Db.PrefixManager.find_missing
                     (Updatinator.prefixes (updater self))) ;;
  match missing with
  | None => raise (RuntimeError "No missing prefixes found")
  | Some missing =>
      (* PwnedPasswordsAPIv3.fetch_range *)
      checkpoint c before_prefix ;;;
      prefix <- lift (Api.Prefix.__init__ missing) ;;
      let url :=
        (Api.PwnedPasswordsAPIv3.URL_RANGE ++ "/"
         ++ Api.Prefix.__str__ prefix)%string in
      (* PwnedPasswordsAPIv3._get *)
      checkpoint c before_count ;;;
      on_api count_request ;;;
      checkpoint c before_request ;;;
      response <- on_api (Api.PwnedPasswordsAPIv3.with_session
                            (Api.Requests.get url None)) ;;
      checkpoint c before_status ;;;
      lift (Api.Requests.raise_for_status response) ;;;
      checkpoint c before_bytes ;;;
      on_api (count_bytes response) ;;;
      (* PwnedPasswordsAPIv3.fetch_range *)
      checkpoint c before_extract ;;;
      hashes <- lift (Api.PwnedPasswordsAPIv3._extract prefix
                        (Api.Requests.text response)) ;;
      (* Updatinator.create_new *)
      let passwords :=
        map (fun '(sha1, count) => Db.Password.__init__ sha1 count) hashes in
      checkpoint c before_instance ;;;
      instance <- lift (Db.Prefix.__init__ missing passwords) ;;
      checkpoint c before_add ;;;
      on_prefixes (Db.Manager.add (now c) instance) ;;;
      let num_passwords := Z.of_nat (List.length passwords) in
      (* CommandLine.create_new *)
      checkpoint c before_total_prefixes ;;;
      add_total_prefixes ;;;
      checkpoint c before_total_passwords ;;;
      add_total_passwords num_passwords ;;;
      (* CommandLine.print_progress *)
      checkpoint c before_percentage ;;;
      self <- get ;;
      completed <- lift (Db.PrefixManager.percentage_complete
                           (Updatinator.prefixes (updater self))) ;;
      checkpoint c before_progress ;;;
      print (progress completed missing) ;;;
      checkpoint c after_progress
  end.

(** [except SystemExit as e: ...; break] *)
Definition handler (c : cycle) (e : string) : M t unit :=
  checkpoint c before_close ;;;
  session_close ;;;
  checkpoint c before_blank ;;;
  print blank ;;;
  checkpoint c before_stderr ;;;
  print_stderr e ;;;
  checkpoint c before_break.

(** [while True: try: ... except SystemExit as e: ...; break].  The list is
    what the world does turn by turn; [None] says the list ended before the
    loop did.  The loop gives the turn in which it was left. *)
Fixpoint loop (cycles : list cycle) (self : t) : option (result cycle * t) :=
  match cycles with
  | [] => None
  | c :: rest =>
      match checkpoint c before_try self with
      | (Raise e, self') => Some (Raise e, self')
      | (Return tt, self') =>
          match try_body c self' with
          | (Return tt, self'') => loop rest self''
          | (Raise (SystemExit e), self'') =>
              Some ((handler c e ;;; ret c) self'')
          | (Raise e, self'') => Some (Raise e, self'')
          end
      end
  end.

Definition run (cycles : list cycle) (self : t) : option (result Z * t) :=
  match cycles with
  | [] => None
  | first :: _ =>
      match
        (checkpoint first before_next_prefix ;;;
         next_prefix <- lift (Db.PrefixManager.find_missing
                                (Updatinator.prefixes (updater self))) ;;
         checkpoint first before_opening ;;;
         print (starting next_prefix)) self
      with
      | (Raise e, self') => Some (Raise e, self')
      | (Return tt, self') =>
          match loop cycles self' with
          | None => None
          | Some (Raise e, self'') => Some (Raise e, self'')
          | Some (Return last, self'') =>
              Some ((checkpoint last before_duration ;;;
                     duration <- lift (Utils.duration (elapsed last)) ;;
                     checkpoint last before_summary ;;;
                     self <- get ;;
                     print (summary (total_prefixes self)
                              (total_passwords self) duration) ;;;
                     checkpoint last before_return ;;;
                     ret 0) self'')
          end
      end
  end.

End CommandLine.

(** ** Data of the test suite *)

Definition CRLF : string := String "013" (String "010" EmptyString).

Definition BODY : string :=
  "003CD215739D7C1B2218670D26F81408237:1" ++ CRLF ++
  "003D68EB55068C33ACE09247EE4C639306B:4" ++ CRLF ++
  "012C192B2F16F82EA0EB9EF18D9D539B0DD:3" ++ CRLF ++
  "01330C689E5D64F660D6947A93AD634EF8F:0" ++ CRLF.

Definition BODY_BAD : string :=
  "The hash prefix was not in a valid format" ++ CRLF.

Definition BODY_BAD2 : string :=
  "003CD215739D7C1B2218670D26F81408237:1" ++ CRLF ++
  "003D68EB55068C33ACE09247EE4C639306B:4" ++ CRLF ++
  "012C192B2F16F82EA0EB9EF18D9D539B0DD:null" ++ CRLF ++
  "01330C689E5D64F660D6947A93AD634EF8F:0" ++ CRLF.

Definition EXPECTED : Api.HashCounts :=
  [ ("5baa6003cd215739d7c1b2218670d26f81408237", 1);
    ("5baa6003d68eb55068c33ace09247ee4c639306b", 4);
    ("5baa6012c192b2f16f82ea0eb9ef18d9d539b0dd", 3);
    ("5baa601330c689e5d64f660d6947a93ad634ef8f", 0) ].

(** [Prefix(prefix=prefix)], for a text that the validator takes. *)
Definition new_prefix (prefix : string) : Db.Prefix.t :=
  match Db.Prefix.__init__ prefix [] with
  | Return instance => instance
  | Raise _ =>
      {| Db.Prefix.prefix := prefix;
         Db.Prefix.updated := None;
         Db.Prefix.passwords := [] |}
  end.

Definition out_of_order : Db.Session :=
  snd (Db.Manager.add_all (0 # 1)
         [new_prefix "000af"; new_prefix "000b1"; new_prefix "000b0";
          new_prefix "000ae"] Db.empty).

(** The store after [manager.add(Prefix(prefix=prefix))] on an empty one. *)
Definition only (prefix : string) : Db.Session :=
  snd (Db.Manager.add (0 # 1) (new_prefix prefix) Db.empty).


Definition RESPONSE : string := BODY.

(** [FakeResponse(text=RESPONSE)]: no content, and a [raise_for_status]
    that does nothing. *)
Definition fake_response : Api.Requests.Response :=
  {| Api.Requests.status_code := 200;
     Api.Requests.content := EmptyString;
     Api.Requests.text := RESPONSE |}.

Definition mocked : Api.Requests.Session :=
  {| Api.Requests.transport := fun _ _ => Return fake_response;
     Api.Requests.sent := [] |}.

(** ** The vocabulary of the specification *)

Definition is_lower_hex (c : ascii) : bool :=
  let n := N_of_ascii c in
  ((48 <=? n) && (n <=? 57) || (97 <=? n) && (n <=? 102))%N.

Definition is_hex (c : ascii) : bool :=
  let n := N_of_ascii c in
  ((48 <=? n) && (n <=? 57) || (97 <=? n) && (n <=? 102)
   || (65 <=? n) && (n <=? 70))%N.

Fixpoint all_chars (p : ascii -> bool) (s : string) : bool :=
  match s with
  | EmptyString => true
  | String c r => p c && all_chars p r
  end.

(** The canonical form of an address: exactly five lower-case hexadecimal
    digits. *)
Definition canonical (s : string) : bool :=
  (String.length s =? 5)%nat && all_chars is_lower_hex s.

(** A valid five-character hexadecimal string, in any case. *)
Definition hex5 (s : string) : bool :=
  (String.length s =? 5)%nat && all_chars is_hex s.

Definition digit (c : ascii) : Z :=
  match Py.digit_value c with
  | Some d => d
  | None => 0
  end.

(** The number that a string of hexadecimal digits writes, most significant
    digit first. *)
Fixpoint value_from (acc : Z) (s : string) : Z :=
  match s with
  | EmptyString => acc
  | String c r => value_from (acc * 16 + digit c) r
  end.

Definition address_value (s : string) : Z := value_from 0 s.

(** The addresses that a store holds, in the order of their rows. *)
Definition persisted (s : Db.Session) : list string :=
  map Db.prefixes.prefix (Db.prefixes_table s).

Definition numeric_maximum (l : list string) : Z :=
  fold_right Z.max 0 (map address_value l).

(** The five-digit zero-padded encoding, [f"{value:0>5x}"]. *)
Definition encode (value : Z) : string :=
  Py.rjust (Py.format_x value) 5 "0".

(** What the specification says of the text of an address: a leading [0x]
    or [0X] is stripped, then the case is folded. *)
Definition strip_0x (s : string) : string :=
  match s with
  | String z (String x r) =>
      if Ascii.eqb z "0" && (Ascii.eqb x "x" || Ascii.eqb x "X") then r
      else s
  | _ => s
  end.

Definition cleaned (s : string) : string := Py.casefold (strip_0x s).

Definition parses_as_hexadecimal (s : string) : bool :=
  is_return (Py.int s 16).

Definition well_formed (s : string) : bool :=
  (String.length (cleaned s) =? 5)%nat && parses_as_hexadecimal (cleaned s).

(** [s.removeprefix(p)] *)
Definition removeprefix (s p : string) : string :=
  if Py.startswith s p then Py.slice_from (String.length p) s else s.

Definition password_fields (r : Db.passwords.row) : string * Z :=
  (Db.passwords.sha1 r, Db.passwords.count r).

Definition request_for (url : string) : Api.Requests.Request :=
  {| Api.Requests.url := url; Api.Requests.timeout := None |}.

(** The client after [_get(url)]: one more request counted and sent, and
    the bytes of the response counted when there was one and its status
    was good. *)
Definition after_get (self : Api.PwnedPasswordsAPIv3.t) (url : string)
  (counted : option Api.Requests.Response) : Api.PwnedPasswordsAPIv3.t :=
  {| Api.PwnedPasswordsAPIv3.session :=
       {| Api.Requests.transport :=
            Api.Requests.transport (Api.PwnedPasswordsAPIv3.session self);
          Api.Requests.sent :=
            (Api.Requests.sent (Api.PwnedPasswordsAPIv3.session self)
             ++ [request_for url])%list |};
     Api.PwnedPasswordsAPIv3.timeout := Api.PwnedPasswordsAPIv3.timeout self;
     Api.PwnedPasswordsAPIv3.bytes_received :=
       match counted with
       | Some response =>
           Api.PwnedPasswordsAPIv3.bytes_received self
           + Py.len (Api.Requests.content response)
       | None => Api.PwnedPasswordsAPIv3.bytes_received self
       end;
     Api.PwnedPasswordsAPIv3.num_requests :=
       Api.PwnedPasswordsAPIv3.num_requests self + 1;
     Api.PwnedPasswordsAPIv3.num_request_errors :=
       Api.PwnedPasswordsAPIv3.num_request_errors self |}.

(** The lines of a body, as the specification speaks of them. *)
Definition splits_in_two (line : string) : bool :=
  (List.length (Py.split_sep ":" line) =? 2)%nat.

Definition count_field (line : string) : string :=
  nth 1 (Py.split_sep ":" line) EmptyString.

Definition parses_as_integer (count : string) : bool :=
  is_return (Py.int count 10).

Definition parses_as_non_negative_integer (count : string) : bool :=
  match Py.int count 10 with
  | Return n => 0 <=? n
  | Raise _ => false
  end.

(** A line as the specification wants it: two parts around the colon, the
    second a base-10 non-negative integer. *)
Definition well_formed_line_as_stated (line : string) : bool :=
  splits_in_two line && parses_as_non_negative_integer (count_field line).

(** A line as the code takes it: the second part is any integer that
    [int] parses. *)
Definition well_formed_line (line : string) : bool :=
  splits_in_two line && parses_as_integer (count_field line).

(** What the [ValueError] inside the [RuntimeError] says of the word it
    is raised for: that there is one part where two are expected, that
    there are more than two, or what [int] says of the second of two
    parts.  Only the last names text of the word, the second part, and
    only when [int] finds no literal in it. *)
Inductive describes (line : string) : value_error -> Prop :=
| no_colon :
    List.length (Py.split_sep ":" line) = 1%nat ->
    describes line (not_enough_values 2 1)
| several_colons :
    (2 < List.length (Py.split_sep ":" line))%nat ->
    describes line (too_many_values 2)
| count_not_a_literal :
    splits_in_two line = true ->
    Py.int (count_field line) 10
    = Raise (ValueError (invalid_literal 10 (count_field line))) ->
    describes line (invalid_literal 10 (count_field line))
| count_too_long (digits : N) :
    splits_in_two line = true ->
    Py.int (count_field line) 10
    = Raise (ValueError (exceeds_digit_limit digits)) ->
    (4300 < digits)%N ->
    describes line (exceeds_digit_limit digits).


(** A turn without a signal. *)
Definition quiet : CommandLine.cycle :=
  {| CommandLine.now := 0 # 1;
     CommandLine.signal := fun _ => None;
     CommandLine.elapsed := 0 # 1 |}.

(** A turn in which a signal with the message [text] arrives at [p], and
    nowhere else; the loop has run for a minute and a half. *)
Definition interrupt (p : CommandLine.point) (text : string)
  : CommandLine.cycle :=
  {| CommandLine.now := 1 # 1;
     CommandLine.signal :=
       fun q =>
         match p, q with
         | CommandLine.before_next_prefix, CommandLine.before_next_prefix
         | CommandLine.before_opening, CommandLine.before_opening
         | CommandLine.before_try, CommandLine.before_try
         | CommandLine.before_find_missing, CommandLine.before_find_missing
         | CommandLine.before_prefix, CommandLine.before_prefix
         | CommandLine.before_count, CommandLine.before_count
         | CommandLine.before_request, CommandLine.before_request
         | CommandLine.before_status, CommandLine.before_status
         | CommandLine.before_bytes, CommandLine.before_bytes
         | CommandLine.before_extract, CommandLine.before_extract
         | CommandLine.before_instance, CommandLine.before_instance
         | CommandLine.before_add, CommandLine.before_add
         | CommandLine.before_total_prefixes,
           CommandLine.before_total_prefixes
         | CommandLine.before_total_passwords,
           CommandLine.before_total_passwords
         | CommandLine.before_percentage, CommandLine.before_percentage
         | CommandLine.before_progress, CommandLine.before_progress
         | CommandLine.after_progress, CommandLine.after_progress
         | CommandLine.before_close, CommandLine.before_close
         | CommandLine.before_blank, CommandLine.before_blank
         | CommandLine.before_stderr, CommandLine.before_stderr
         | CommandLine.before_break, CommandLine.before_break
         | CommandLine.before_duration, CommandLine.before_duration
         | CommandLine.before_summary, CommandLine.before_summary
         | CommandLine.before_return, CommandLine.before_return => Some text
         | _, _ => None
         end;
     CommandLine.elapsed := 90 # 1 |}.

(** ** More vocabulary *)

(** What [_extract] makes of one line. *)
Definition parsed_from (prefix : Api.Prefix.t) (line : string)
  (datum : string * Z) : Prop :=
  exists suffix count,
    Py.split_sep ":" line = [suffix; count]
    /\ fst datum
       = (Py.casefold (Api.Prefix.__str__ prefix) ++ Py.casefold suffix)%string
    /\ Py.int count 10 = Return (snd datum).

(** The keys of the two tables: no primary key twice, and every row of
    [passwords] points to a row of [prefixes]. *)
Definition keys_ok (db : Db.Session) : Prop :=
  NoDup (map Db.prefixes.id (Db.prefixes_table db))
  /\ NoDup (map Db.passwords.id (Db.passwords_table db))
  /\ Forall
       (fun r =>
          In (Db.passwords.prefix_id r)
            (map Db.prefixes.id (Db.prefixes_table db)))
       (Db.passwords_table db).

(** The first [n] addresses, in order. *)
Definition in_order (n : nat) : list string :=
  map (fun i => encode (Z.of_nat i)) (seq 0 n).

(** The case of [duration] in which [n / length] is two or more. *)
Ltac duration_unit n key length :=
  exists key, length, (n / length);
  split; [cbn [In]; tauto|]; split; [reflexivity|];
  split; [replace (n / length =? 1) with false
            by (symmetry; apply Z.eqb_neq; lia); reflexivity|];
  split; [left; lia|];
  intros key' length' Hin Hlt; cbn [In] in Hin;
  repeat (destruct Hin as [Hin | Hin];
          [injection Hin as <- <-; first [lia | exfalso; lia]|]);
  destruct Hin.

(** How far the totals of the command line are ahead of the rows of the
    database. *)
Definition ahead (self : CommandLine.t) : Z * Z :=
  (CommandLine.total_prefixes self
   - Db.PrefixManager.count_rows
       (Updatinator.prefixes (CommandLine.updater self)),
   CommandLine.total_passwords self
   - Db.PasswordManager.count_rows
       (Updatinator.prefixes (CommandLine.updater self))).

(** The fields of the objects, read off a record that is written out. *)
Ltac fields :=
  cbn [CommandLine.updater CommandLine.total_prefixes
       CommandLine.total_passwords CommandLine.session_closed
       CommandLine.stdout CommandLine.stderr
       Updatinator.prefixes Updatinator.api
       Api.PwnedPasswordsAPIv3.session Api.PwnedPasswordsAPIv3.timeout
       Api.PwnedPasswordsAPIv3.bytes_received
       Api.PwnedPasswordsAPIv3.num_requests
       Api.PwnedPasswordsAPIv3.num_request_errors
       Api.Requests.transport Api.Requests.sent fst snd] in *.

(** The totals fall short of the rows by at most one row of [prefixes]
    more than before, and are never further ahead of them. *)
Definition lags (before after : CommandLine.t) : Prop :=
  fst (ahead before) - 1 <= fst (ahead after) <= fst (ahead before)
  /\ snd (ahead after) <= snd (ahead before).

Definition no_signal_before_totals (c : CommandLine.cycle) : Prop :=
  CommandLine.signal c CommandLine.before_total_prefixes = None
  /\ CommandLine.signal c CommandLine.before_total_passwords = None.

(** Steps through the body of the [try] block: a signal taken at a point
    or an exception of a call ends the turn with the totals as they
    were. *)
Ltac unchanged :=
  cbv beta iota; unfold ahead; fields;
  repeat split; first [reflexivity | left; reflexivity].

Ltac settled Even :=
  cbv beta iota; fields; do 2 (split; [reflexivity|]);
  first [apply Even | left; apply Even].

Ltac at_point p :=
  match goal with
  | c : CommandLine.cycle |- _ =>
      destruct (CommandLine.signal c p); [unchanged|]; cbv beta iota; fields
  end.

Tactic Notation "on_call" constr(t) "as" ident(x) :=
  let e := fresh "e" in
  destruct t as [x|e]; [|destruct e; unchanged]; cbv beta iota; fields.

(** Case analysis on the eight bits of a character. *)
Ltac each_ascii c :=
  destruct c as [[] [] [] [] [] [] [] []].

(** * The test suite, run on the embedding *)

Example split_crlf :
  Py.split ("ab:1" ++ String "013" (String "010" "cd:2")
            ++ String "013" (String "010" ""))
  = ["ab:1"; "cd:2"].
Proof. reflexivity. Qed.

Example int_examples :
  Py.int "null" 10 = Raise (ValueError (invalid_literal 10 "null"))
  /\ Py.int "0012" 10 = Return 12
  /\ Py.int "-5" 10 = Return (-5)
  /\ Py.int "1_000" 10 = Return 1000
  /\ Py.int "1__0" 10 = Raise (ValueError (invalid_literal 10 "1__0"))
  /\ Py.int "" 10 = Raise (ValueError (invalid_literal 10 ""))
  /\ Py.int "decaf" 16 = Return 912559
  /\ Py.int "0x1f" 16 = Return 31
  /\ Py.int "zyxwv" 16 = Raise (ValueError (invalid_literal 16 "zyxwv")).
Proof. repeat split; reflexivity. Qed.

Example format_examples :
  Py.rjust (Py.format_x 123456) 5 "0" = "1e240"
  /\ Py.rjust (Py.format_x 0) 5 "0" = "00000"
  /\ Py.rjust (Py.format_x 1048575) 5 "0" = "fffff"
  /\ Py.rjust (Py.format_x 1048576) 5 "0" = "100000"
  /\ Py.rjust (Py.format_x (-1)) 5 "0" = "000-1".
Proof. repeat split; reflexivity. Qed.

Example test_create :
  Api.Prefix.__init__ "decaf" = Return {| Api.Prefix._prefix := "decaf" |}
  /\ Api.Prefix.__init__ "DECAF" = Return {| Api.Prefix._prefix := "decaf" |}
  /\ Api.Prefix.__init__ "0xdecaf" = Return {| Api.Prefix._prefix := "decaf" |}
  /\ Api.Prefix.__init__ "0XDECAF" = Return {| Api.Prefix._prefix := "decaf" |}.
Proof. repeat split; reflexivity. Qed.

Example test_create_rejects :
  Api.Prefix.__init__ "abcdef"
  = Raise (ValueError (message "prefix must be exactly 5-characters long"))
  /\ Api.Prefix.__init__ "zyxwv"
     = Raise (ValueError (message "prefix must be hexadecimal string")).
Proof. split; reflexivity. Qed.

Example test_from_integer :
  Api.Prefix.from_integer 123456
  = Return {| Api.Prefix._prefix := "1e240" |}
  /\ Api.Prefix.from_integer (-3)
     = Raise (ValueError (message "value must be a positive integer"))
  /\ Api.Prefix.from_integer (2 ^ 20)
     = Raise (ValueError (message "value cannot be greater than MAX_VALUE")).
Proof. repeat split; reflexivity. Qed.

Example test_extract :
  Api.PwnedPasswordsAPIv3._extract {| Api.Prefix._prefix := "5baa6" |} BODY
  = Return EXPECTED.
Proof. reflexivity. Qed.

Example test_extract_bad :
  Api.PwnedPasswordsAPIv3._extract {| Api.Prefix._prefix := "5baa6" |} BODY_BAD
  = Raise (RuntimeError_line 1 (not_enough_values 2 1))
  /\ Api.PwnedPasswordsAPIv3._extract
       {| Api.Prefix._prefix := "5baa6" |} BODY_BAD2
     = Raise (RuntimeError_line 3 (invalid_literal 10 "null")).
Proof. split; reflexivity. Qed.

Example test_largest_prefix :
  Db.PrefixManager.largest_prefix out_of_order = Some "000b1"
  /\ Db.PrefixManager.largest_prefix Db.empty = None.
Proof. split; reflexivity. Qed.

Example test_find_missing_empty :
  Db.PrefixManager.find_missing Db.empty = Return (Some "00000")
  /\ Db.PrefixManager.find_missing
       (snd (Db.Manager.add (0 # 1) (new_prefix "00000") Db.empty))
     = Return (Some "00001").
Proof. split; reflexivity. Qed.

Example test_find_missing_full :
  let s1 := snd (Db.Manager.add (0 # 1) (new_prefix "ffffe") Db.empty) in
  let s2 := snd (Db.Manager.add (0 # 1) (new_prefix "fffff") s1) in
  Db.PrefixManager.find_missing s1 = Return (Some "fffff")
  /\ Db.PrefixManager.find_missing s2 = Return None.
Proof. split; reflexivity. Qed.

Example test_add_not_unique :
  fst (Db.Manager.add_all (0 # 1) [new_prefix "abcde"; new_prefix "ABCDE"]
         Db.empty)
  = Raise (IntegrityError "UNIQUE constraint failed: prefixes.prefix").
Proof. reflexivity. Qed.

Example test_add_wrong_length :
  Db.Prefix.__init__ "abcdef" [] = Raise (ValueError (not_5_characters "abcdef"))
  /\ Db.Prefix.__init__ "abcd" [] = Raise (ValueError (not_5_characters "abcd")).
Proof. split; reflexivity. Qed.

Example test_create_new :
  let '(r, u) :=
    Updatinator.create_new (0 # 1) (Updatinator.__init__ Db.empty mocked) in
  r = Return ("00000", 4)
  /\ Db.PrefixManager.count_rows (Updatinator.prefixes u) = 1
  /\ Db.PasswordManager.count_rows (Updatinator.prefixes u) = 4.
Proof. vm_compute. repeat split; reflexivity. Qed.

Example test_create_new_full :
  fst (Updatinator.create_new (0 # 1)
         (Updatinator.__init__
            (snd (Db.Manager.add (0 # 1) (new_prefix "fffff") Db.empty))
            mocked))
  = Raise (RuntimeError "No missing prefixes found").
Proof. reflexivity. Qed.

Example test_find_missing :
  Db.PrefixManager.find_missing out_of_order = Return (Some "000b2").
Proof. reflexivity. Qed.

(** [int(_, 16)] takes more than digits: a sign, white space around, an
    underscore between digits, a [0x] of its own.  The constructor takes
    such texts too when they are five characters long. *)
Example int_takes_more_than_digits :
  Api.Prefix.__init__ "+1234" = Return {| Api.Prefix._prefix := "+1234" |}
  /\ Api.Prefix.__init__ "1_234" = Return {| Api.Prefix._prefix := "1_234" |}
  /\ Api.Prefix.__init__ "0x0x123" = Return {| Api.Prefix._prefix := "0x123" |}
  /\ Api.Prefix.__int__ {| Api.Prefix._prefix := "-0001" |} = Return (-1).
Proof. repeat split; reflexivity. Qed.

(** * Characters and digits *)

Lemma lower_hex_is_plain (c : ascii) :
  is_lower_hex c = true ->
  Py.lower_char c = c
  /\ Py.ISSPACE c = false
  /\ Ascii.eqb c "_" = false
  /\ Ascii.eqb c "x" = false
  /\ Ascii.eqb c "X" = false
  /\ Ascii.eqb c "+" = false
  /\ Ascii.eqb c "-" = false
  /\ Py.is_digit 16 c = true.
Proof.
  each_ascii c; intro H; vm_compute in H; try discriminate H;
    vm_compute; repeat split; reflexivity.
Qed.

Lemma lower_hex_code (c : ascii) :
  is_lower_hex c = true ->
  let n := Z.of_N (N_of_ascii c) in
  (48 <= n <= 57 \/ 97 <= n <= 102)
  /\ Py.digit_value c = Some (if n <=? 57 then n - 48 else n - 87).
Proof.
  each_ascii c; intro H; vm_compute in H; try discriminate H;
    vm_compute; split; try reflexivity;
    first [ left; split; discriminate | right; split; discriminate ].
Qed.

Lemma lower_hex_digit (c : ascii) :
  is_lower_hex c = true ->
  Py.digit_value c = Some (digit c) /\ 0 <= digit c < 16.
Proof.
  intro H. destruct (lower_hex_code c H) as [Hn Hd]. cbv zeta in Hn, Hd.
  unfold digit. rewrite Hd. split; [reflexivity|].
  destruct (Z.leb_spec (Z.of_N (N_of_ascii c)) 57); lia.
Qed.

Lemma lower_hex_compare (c d : ascii) :
  is_lower_hex c = true -> is_lower_hex d = true ->
  Ascii.compare c d = (digit c ?= digit d).
Proof.
  intros Hc Hd.
  destruct (lower_hex_code c Hc) as [Hn Hv].
  destruct (lower_hex_code d Hd) as [Hm Hw]. cbv zeta in *.
  unfold digit. rewrite Hv, Hw. unfold Ascii.compare.
  rewrite <- N2Z.inj_compare.
  destruct (Z.leb_spec (Z.of_N (N_of_ascii c)) 57);
    destruct (Z.leb_spec (Z.of_N (N_of_ascii d)) 57);
    destruct (Z.compare_spec (Z.of_N (N_of_ascii c)) (Z.of_N (N_of_ascii d)));
    symmetry; first [ apply Z.compare_eq_iff | apply Z.compare_lt_iff
                    | apply Z.compare_gt_iff ]; lia.
Qed.

Lemma hex_lowers (c : ascii) :
  is_hex c = true -> is_lower_hex (Py.lower_char c) = true.
Proof.
  each_ascii c; intro H; vm_compute in H; try discriminate H; reflexivity.
Qed.

Lemma hex_digit_is_lower_hex (d : Z) :
  0 <= d < 16 ->
  is_lower_hex (Py.hex_digit d) = true /\ digit (Py.hex_digit d) = d.
Proof.
  intro H.
  assert (d = 0 \/ d = 1 \/ d = 2 \/ d = 3 \/ d = 4 \/ d = 5 \/ d = 6
          \/ d = 7 \/ d = 8 \/ d = 9 \/ d = 10 \/ d = 11 \/ d = 12
          \/ d = 13 \/ d = 14 \/ d = 15) as D by lia.
  repeat (destruct D as [D | D]; [subst d; split; reflexivity|]).
  subst d; split; reflexivity.
Qed.

(** * Strings of lower-case hexadecimal digits *)

Lemma all_chars_app (p : ascii -> bool) (a b : string) :
  all_chars p (a ++ b) = all_chars p a && all_chars p b.
Proof.
  induction a as [|c a IH]; simpl; [reflexivity|].
  rewrite IH. apply andb_assoc.
Qed.

Lemma string_length_app (a b : string) :
  String.length (a ++ b) = (String.length a + String.length b)%nat.
Proof. induction a as [|c a IH]; simpl; [reflexivity | now rewrite IH]. Qed.

Lemma casefold_lower_hex (s : string) :
  all_chars is_lower_hex s = true -> Py.casefold s = s.
Proof.
  induction s as [|c s IH]; simpl; [reflexivity|].
  intro H. apply andb_prop in H as [Hc Hs].
  destruct (lower_hex_is_plain c Hc) as [E _]. now rewrite E, IH.
Qed.

Lemma casefold_length (s : string) :
  String.length (Py.casefold s) = String.length s.
Proof. induction s as [|c s IH]; simpl; [reflexivity | now rewrite IH]. Qed.

Lemma casefold_hex (s : string) :
  all_chars is_hex s = true -> all_chars is_lower_hex (Py.casefold s) = true.
Proof.
  induction s as [|c s IH]; simpl; [reflexivity|].
  intro H. apply andb_prop in H as [Hc Hs].
  now rewrite (hex_lowers c Hc), IH.
Qed.

Lemma value_from_shift (s : string) (acc : Z) :
  value_from acc s = acc * 16 ^ Z.of_nat (String.length s) + value_from 0 s.
Proof.
  revert acc. induction s as [|c s IH]; intro acc.
  - simpl. lia.
  - cbn [value_from String.length]. rewrite IH, (IH (0 * 16 + digit c)).
    rewrite Nat2Z.inj_succ, Z.pow_succ_r by lia. ring.
Qed.

Lemma value_from_bound (s : string) :
  all_chars is_lower_hex s = true ->
  0 <= value_from 0 s < 16 ^ Z.of_nat (String.length s).
Proof.
  induction s as [|c s IH]; intro H.
  - simpl. lia.
  - cbn [all_chars] in H. apply andb_prop in H as [Hc Hs].
    cbn [value_from String.length]. rewrite value_from_shift.
    rewrite Nat2Z.inj_succ, Z.pow_succ_r by lia.
    destruct (lower_hex_digit c Hc) as [_ Hd]. specialize (IH Hs). nia.
Qed.

(** On digits alone the scan of [int] is the positional value. *)
Lemma scan_lower_hex (s : string) (acc : Z) (n : N) :
  all_chars is_lower_hex s = true ->
  Py.scan 16 false s acc n
  = Some (value_from acc s, (n + N.of_nat (String.length s))%N, EmptyString).
Proof.
  revert acc n. induction s as [|c s IH]; intros acc n H.
  - simpl. now rewrite N.add_0_r.
  - cbn [all_chars] in H. apply andb_prop in H as [Hc Hs].
    destruct (lower_hex_is_plain c Hc) as (_ & _ & Hu & _ & _ & _ & _ & Hd).
    destruct (lower_hex_digit c Hc) as [Hv _].
    cbn [Py.scan value_from String.length]. rewrite Hu, Hd, Hv, IH by exact Hs.
    do 3 f_equal. lia.
Qed.

Lemma int_lower_hex (s : string) :
  s <> EmptyString -> all_chars is_lower_hex s = true ->
  Py.int s 16 = Return (address_value s).
Proof.
  intros Hne H. destruct s as [|c s]; [congruence|].
  pose proof H as Hall.
  cbn [all_chars] in H. apply andb_prop in H as [Hc Hs].
  destruct (lower_hex_is_plain c Hc) as (_ & Hsp & Hu & _ & _ & Hp & Hm & _).
  unfold Py.int. cbn [Py.skip_space]. rewrite Hsp.
  cbn [Py.take_sign]. rewrite Hp, Hm.
  assert (Py.skip_base_prefix 16 (String c s) = String c s) as E.
  { destruct s as [|x s]; [reflexivity|].
    cbn [all_chars] in Hs. apply andb_prop in Hs as [Hx _].
    destruct (lower_hex_is_plain x Hx) as (_ & _ & _ & Hx1 & Hx2 & _).
    cbn [Py.skip_base_prefix]. rewrite Hx1, Hx2.
    now rewrite andb_false_r. }
  rewrite E. cbn [Py.starts_with_underscore]. rewrite Hu.
  rewrite (scan_lower_hex _ 0 0 Hall).
  change (negb (Py.is_binary_base 16)) with false.
  cbn [andb Py.skip_space].
  replace ((0 + N.of_nat (String.length (String c s))) =? 0)%N with false.
  - unfold address_value. f_equal. lia.
  - symmetry. apply N.eqb_neq. cbn [String.length]. lia.
Qed.

(** For digit strings of one length, the order of the text is the order of
    the numbers. *)
Lemma compare_lower_hex (a b : string) :
  String.length a = String.length b ->
  all_chars is_lower_hex a = true -> all_chars is_lower_hex b = true ->
  String.compare a b = (address_value a ?= address_value b).
Proof.
  unfold address_value. revert b.
  induction a as [|c a IH]; intros [|d b] Hlen Ha Hb; try discriminate Hlen.
  - reflexivity.
  - cbn [all_chars] in Ha, Hb.
    apply andb_prop in Ha as [Hc Ha]. apply andb_prop in Hb as [Hd Hb].
    injection Hlen as Hlen.
    cbn [String.compare value_from].
    rewrite (lower_hex_compare c d Hc Hd).
    rewrite (value_from_shift a), (value_from_shift b), <- Hlen.
    pose proof (value_from_bound a Ha) as Ba.
    pose proof (value_from_bound b Hb) as Bb. rewrite <- Hlen in Bb.
    destruct (lower_hex_digit c Hc) as [_ Dc].
    destruct (lower_hex_digit d Hd) as [_ Dd].
    specialize (IH b Hlen Ha Hb).
    set (w := 16 ^ Z.of_nat (String.length a)) in *.
    destruct (Z.compare_spec (digit c) (digit d)) as [E | L | G].
    + rewrite IH, E.
      destruct (Z.compare_spec (value_from 0 a) (value_from 0 b));
        symmetry; first [ apply Z.compare_eq_iff | apply Z.compare_lt_iff
                        | apply Z.compare_gt_iff ]; lia.
    + symmetry. apply Z.compare_lt_iff. nia.
    + symmetry. apply Z.compare_gt_iff. nia.
Qed.

Lemma leb_canonical (a b : string) :
  canonical a = true -> canonical b = true ->
  String.leb a b = (address_value a <=? address_value b).
Proof.
  unfold canonical. intros Ha Hb.
  apply andb_prop in Ha as [La Ha]. apply andb_prop in Hb as [Lb Hb].
  apply Nat.eqb_eq in La, Lb.
  unfold String.leb, Z.leb.
  rewrite (compare_lower_hex a b) by congruence.
  now destruct (address_value a ?= address_value b).
Qed.

Lemma canonical_value_bound (p : string) :
  canonical p = true -> 0 <= address_value p < 2 ^ 20.
Proof.
  unfold canonical. intro H. apply andb_prop in H as [L H].
  apply Nat.eqb_eq in L. pose proof (value_from_bound p H) as B.
  rewrite L in B. exact B.
Qed.

Lemma int_canonical (p : string) :
  canonical p = true -> Py.int p 16 = Return (address_value p).
Proof.
  intro H. pose proof H as H'. unfold canonical in H'.
  apply andb_prop in H' as [L A]. apply Nat.eqb_eq in L.
  apply int_lower_hex; [|exact A]. intro E. now rewrite E in L.
Qed.

Lemma value_from_app (a b : string) (acc : Z) :
  value_from acc (a ++ b) = value_from (value_from acc a) b.
Proof.
  revert acc. induction a as [|c a IH]; intro acc; simpl; [reflexivity|].
  apply IH.
Qed.

Lemma app_assoc_string (a b c : string) : ((a ++ b) ++ c = a ++ b ++ c)%string.
Proof. induction a as [|x a IH]; simpl; [reflexivity | now rewrite IH]. Qed.

(** [hex_digits] writes [n] in at most [k] digits when [n < 16 ^ k]. *)
Lemma hex_digits_spec (fuel : nat) :
  forall (k : nat) (n : Z) (acc : string),
    (1 <= k <= fuel)%nat -> 0 <= n < 16 ^ Z.of_nat k ->
    exists ds,
      Py.hex_digits fuel n acc = (ds ++ acc)%string
      /\ all_chars is_lower_hex ds = true
      /\ value_from 0 ds = n
      /\ (String.length ds <= k)%nat.
Proof.
  induction fuel as [|fuel IH]; intros k n acc Hk Hn; [lia|].
  cbn [Py.hex_digits].
  assert (0 <= n mod 16 < 16) as Hmod by (apply Z.mod_pos_bound; lia).
  destruct (hex_digit_is_lower_hex (n mod 16) Hmod) as [Hlow Hdig].
  destruct (Z.ltb_spec n 16) as [Hsmall | Hbig].
  - exists (String (Py.hex_digit (n mod 16)) EmptyString).
    cbn [String.append all_chars value_from String.length].
    rewrite Hlow, Hdig, Z.mod_small by lia.
    repeat split; try reflexivity; lia.
  - destruct k as [|[|k]]; [lia | simpl in Hn; lia |].
    assert (0 <= n / 16 < 16 ^ Z.of_nat (S k)) as Hdiv.
    { rewrite (Nat2Z.inj_succ (S k)), Z.pow_succ_r in Hn by lia.
      split; [apply Z.div_pos; lia | apply Z.div_lt_upper_bound; lia]. }
    destruct (IH (S k) (n / 16)
                (String (Py.hex_digit (n mod 16)) acc) ltac:(lia) Hdiv)
      as (ds & E & Hall & Hval & Hlen).
    exists (ds ++ String (Py.hex_digit (n mod 16)) EmptyString)%string.
    rewrite E, app_assoc_string, all_chars_app, value_from_app, Hall, Hval.
    rewrite string_length_app.
    cbn [String.append all_chars value_from String.length].
    rewrite Hlow, Hdig.
    repeat split; try reflexivity; [|lia].
    pose proof (Z.div_mod n 16). lia.
Qed.

Lemma repeat_zero (n : nat) :
  all_chars is_lower_hex (Py.repeat_char "0" n) = true
  /\ value_from 0 (Py.repeat_char "0" n) = 0
  /\ String.length (Py.repeat_char "0" n) = n.
Proof.
  induction n as [|n (A & V & L)]; [repeat split|].
  cbn [Py.repeat_char all_chars value_from String.length].
  change (0 * 16 + digit "0") with 0. rewrite A, V, L. repeat split.
Qed.

Lemma encode_canonical (v : Z) :
  0 <= v < 2 ^ 20 -> canonical (encode v) = true /\ address_value (encode v) = v.
Proof.
  intro Hv. unfold encode, Py.format_x, Py.rjust.
  replace (v <? 0) with false by (symmetry; apply Z.ltb_ge; lia).
  rewrite Z.abs_eq by lia.
  set (fuel := S (Z.to_nat (Z.log2 v))).
  assert (0 <= v < 16 ^ Z.of_nat (Nat.min 5 fuel)) as Hk.
  { split; [lia|].
    destruct (Nat.min_spec 5 fuel) as [[_ E] | [_ E]]; rewrite E.
    - change (16 ^ Z.of_nat 5) with (2 ^ 20). lia.
    - unfold fuel. rewrite Nat2Z.inj_succ, Z2Nat.id by apply Z.log2_nonneg.
      destruct (Z.eq_dec v 0) as [-> | Hnz]; [reflexivity|].
      pose proof (Z.log2_spec v ltac:(lia)) as [_ Hup].
      eapply Z.lt_le_trans; [exact Hup|].
      apply Z.pow_le_mono_l. lia. }
  destruct (hex_digits_spec fuel (Nat.min 5 fuel) v EmptyString
              ltac:(unfold fuel; lia) Hk) as (ds & E & Hall & Hval & Hlen).
  rewrite E.
  replace (ds ++ "")%string with ds
    by (clear; induction ds as [|c ds IH]; simpl; congruence).
  destruct (repeat_zero (5 - String.length ds)) as (A & V & L).
  unfold canonical, address_value.
  rewrite string_length_app, all_chars_app, value_from_app, A, V, L, Hall, Hval.
  split; [|reflexivity].
  apply andb_true_intro. split; [apply Nat.eqb_eq; lia | reflexivity].
Qed.

(** Canonical forms with one value are one text. *)
Lemma lower_hex_value_inj (a b : string) :
  String.length a = String.length b ->
  all_chars is_lower_hex a = true -> all_chars is_lower_hex b = true ->
  address_value a = address_value b -> a = b.
Proof.
  intros L Ha Hb E. apply String.compare_eq_iff.
  rewrite compare_lower_hex by assumption. now apply Z.compare_eq_iff.
Qed.

Lemma encode_address_value (p : string) :
  canonical p = true -> encode (address_value p) = p.
Proof.
  intro H. pose proof (canonical_value_bound p H) as B.
  destruct (encode_canonical _ B) as [C V].
  unfold canonical in H, C.
  apply andb_prop in H as [L A]. apply andb_prop in C as [L' A'].
  apply Nat.eqb_eq in L, L'.
  apply lower_hex_value_inj; congruence.
Qed.

(** * Construction of an address *)

Lemma prefix_0x (a b : ascii) (r : string) :
  Py.startswith (String a (String b r)) "0x"
  = Ascii.eqb a "0" && Ascii.eqb b "x".
Proof.
  cbn [Py.startswith]. now rewrite andb_true_r.
Qed.

Lemma lower_char_zero (c : ascii) :
  Ascii.eqb (Py.lower_char c) "0" = Ascii.eqb c "0".
Proof. each_ascii c; reflexivity. Qed.

Lemma lower_char_x (c : ascii) :
  Ascii.eqb (Py.lower_char c) "x" = Ascii.eqb c "x" || Ascii.eqb c "X".
Proof. each_ascii c; reflexivity. Qed.

(** Folding the case and then dropping [0x], as the code does, is dropping
    [0x] or [0X] and then folding the case. *)
Lemma clean_commutes (s : string) :
  (if Py.startswith (Py.casefold s) "0x"
   then Py.slice_from 2 (Py.casefold s) else Py.casefold s)
  = cleaned s.
Proof.
  unfold cleaned, strip_0x.
  destruct s as [|z [|x r]]; [reflexivity | |].
  { cbn [Py.casefold Py.startswith]. now rewrite andb_false_r. }
  cbn [Py.casefold]. rewrite prefix_0x, lower_char_zero, lower_char_x.
  destruct (Ascii.eqb z "0" && (Ascii.eqb x "x" || Ascii.eqb x "X"));
    reflexivity.
Qed.

Lemma init_by_cases (s : string) :
  Api.Prefix.__init__ s
  = if well_formed s then Return {| Api.Prefix._prefix := cleaned s |}
    else if negb (String.length (cleaned s) =? 5)%nat then
      Raise (ValueError (message "prefix must be exactly 5-characters long"))
    else Raise (ValueError (message "prefix must be hexadecimal string")).
Proof.
  unfold Api.Prefix.__init__, well_formed, parses_as_hexadecimal.
  rewrite clean_commutes. unfold Py.len.
  destruct (Nat.eqb_spec (String.length (cleaned s)) 5) as [E | N].
  - rewrite E. cbn [Z.of_nat Z.eqb Pos.eqb Pos.of_succ_nat Pos.succ negb andb].
    unfold Py.int.
    destruct (Py.take_sign (Py.skip_space (cleaned s))) as [sign s2].
    destruct (Py.starts_with_underscore _); [reflexivity|].
    destruct (Py.scan _ _ _ _ _) as [[[v digits] rest]|]; [|reflexivity].
    destruct (_ && _ && _ && _); [reflexivity|].
    destruct (_ =? _)%N; [reflexivity|].
    destruct (Py.skip_space rest); reflexivity.
  - replace (Z.of_nat (String.length (cleaned s)) =? 5) with false
      by (symmetry; apply Z.eqb_neq; lia).
    reflexivity.
Qed.

Lemma init_canonical (p : string) :
  canonical p = true ->
  Api.Prefix.__init__ p = Return {| Api.Prefix._prefix := p |}.
Proof.
  intro H. pose proof H as H'. unfold canonical in H'.
  apply andb_prop in H' as [L A].
  assert (cleaned p = p) as C.
  { unfold cleaned, strip_0x.
    destruct p as [|z [|x r]]; try discriminate L.
    pose proof A as A'. cbn [all_chars] in A'.
    apply andb_prop in A' as [_ A']. apply andb_prop in A' as [Hx _].
    destruct (lower_hex_is_plain x Hx) as (_ & _ & _ & X1 & X2 & _).
    rewrite X1, X2, andb_false_r. now apply casefold_lower_hex. }
  rewrite init_by_cases. unfold well_formed, parses_as_hexadecimal.
  rewrite C, L, (int_canonical p H). reflexivity.
Qed.

Lemma hex_is_not_x (c : ascii) :
  is_hex c = true -> Ascii.eqb c "x" = false /\ Ascii.eqb c "X" = false.
Proof.
  each_ascii c; intro H; vm_compute in H; try discriminate H;
    split; reflexivity.
Qed.

Lemma init_hex5 (pre h : string) :
  In pre [EmptyString; "0x"; "0X"] -> hex5 h = true ->
  cleaned (pre ++ h) = Py.casefold h
  /\ removeprefix (Py.casefold (pre ++ h)) "0x" = Py.casefold h
  /\ Api.Prefix.__init__ (pre ++ h)
     = Return {| Api.Prefix._prefix := Py.casefold h |}.
Proof.
  intros Hpre Hh. unfold hex5 in Hh. apply andb_prop in Hh as [L A].
  apply Nat.eqb_eq in L.
  assert (canonical (Py.casefold h) = true) as C.
  { unfold canonical. rewrite casefold_length, L, casefold_hex by exact A.
    reflexivity. }
  assert (Py.startswith (Py.casefold h) "0x" = false /\ strip_0x h = h)
    as [S0 S1].
  { destruct h as [|z [|x r]]; try discriminate L.
    cbn [all_chars] in A.
    apply andb_prop in A as [_ A]. apply andb_prop in A as [Hx _].
    destruct (hex_is_not_x x Hx) as [X1 X2].
    cbn [Py.casefold]. rewrite prefix_0x, lower_char_x.
    unfold strip_0x. rewrite X1, X2. cbn [orb]. rewrite !andb_false_r.
    split; reflexivity. }
  assert (cleaned (pre ++ h) = Py.casefold h) as E.
  { destruct Hpre as [<- | [<- | [<- | []]]]; unfold cleaned;
      [ cbn [String.append]; now rewrite S1 | reflexivity | reflexivity ]. }
  split; [exact E|]. split.
  - unfold removeprefix.
    destruct Hpre as [<- | [<- | [<- | []]]];
      [ cbn [String.append]; now rewrite S0 | reflexivity | reflexivity ].
  - rewrite init_by_cases. unfold well_formed, parses_as_hexadecimal.
    rewrite E, casefold_length, L, (int_canonical _ C). reflexivity.
Qed.

(** * The largest persisted address *)

Lemma insert_desc_head (x : string) (l : list string) :
  hd_error (Db.PrefixManager.insert_desc x l)
  = match hd_error l with
    | None => Some x
    | Some y => if String.leb y x then Some x else Some y
    end.
Proof. destruct l as [|y l]; simpl; [reflexivity|]. now destruct (String.leb y x). Qed.

(** Among canonical addresses, the first in descending order of the text
    is the one with the largest number. *)
Lemma order_by_desc_head (l : list string) :
  Forall (fun p => canonical p = true) l ->
  match hd_error (Db.PrefixManager.order_by_desc l) with
  | None => l = []
  | Some p =>
      canonical p = true /\ In p l /\ address_value p = numeric_maximum l
  end.
Proof.
  induction l as [|x l IH]; intro H; [reflexivity|].
  inversion H as [|? ? Hx Hl]; subst. specialize (IH Hl).
  change (Db.PrefixManager.order_by_desc (x :: l))
    with (Db.PrefixManager.insert_desc x (Db.PrefixManager.order_by_desc l)).
  rewrite insert_desc_head.
  pose proof (canonical_value_bound x Hx) as Bx.
  unfold numeric_maximum in *. cbn [map fold_right].
  destruct (hd_error (Db.PrefixManager.order_by_desc l)) as [y|].
  - destruct IH as (Hy & Iy & Vy).
    rewrite (leb_canonical y x Hy Hx), <- Vy.
    destruct (Z.leb_spec (address_value y) (address_value x)).
    + repeat split; [exact Hx | now left | lia].
    + repeat split; [exact Hy | now right | lia].
  - subst l. repeat split; [exact Hx | now left | simpl; lia].
Qed.

Lemma largest_prefix_canonical (s : Db.Session) :
  Forall (fun p => canonical p = true) (persisted s) ->
  match persisted s with
  | [] => Db.PrefixManager.largest_prefix s = None
  | _ :: _ =>
      exists p,
        Db.PrefixManager.largest_prefix s = Some p
        /\ canonical p = true
        /\ address_value p = numeric_maximum (persisted s)
  end.
Proof.
  intro H. pose proof (order_by_desc_head _ H) as O.
  unfold Db.PrefixManager.largest_prefix. fold (persisted s).
  destruct (persisted s) as [|x l] eqn:E; [reflexivity|].
  destruct (hd_error _) as [p|]; [|discriminate O].
  destruct O as (C & _ & V). exists p. auto.
Qed.

(** * What the specification says of the code *)

Lemma lowered_hex_is_lower_hex (c : ascii) :
  is_hex (Py.lower_char c) = true -> is_lower_hex (Py.lower_char c) = true.
Proof.
  each_ascii c; intro H; vm_compute in H; try discriminate H; reflexivity.
Qed.

Lemma casefolded_hex (s : string) :
  all_chars is_hex (Py.casefold s) = true ->
  all_chars is_lower_hex (Py.casefold s) = true.
Proof.
  induction s as [|c s IH]; cbn [Py.casefold all_chars]; [reflexivity|].
  intro H. apply andb_prop in H as [Hc Hs].
  now rewrite (lowered_hex_is_lower_hex c Hc), IH.
Qed.

(** A text that is five hexadecimal digits once it is cleaned is
    constructed, and is an address of the 20-bit space. *)
Lemma init_cleaned_hex5 (s : string) :
  hex5 (cleaned s) = true ->
  canonical (cleaned s) = true
  /\ Api.Prefix.__init__ s = Return {| Api.Prefix._prefix := cleaned s |}.
Proof.
  intro H. unfold hex5 in H. apply andb_prop in H as [L A].
  assert (canonical (cleaned s) = true) as C
    by (unfold canonical; rewrite L; exact (casefolded_hex _ A)).
  split; [exact C|].
  rewrite init_by_cases. unfold well_formed, parses_as_hexadecimal.
  now rewrite L, (int_canonical _ C).
Qed.

(** C7.  The constructor takes every text that, with a leading [0x] or
    [0X] stripped and the case folded, is five hexadecimal digits: the
    address prints as that cleaned text and its integer lies in
    [0 .. 0xFFFFF]; so for a five-digit text [h] in any case, with or
    without the prefix, the address prints as the lower-cased text without
    the prefix.  What it takes has five characters when cleaned, and what
    it refuses gets a [ValueError].  But it takes more than that: it asks
    [int(_, 16)] whether the text is hexadecimal, and [int] also reads a
    sign, an underscore, white space and a [0x] of its own.  So [+1234],
    [1_234] and [0x0x123] make addresses, and [-0001] makes one whose
    integer is [-1]. *)
Theorem prefix_construction_takes_more_than_hexadecimal (s pre h : string)
  (Hpre : In pre [EmptyString; "0x"; "0X"]) (Hh : hex5 h = true) :
  (hex5 (cleaned s) = true ->
   exists p v,
     Api.Prefix.__init__ s = Return p
     /\ Api.Prefix.__str__ p = cleaned s
     /\ Api.Prefix.__int__ p = Return v
     /\ 0 <= v <= 1048575)
  /\ (forall p,
        Api.Prefix.__init__ s = Return p ->
        String.length (cleaned s) = 5%nat
        /\ Api.Prefix.__str__ p = cleaned s)
  /\ (forall e,
        Api.Prefix.__init__ s = Raise e ->
        hex5 (cleaned s) = false
        /\ exists text, e = ValueError (message text))
  /\ (exists p,
        Api.Prefix.__init__ (pre ++ h) = Return p
        /\ Api.Prefix.__str__ p = removeprefix (Py.casefold (pre ++ h)) "0x"
        /\ Api.Prefix.__str__ p = Py.casefold h)
  /\ (hex5 (cleaned "+1234") = false
      /\ Api.Prefix.__init__ "+1234"
         = Return {| Api.Prefix._prefix := "+1234" |})
  /\ (hex5 (cleaned "1_234") = false
      /\ Api.Prefix.__init__ "1_234"
         = Return {| Api.Prefix._prefix := "1_234" |})
  /\ (hex5 (cleaned "0x0x123") = false
      /\ Api.Prefix.__init__ "0x0x123"
         = Return {| Api.Prefix._prefix := "0x123" |})
  /\ (hex5 (cleaned "-0001") = false
      /\ Api.Prefix.__init__ "-0001"
         = Return {| Api.Prefix._prefix := "-0001" |}
      /\ Api.Prefix.__int__ {| Api.Prefix._prefix := "-0001" |}
         = Return (-1)).
Proof.
  split; [|split; [|split; [|split]]].
  - intro H. destruct (init_cleaned_hex5 s H) as (C & I).
    exists {| Api.Prefix._prefix := cleaned s |}, (address_value (cleaned s)).
    split; [exact I|]. split; [reflexivity|].
    unfold Api.Prefix.__int__. cbn [Api.Prefix._prefix].
    split; [exact (int_canonical _ C)|].
    pose proof (canonical_value_bound _ C) as B.
    change (2 ^ 20) with 1048576 in B. lia.
  - intros p. rewrite init_by_cases. unfold well_formed.
    destruct (Nat.eqb_spec (String.length (cleaned s)) 5) as [L | N].
    + destruct (parses_as_hexadecimal (cleaned s)); cbn [andb negb];
        [|discriminate].
      intro H. injection H as <-. split; [exact L | reflexivity].
    + cbn [andb negb]. discriminate.
  - intros e H. split.
    + destruct (hex5 (cleaned s)) eqn:V; [|reflexivity].
      destruct (init_cleaned_hex5 s V) as (_ & I). congruence.
    + revert H. rewrite init_by_cases.
      destruct (well_formed s); [discriminate|].
      destruct (negb _); intro H; injection H as <-; eexists; reflexivity.
  - destruct (init_hex5 pre h Hpre Hh) as (_ & R & I).
    exists {| Api.Prefix._prefix := Py.casefold h |}.
    rewrite I, R. repeat split.
  - repeat split; reflexivity.
Qed.

Lemma prefix_construction_takes_more_than_hexadecimal_witness :
  In "0X" [EmptyString; "0x"; "0X"] /\ hex5 "DECAF" = true
  /\ hex5 (cleaned "0XDECAF") = true
  /\ (exists p v,
        Api.Prefix.__init__ "0XDECAF" = Return p
        /\ Api.Prefix.__str__ p = cleaned "0XDECAF"
        /\ Api.Prefix.__int__ p = Return v
        /\ 0 <= v <= 1048575)
  /\ exists p,
       Api.Prefix.__init__ ("0X" ++ "DECAF") = Return p
       /\ Api.Prefix.__str__ p
          = removeprefix (Py.casefold ("0X" ++ "DECAF")) "0x"
       /\ Api.Prefix.__str__ p = Py.casefold "DECAF".
Proof.
  assert (In "0X" [EmptyString; "0x"; "0X"]) as Hpre by (simpl; auto).
  assert (hex5 "DECAF" = true) as Hh by reflexivity.
  assert (hex5 (cleaned "0XDECAF") = true) as Hs by reflexivity.
  split; [exact Hpre|]. split; [exact Hh|]. split; [exact Hs|].
  destruct (prefix_construction_takes_more_than_hexadecimal
              "0XDECAF" "0X" "DECAF" Hpre Hh) as (T1 & _ & _ & T4 & _).
  split; [exact (T1 Hs) | exact T4].
Defined.

(** C8.  [from_integer] succeeds exactly on [0 .. 0xFFFFF], and converting
    the address back gives the integer; below and above the range it raises
    a [ValueError], so for [-1] and for [0x100000]. *)
Theorem from_integer_round_trip (v : Z) :
  match Api.Prefix.from_integer v with
  | Return p =>
      0 <= v <= 1048575
      /\ Api.Prefix.__int__ p = Return v
      /\ canonical (Api.Prefix.__str__ p) = true
  | Raise e =>
      (v < 0 \/ 1048575 < v) /\ exists text, e = ValueError (message text)
  end
  /\ Api.Prefix.from_integer (-1)
     = Raise (ValueError (message "value must be a positive integer"))
  /\ Api.Prefix.from_integer 1048576
     = Raise (ValueError (message "value cannot be greater than MAX_VALUE")).
Proof.
  split; [|split; reflexivity].
  unfold Api.Prefix.from_integer.
  destruct (Z.ltb_spec v 0) as [Hneg | Hpos].
  - split; [lia | eexists; reflexivity].
  - change Api.Prefix.MAX_VALUE with 1048575.
    destruct (Z.ltb_spec 1048575 v) as [Hbig | Hsmall].
    + split; [lia | eexists; reflexivity].
    + destruct (encode_canonical v) as [C V]; [change (2 ^ 20) with 1048576; lia|].
      fold (encode v). rewrite (init_canonical _ C).
      unfold Api.Prefix.__int__, Api.Prefix.__str__. cbn [Api.Prefix._prefix].
      rewrite (int_canonical _ C), V. repeat split; try lia. exact C.
Qed.

(** C2.  On a store of canonical addresses, [find_missing] returns [00000]
    when there is no row, and otherwise the canonical address whose number
    is the largest persisted number plus one, or [None] when that is
    [2 ^ 20].  Two stores with one largest number get one answer, whatever
    the order and the number of their rows; after the inserts [000af],
    [000b1], [000b0], [000ae] the answer is [000b2]. *)
Theorem find_missing_is_maximum_plus_one (s s' : Db.Session)
  (Hcanonical : Forall (fun p => canonical p = true) (persisted s))
  (Hcanonical' : Forall (fun p => canonical p = true) (persisted s')) :
  match persisted s with
  | [] => Db.PrefixManager.find_missing s = Return (Some "00000")
  | _ :: _ =>
      let value := numeric_maximum (persisted s) + 1 in
      if value =? 2 ^ 20 then Db.PrefixManager.find_missing s = Return None
      else
        exists p,
          Db.PrefixManager.find_missing s = Return (Some p)
          /\ canonical p = true
          /\ address_value p = value
  end
  /\ (persisted s <> [] -> persisted s' <> [] ->
      numeric_maximum (persisted s) = numeric_maximum (persisted s') ->
      Db.PrefixManager.find_missing s = Db.PrefixManager.find_missing s')
  /\ Db.PrefixManager.find_missing out_of_order = Return (Some "000b2").
Proof.
  assert (forall t, Forall (fun p => canonical p = true) (persisted t) ->
            persisted t <> [] ->
            Db.PrefixManager.find_missing t
            = let value := numeric_maximum (persisted t) + 1 in
              if value =? 2 ^ 20 then Return None
              else Return (Some (encode value))) as Step.
  { intros t Ht Hne. pose proof (largest_prefix_canonical t Ht) as L.
    destruct (persisted t) as [|x l]; [congruence|].
    destruct L as (p & Lp & Cp & Vp).
    unfold Db.PrefixManager.find_missing.
    rewrite Lp, (int_canonical p Cp), Vp. reflexivity. }
  split; [|split; [|reflexivity]].
  - pose proof (largest_prefix_canonical s Hcanonical) as L.
    destruct (persisted s) as [|x l].
    + unfold Db.PrefixManager.find_missing. now rewrite L.
    + destruct L as (p & Lp & Cp & Vp).
      pose proof (canonical_value_bound p Cp) as B. rewrite Vp in B.
      unfold Db.PrefixManager.find_missing.
      rewrite Lp, (int_canonical p Cp), Vp. cbv zeta.
      change Db.PrefixManager.TOTAL_ROWS with (2 ^ 20).
      destruct (Z.eqb_spec (numeric_maximum (x :: l) + 1) (2 ^ 20));
        [reflexivity|].
      destruct (encode_canonical (numeric_maximum (x :: l) + 1))
        as [C V]; [lia|].
      exists (encode (numeric_maximum (x :: l) + 1)). auto.
  - intros Hne Hne' Hmax. rewrite !Step by assumption. now rewrite Hmax.
Qed.

Lemma find_missing_is_maximum_plus_one_witness :
  Forall (fun p => canonical p = true) (persisted out_of_order)
  /\ Forall (fun p => canonical p = true) (persisted (only "000b1"))
  /\ Db.PrefixManager.find_missing out_of_order
     = Db.PrefixManager.find_missing (only "000b1")
  /\ Db.PrefixManager.find_missing out_of_order = Return (Some "000b2").
Proof.
  assert (Forall (fun p => canonical p = true) (persisted out_of_order))
    as H by (repeat constructor).
  assert (Forall (fun p => canonical p = true) (persisted (only "000b1")))
    as H' by (repeat constructor).
  destruct (find_missing_is_maximum_plus_one out_of_order (only "000b1") H H')
    as (_ & Same & Example).
  split; [exact H|]. split; [exact H'|]. split; [|exact Example].
  apply Same; [discriminate | discriminate | reflexivity].
Defined.

(** C9.  On a store of canonical addresses [percentage_complete] is [0]
    when there is no row and otherwise the largest persisted number plus
    one, over [2 ^ 20], times [100]: [(1 / 2 ^ 20) * 100] when only [00000]
    is there, and [100] when [fffff] is. *)
Theorem percentage_complete_of_largest (s : Db.Session)
  (Hcanonical : Forall (fun p => canonical p = true) (persisted s)) :
  (exists q,
     Db.PrefixManager.percentage_complete s = Return q
     /\ match persisted s with
        | [] => q == 0
        | _ :: _ =>
            q == (inject_Z (numeric_maximum (persisted s) + 1)
                  / inject_Z (2 ^ 20)) * (100 # 1)
        end)%Q
  /\ (exists q,
        Db.PrefixManager.percentage_complete (only "00000") = Return q
        /\ q == (1 / inject_Z (2 ^ 20)) * (100 # 1))%Q
  /\ (exists q,
        Db.PrefixManager.percentage_complete (only "fffff") = Return q
        /\ q == 100 # 1)%Q.
Proof.
  split; [|split; eexists; (split; [reflexivity|]); reflexivity].
  pose proof (largest_prefix_canonical s Hcanonical) as L.
  unfold Db.PrefixManager.percentage_complete.
  destruct (persisted s) as [|x l].
  - rewrite L. eexists. split; [reflexivity|]. reflexivity.
  - destruct L as (p & Lp & Cp & Vp).
    rewrite Lp, (int_canonical p Cp), Vp.
    eexists. split; [reflexivity|]. reflexivity.
Qed.

Lemma percentage_complete_of_largest_witness :
  Forall (fun p => canonical p = true) (persisted out_of_order)
  /\ (exists q,
        Db.PrefixManager.percentage_complete out_of_order = Return q
        /\ q == (inject_Z (177 + 1) / inject_Z (2 ^ 20)) * (100 # 1))%Q.
Proof.
  assert (Forall (fun p => canonical p = true) (persisted out_of_order))
    as H by (repeat constructor).
  split; [exact H|].
  destruct (percentage_complete_of_largest out_of_order H)
    as ((q & E & V) & _).
  exists q. split; [exact E | exact V].
Defined.

Lemma existsb_eqb_absent (p : string) (l : list string) :
  ~ In p l -> existsb (String.eqb p) l = false.
Proof.
  induction l as [|x l IH]; intro H; [reflexivity|].
  cbn [existsb]. rewrite IH by (intro; apply H; now right).
  destruct (String.eqb_spec p x) as [-> | _]; [|reflexivity].
  exfalso. apply H. now left.
Qed.

Lemma insert_new (now : Q) (instance : Db.Prefix.t) (db : Db.Session) :
  ~ In (Db.Prefix.prefix instance) (persisted db) ->
  Db.counts_fit instance = true ->
  exists db',
    Db.insert now instance db = Return db'
    /\ persisted db' = (persisted db ++ [Db.Prefix.prefix instance])%list
    /\ Db.passwords_table db'
       = fold_left
           (Db.insert_password
              (Db.next_id (map Db.prefixes.id (Db.prefixes_table db))))
           (Db.Prefix.passwords instance) (Db.passwords_table db).
Proof.
  intros H Hfit. unfold Db.insert. fold (persisted db).
  rewrite (existsb_eqb_absent _ _ H), Hfit. cbn [negb].
  eexists. split; [reflexivity|].
  unfold persisted. cbn [Db.prefixes_table Db.passwords_table].
  rewrite map_app. split; reflexivity.
Qed.

Lemma insert_overflow (now : Q) (instance : Db.Prefix.t) (db : Db.Session) :
  ~ In (Db.Prefix.prefix instance) (persisted db) ->
  Db.counts_fit instance = false ->
  Db.insert now instance db
  = Raise (OverflowError "Python int too large to convert to SQLite INTEGER").
Proof.
  intros H Hfit. unfold Db.insert. fold (persisted db).
  now rewrite (existsb_eqb_absent _ _ H), Hfit.
Qed.

(** C10.  The validator of the store looks at the length and folds the
    case, nothing more: a text of five characters, hexadecimal or not, is
    taken and kept case-folded; a text of another length raises
    [ValueError].  When the address is new, [add] commits the row if every
    count of the instance fits a signed 64-bit column, and otherwise raises
    [OverflowError] and leaves the store as it was.  So [zyxwv], which is
    no hexadecimal text, is persisted. *)
Theorem store_validator_checks_length_only (s : string)
  (passwords : list Db.Password.t) (now : Q) (db : Db.Session)
  (Hnew : ~ In (Py.casefold s) (persisted db)) :
  (if (String.length s =? 5)%nat then
     Db.Prefix.validate_prefix s = Return (Py.casefold s)
     /\ exists instance,
          Db.Prefix.__init__ s passwords = Return instance
          /\ Db.Prefix.prefix instance = Py.casefold s
          /\ Db.Prefix.passwords instance = passwords
          /\ if forallb (fun p => Db.fits_integer (Db.Password.count p))
                  passwords
             then
               exists db',
                 Db.Manager.add now instance db = (Return tt, db')
                 /\ persisted db' = (persisted db ++ [Py.casefold s])%list
             else
               exists text,
                 Db.Manager.add now instance db
                 = (Raise (OverflowError text), db)
   else
     Db.Prefix.validate_prefix s = Raise (ValueError (not_5_characters s))
     /\ Db.Prefix.__init__ s passwords
        = Raise (ValueError (not_5_characters s)))
  /\ all_chars is_hex "zyxwv" = false
  /\ parses_as_hexadecimal "zyxwv" = false
  /\ persisted (only "zyxwv") = ["zyxwv"].
Proof.
  split; [|repeat split].
  unfold Db.Prefix.__init__, Db.Prefix.validate_prefix, Py.len.
  destruct (Nat.eqb_spec (String.length s) 5) as [E | N].
  - rewrite E. cbn [Z.of_nat Pos.of_succ_nat Pos.succ Z.eqb Pos.eqb negb].
    split; [reflexivity|].
    set (instance := {| Db.Prefix.prefix := Py.casefold s;
                        Db.Prefix.updated := None;
                        Db.Prefix.passwords := passwords |}).
    exists instance. do 3 (split; [reflexivity|]).
    destruct (forallb _ passwords) eqn:Hfit.
    + destruct (insert_new now instance db Hnew Hfit) as (db' & I & P & _).
      exists db'. unfold Db.Manager.add. rewrite I. split; [reflexivity|exact P].
    + eexists. unfold Db.Manager.add.
      rewrite (insert_overflow now instance db Hnew Hfit). reflexivity.
  - replace (Z.of_nat (String.length s) =? 5) with false
      by (symmetry; apply Z.eqb_neq; lia).
    split; reflexivity.
Qed.

Lemma store_validator_checks_length_only_witness :
  ~ In (Py.casefold "ZYXWV") (persisted Db.empty)
  /\ Db.Prefix.validate_prefix "ZYXWV" = Return "zyxwv"
  /\ exists instance,
       Db.Prefix.__init__ "ZYXWV" [] = Return instance
       /\ Db.Prefix.prefix instance = "zyxwv"
       /\ Db.Prefix.passwords instance = []
       /\ exists db',
            Db.Manager.add (0 # 1) instance Db.empty = (Return tt, db')
            /\ persisted db' = ["zyxwv"].
Proof.
  assert (~ In (Py.casefold "ZYXWV") (persisted Db.empty)) as H
    by (intros []).
  split; [exact H|].
  exact (proj1 (store_validator_checks_length_only "ZYXWV" [] (0 # 1)
                  Db.empty H)).
Defined.

(** * One cycle of the coordinator *)

Lemma casefold_app (a b : string) :
  Py.casefold (a ++ b) = (Py.casefold a ++ Py.casefold b)%string.
Proof. induction a as [|c a IH]; simpl; [reflexivity | now rewrite IH]. Qed.

Lemma casefold_hex_digits (fuel : nat) :
  forall (n : Z) (acc : string),
    Py.casefold acc = acc ->
    Py.casefold (Py.hex_digits fuel n acc) = Py.hex_digits fuel n acc.
Proof.
  induction fuel as [|fuel IH]; intros n acc H; [exact H|].
  cbn [Py.hex_digits].
  assert (0 <= n mod 16 < 16) as Hmod by (apply Z.mod_pos_bound; lia).
  destruct (hex_digit_is_lower_hex _ Hmod) as [Hlow _].
  destruct (lower_hex_is_plain _ Hlow) as [Hc _].
  assert (Py.casefold (String (Py.hex_digit (n mod 16)) acc)
          = String (Py.hex_digit (n mod 16)) acc) as H'
    by (cbn [Py.casefold]; now rewrite Hc, H).
  destruct (n <? 16); [exact H' | now apply IH].
Qed.

Lemma casefold_repeat_zero (k : nat) :
  Py.casefold (Py.repeat_char "0" k) = Py.repeat_char "0" k.
Proof. induction k as [|k IH]; simpl; [reflexivity | now rewrite IH]. Qed.

(** The address that [find_missing] makes is in lower case already. *)
Lemma casefold_encode (v : Z) : Py.casefold (encode v) = encode v.
Proof.
  unfold encode, Py.rjust, Py.format_x.
  rewrite casefold_app, casefold_repeat_zero. f_equal.
  destruct (v <? 0); [cbn [Py.casefold]; f_equal|];
    now apply casefold_hex_digits.
Qed.

Lemma find_missing_encodes (s : Db.Session) (address : string) :
  Db.PrefixManager.find_missing s = Return (Some address) ->
  Py.casefold address = address.
Proof.
  unfold Db.PrefixManager.find_missing.
  destruct (Db.PrefixManager.largest_prefix s) as [largest|].
  - destruct (Py.int largest 16) as [n|e]; [|discriminate].
    destruct (_ =? _); [discriminate|].
    intro H. injection H as <-. apply casefold_encode.
  - intro H. injection H as <-. reflexivity.
Qed.

Lemma insert_passwords_appends (id : Z) (ps : list Db.Password.t) :
  forall table,
  exists rows,
    fold_left (Db.insert_password id) ps table = (table ++ rows)%list
    /\ map password_fields rows
       = map (fun p => (Db.Password.sha1 p, Db.Password.count p)) ps
    /\ Forall (fun r => Db.passwords.prefix_id r = id) rows.
Proof.
  induction ps as [|p ps IH]; intro table.
  - exists []. cbn. rewrite app_nil_r. auto.
  - cbn [fold_left]. destruct (IH (Db.insert_password id table p))
      as (rows & E & F & P).
    eexists (_ :: rows). rewrite E. unfold Db.insert_password at 1.
    rewrite <- app_assoc. split; [reflexivity|]. split.
    + cbn [map]. now rewrite F.
    + constructor; [reflexivity | exact P].
Qed.

Lemma map_password_init (hashes : Api.HashCounts) :
  map (fun p => (Db.Password.sha1 p, Db.Password.count p))
    (map (fun '(sha1, count) => Db.Password.__init__ sha1 count) hashes)
  = hashes.
Proof.
  induction hashes as [|[h c] l IH]; [reflexivity|].
  cbn [map]. now rewrite IH.
Qed.

(** C6.  A cycle either raises and leaves the database as it was, or
    returns after the address and all the records that were parsed for it
    have been committed in one transaction.  It returns only if the fetch
    and the parse returned, so when either fails nothing is written. *)
Theorem create_new_all_or_nothing (now : Q) (self : Updatinator.t) :
  let '(outcome, self') := Updatinator.create_new now self in
  match outcome with
  | Raise e => Updatinator.prefixes self' = Updatinator.prefixes self
  | Return (address, n) =>
      exists hashes rows,
        Db.PrefixManager.find_missing (Updatinator.prefixes self)
        = Return (Some address)
        /\ Api.PwnedPasswordsAPIv3.fetch_range (inr address)
             (Updatinator.api self)
           = (Return hashes, Updatinator.api self')
        /\ n = Z.of_nat (List.length hashes)
        /\ persisted (Updatinator.prefixes self')
           = (persisted (Updatinator.prefixes self) ++ [address])%list
        /\ Db.passwords_table (Updatinator.prefixes self')
           = (Db.passwords_table (Updatinator.prefixes self) ++ rows)%list
        /\ map password_fields rows = hashes
        /\ Forall
             (fun r =>
                Db.passwords.prefix_id r
                = Db.next_id
                    (map Db.prefixes.id
                       (Db.prefixes_table (Updatinator.prefixes self))))
             rows
  end.
Proof.
  unfold Updatinator.create_new, bind, get, lift, raise, ret,
    Updatinator.with_api, Updatinator.with_prefixes.
  destruct (Db.PrefixManager.find_missing (Updatinator.prefixes self))
    as [[address|]|e] eqn:F; try reflexivity.
  destruct (Api.PwnedPasswordsAPIv3.fetch_range (inr address)
              (Updatinator.api self)) as [[hashes|e] a] eqn:R;
    [|reflexivity].
  unfold Db.Prefix.__init__, Db.Prefix.validate_prefix.
  destruct (negb (Py.len address =? 5)); [reflexivity|].
  rewrite (find_missing_encodes _ _ F).
  unfold Db.Manager.add, Db.insert.
  cbn [Db.Prefix.prefix Db.Prefix.updated Db.Prefix.passwords].
  destruct (existsb _ _); [reflexivity|].
  destruct (negb (Db.counts_fit _)); [reflexivity|].
  cbn [Updatinator.prefixes Updatinator.api].
  destruct (insert_passwords_appends
              (Db.next_id
                 (map Db.prefixes.id
                    (Db.prefixes_table (Updatinator.prefixes self))))
              (map (fun '(sha1, count) => Db.Password.__init__ sha1 count)
                 hashes)
              (Db.passwords_table (Updatinator.prefixes self)))
    as (rows & E & M & P).
  exists hashes, rows. rewrite length_map.
  unfold persisted. cbn [Db.prefixes_table Db.passwords_table].
  rewrite map_app, E, M, map_password_init.
  repeat split; try reflexivity; assumption.
Qed.

(** What the calls do, spelled out of the monad. *)

Lemma get_unfold (url : string) (self : Api.PwnedPasswordsAPIv3.t) :
  Api.PwnedPasswordsAPIv3._get url self
  = match
      Api.Requests.transport (Api.PwnedPasswordsAPIv3.session self)
        (List.length
           (Api.Requests.sent (Api.PwnedPasswordsAPIv3.session self)))
        (request_for url)
    with
    | Raise e => (Raise e, after_get self url None)
    | Return response =>
        match Api.Requests.raise_for_status response with
        | Raise e => (Raise e, after_get self url None)
        | Return _ =>
            (Return (Api.Requests.text response),
             after_get self url (Some response))
        end
    end.
Proof.
  unfold Api.PwnedPasswordsAPIv3._get, Api.PwnedPasswordsAPIv3.with_session,
    Api.Requests.get, bind, modify, lift, ret, after_get, request_for.
  cbn [Api.PwnedPasswordsAPIv3.session Api.PwnedPasswordsAPIv3.timeout
       Api.PwnedPasswordsAPIv3.bytes_received
       Api.PwnedPasswordsAPIv3.num_requests
       Api.PwnedPasswordsAPIv3.num_request_errors
       Api.Requests.transport Api.Requests.sent].
  destruct (Api.Requests.transport _ _ _) as [response|e]; [|reflexivity].
  destruct (Api.Requests.raise_for_status response) as [[]|e]; reflexivity.
Qed.

Lemma fetch_range_unfold (prefix : Api.Prefix.t + string)
  (self : Api.PwnedPasswordsAPIv3.t) :
  Api.PwnedPasswordsAPIv3.fetch_range prefix self
  = match
      match prefix with
      | inl p => Return p
      | inr s => Api.Prefix.__init__ s
      end
    with
    | Raise e => (Raise e, self)
    | Return p =>
        match
          Api.PwnedPasswordsAPIv3._get
            (Api.PwnedPasswordsAPIv3.URL_RANGE ++ "/" ++ Api.Prefix.__str__ p)
            self
        with
        | (Raise e, self') => (Raise e, self')
        | (Return string, self') =>
            (Api.PwnedPasswordsAPIv3._extract p string, self')
        end
    end.
Proof.
  unfold Api.PwnedPasswordsAPIv3.fetch_range, bind, lift, ret.
  destruct (match prefix with inl p => _ | inr s => _ end) as [p|e];
    [|reflexivity].
  destruct (Api.PwnedPasswordsAPIv3._get _ self) as [[string|e] self'];
    [|reflexivity].
  destruct (Api.PwnedPasswordsAPIv3._extract p string); reflexivity.
Qed.

Lemma create_new_unfold (now : Q) (self : Updatinator.t) :
  Updatinator.create_new now self
  = match Db.PrefixManager.find_missing (Updatinator.prefixes self) with
    | Raise e => (Raise e, self)
    | Return None => (Raise (RuntimeError "No missing prefixes found"), self)
    | Return (Some missing) =>
        match
          Api.PwnedPasswordsAPIv3.fetch_range (inr missing)
            (Updatinator.api self)
        with
        | (Raise e, api) =>
            (Raise e,
             {| Updatinator.prefixes := Updatinator.prefixes self;
                Updatinator.api := api |})
        | (Return hashes, api) =>
            let passwords :=
              map (fun '(sha1, count) => Db.Password.__init__ sha1 count)
                hashes in
            match
              match Db.Prefix.__init__ missing passwords with
              | Raise e => Raise e
              | Return instance =>
                  Db.insert now instance (Updatinator.prefixes self)
              end
            with
            | Raise e =>
                (Raise e,
                 {| Updatinator.prefixes := Updatinator.prefixes self;
                    Updatinator.api := api |})
            | Return db =>
                (Return (missing, Z.of_nat (List.length passwords)),
                 {| Updatinator.prefixes := db; Updatinator.api := api |})
            end
        end
    end.
Proof.
  unfold Updatinator.create_new, bind, get, lift, raise, ret,
    Updatinator.with_api, Updatinator.with_prefixes, Db.Manager.add.
  destruct (Db.PrefixManager.find_missing _) as [[missing|]|e];
    try reflexivity.
  destruct (Api.PwnedPasswordsAPIv3.fetch_range _ _) as [[hashes|e] api];
    [|reflexivity].
  cbv zeta. destruct (Db.Prefix.__init__ _ _) as [instance|e];
    [|reflexivity].
  cbn [Updatinator.prefixes Updatinator.api].
  destruct (Db.insert _ _ _); reflexivity.
Qed.

(** The stores that the coordinator builds hold canonical addresses only:
    what [find_missing] proposes on such a store is canonical, and a cycle
    adds that address or nothing. *)
Lemma find_missing_canonical (s : Db.Session) (address : string) :
  Forall (fun p => canonical p = true) (persisted s) ->
  Db.PrefixManager.find_missing s = Return (Some address) ->
  canonical address = true.
Proof.
  intros H. pose proof (largest_prefix_canonical s H) as L.
  unfold Db.PrefixManager.find_missing.
  destruct (persisted s) as [|x l].
  - rewrite L. intro E. injection E as <-. reflexivity.
  - destruct L as (p & Lp & Cp & Vp).
    pose proof (canonical_value_bound p Cp) as B.
    rewrite Lp, (int_canonical p Cp).
    change Db.PrefixManager.TOTAL_ROWS with (2 ^ 20).
    destruct (Z.eqb_spec (address_value p + 1) (2 ^ 20)); [discriminate|].
    intro E. injection E as <-. fold (encode (address_value p + 1)).
    apply encode_canonical. lia.
Qed.

Lemma create_new_keeps_canonical (now : Q) (self : Updatinator.t) :
  Forall (fun p => canonical p = true)
    (persisted (Updatinator.prefixes self)) ->
  Forall (fun p => canonical p = true)
    (persisted (Updatinator.prefixes (snd (Updatinator.create_new now self)))).
Proof.
  intro H. rewrite create_new_unfold.
  destruct (Db.PrefixManager.find_missing (Updatinator.prefixes self))
    as [[address|]|e] eqn:F; try exact H.
  pose proof (find_missing_canonical _ _ H F) as C.
  destruct (Api.PwnedPasswordsAPIv3.fetch_range _ _) as [[hashes|e] api];
    [|exact H].
  cbv zeta. unfold Db.Prefix.__init__, Db.Prefix.validate_prefix.
  destruct (negb (Py.len address =? 5)); [exact H|].
  unfold Db.insert. cbn [Db.Prefix.prefix].
  destruct (existsb _ _); [exact H|].
  destruct (negb (Db.counts_fit _)); [exact H|].
  cbn [snd Updatinator.prefixes]. unfold persisted in *.
  cbn [Db.prefixes_table]. rewrite map_app. apply Forall_app. split; [exact H|].
  unfold Db.new_row. cbn [map Db.prefixes.prefix Db.Prefix.prefix].
  constructor; [|constructor].
  unfold canonical in C. apply andb_prop in C as [L A].
  rewrite (casefold_lower_hex _ A). unfold canonical. now rewrite L, A.
Qed.

(** C1.  On an empty store, with a transport that answers the request for
    [00000] with the four-line body, one [create_new] returns
    [("00000", 4)] and leaves one row in [prefixes] and four in
    [passwords], each hash of 40 lower-case characters that begin with
    [00000]. *)
Theorem create_new_end_to_end (http : Api.Requests.Session) (now : Q)
  (response : Api.Requests.Response)
  (Hreply : forall n timeout,
      Api.Requests.transport http n
        {| Api.Requests.url := "https://api.pwnedpasswords.com/range/00000";
           Api.Requests.timeout := timeout |}
      = Return response)
  (Hstatus : Api.Requests.status_code response = 200)
  (Hbody : Api.Requests.text response = RESPONSE) :
  let '(outcome, self') :=
    Updatinator.create_new now (Updatinator.__init__ Db.empty http) in
  outcome = Return ("00000", 4)
  /\ Db.PrefixManager.count_rows (Updatinator.prefixes self') = 1
  /\ Db.PasswordManager.count_rows (Updatinator.prefixes self') = 4
  /\ Db.prefixes_table (Updatinator.prefixes self')
     = [ {| Db.prefixes.id := 1;
            Db.prefixes.prefix := "00000";
            Db.prefixes.updated := now |} ]
  /\ map password_fields (Db.passwords_table (Updatinator.prefixes self'))
     = [ ("00000003cd215739d7c1b2218670d26f81408237", 1);
         ("00000003d68eb55068c33ace09247ee4c639306b", 4);
         ("00000012c192b2f16f82ea0eb9ef18d9d539b0dd", 3);
         ("0000001330c689e5d64f660d6947a93ad634ef8f", 0) ]
  /\ Forall
       (fun r =>
          String.length (Db.passwords.sha1 r) = 40%nat
          /\ Py.casefold (Db.passwords.sha1 r) = Db.passwords.sha1 r
          /\ Py.startswith (Db.passwords.sha1 r) "00000" = true
          /\ Db.passwords.prefix_id r = 1)
       (Db.passwords_table (Updatinator.prefixes self')).
Proof.
  set (self := Updatinator.__init__ Db.empty http).
  assert (Api.PwnedPasswordsAPIv3.fetch_range (inr "00000")
            (Updatinator.api self)
          = (Return
               [ ("00000003cd215739d7c1b2218670d26f81408237", 1);
                 ("00000003d68eb55068c33ace09247ee4c639306b", 4);
                 ("00000012c192b2f16f82ea0eb9ef18d9d539b0dd", 3);
                 ("0000001330c689e5d64f660d6947a93ad634ef8f", 0) ],
             after_get (Updatinator.api self)
               "https://api.pwnedpasswords.com/range/00000" (Some response)))
    as Fetch.
  { rewrite fetch_range_unfold.
    change (Api.Prefix.__init__ "00000")
      with (Return {| Api.Prefix._prefix := "00000" |}).
    cbv beta iota.
    change (Api.PwnedPasswordsAPIv3.URL_RANGE ++ "/"
            ++ Api.Prefix.__str__ {| Api.Prefix._prefix := "00000" |})%string
      with "https://api.pwnedpasswords.com/range/00000".
    rewrite get_unfold. unfold request_for. rewrite Hreply.
    unfold Api.Requests.raise_for_status. rewrite Hstatus, Hbody.
    reflexivity. }
  rewrite create_new_unfold.
  change (Db.PrefixManager.find_missing (Updatinator.prefixes self))
    with (Return (Some "00000")).
  cbv beta iota. rewrite Fetch.
  cbn. repeat split; try reflexivity. repeat constructor.
Qed.

Lemma create_new_end_to_end_witness :
  (forall (n : nat) (timeout : option Q),
      Api.Requests.transport mocked n
        {| Api.Requests.url := "https://api.pwnedpasswords.com/range/00000";
           Api.Requests.timeout := timeout |}
      = Return fake_response)
  /\ Api.Requests.status_code fake_response = 200
  /\ Api.Requests.text fake_response = RESPONSE
  /\ fst (Updatinator.create_new (0 # 1) (Updatinator.__init__ Db.empty mocked))
     = Return ("00000", 4).
Proof.
  assert (forall (n : nat) (timeout : option Q),
      Api.Requests.transport mocked n
        {| Api.Requests.url := "https://api.pwnedpasswords.com/range/00000";
           Api.Requests.timeout := timeout |}
      = Return fake_response) as H by reflexivity.
  split; [exact H|]. split; [reflexivity|]. split; [reflexivity|].
  pose proof (create_new_end_to_end mocked (0 # 1) fake_response H
                eq_refl eq_refl) as T.
  destruct (Updatinator.create_new (0 # 1)
              (Updatinator.__init__ Db.empty mocked)) as [outcome self'].
  exact (proj1 T).
Defined.

(** * Parsing a body *)

Lemma split_sep_not_nil (sep : ascii) (s : string) : Py.split_sep sep s <> [].
Proof.
  destruct s as [|c r]; cbn [Py.split_sep]; [discriminate|].
  destruct (Ascii.eqb c sep); [discriminate|].
  destruct (Py.split_sep sep r); discriminate.
Qed.

Lemma split_not_empty (s : string) :
  Forall (fun line => line <> EmptyString) (Py.split s).
Proof.
  induction s as [|c r IH]; cbn [Py.split]; [constructor|].
  destruct (Py.isspace c); [exact IH|].
  destruct r as [|c' r']; [repeat constructor; discriminate|].
  destruct (Py.isspace c'); [constructor; [discriminate | exact IH]|].
  destruct (Py.split (String c' r')) as [|t ts].
  - repeat constructor; discriminate.
  - inversion IH; subst. constructor; [discriminate | assumption].
Qed.

Lemma int_raises (s : string) (base : Z) (e : exn) :
  Py.int s base = Raise e ->
  e = ValueError (invalid_literal base s)
  \/ exists digits,
       e = ValueError (exceeds_digit_limit digits) /\ (4300 < digits)%N.
Proof.
  unfold Py.int.
  destruct (Py.take_sign (Py.skip_space s)) as [sign s2].
  destruct (Py.starts_with_underscore _); [intro H; injection H; auto|].
  destruct (Py.scan _ _ _ _ _) as [[[v digits] rest]|];
    [|intro H; injection H; auto].
  destruct (_ && _ && _ && _) eqn:Limit.
  { intro H. injection H as <-. right. exists digits. split; [reflexivity|].
    apply andb_prop in Limit as [_ Limit]. now apply N.ltb_lt in Limit. }
  destruct (_ =? _)%N; [intro H; injection H; auto|].
  destruct (Py.skip_space rest); [discriminate | intro H; injection H; auto].
Qed.

Lemma extract_line_cases (prefix : Api.Prefix.t) (line : string) :
  match Api.PwnedPasswordsAPIv3._extract_line prefix line with
  | Return _ => well_formed_line line = true
  | Raise e =>
      well_formed_line line = false
      /\ exists cause, e = ValueError cause /\ describes line cause
  end.
Proof.
  unfold Api.PwnedPasswordsAPIv3._extract_line, well_formed_line,
    parses_as_integer.
  pose proof (no_colon line) as D1.
  pose proof (several_colons line) as D3.
  pose proof (count_not_a_literal line) as D2.
  pose proof (fun d => count_too_long line d) as D4.
  unfold splits_in_two, count_field in *.
  pose proof (split_sep_not_nil ":" line) as NE.
  destruct (Py.split_sep ":" line) as [|a [|b [|c r]]]; [congruence| | |].
  - split; [reflexivity|]. eexists. split; [reflexivity|]. now apply D1.
  - cbn [Py.unpack2 nth List.length Nat.eqb andb] in *.
    destruct (Py.int b 10) as [n|e] eqn:I; [reflexivity|].
    split; [reflexivity|].
    destruct (int_raises _ _ _ I) as [-> | (d & -> & Hd)];
      eexists; (split; [reflexivity|]); auto.
  - split; [reflexivity|]. eexists. split; [reflexivity|].
    apply D3. cbn [List.length]. lia.
Qed.

Lemma extract_loop_cases (prefix : Api.Prefix.t) (lines : list string) :
  forall (number : nat) (data : Api.HashCounts),
    match Api.PwnedPasswordsAPIv3._extract_loop prefix number lines data with
    | Return out =>
        forallb well_formed_line lines = true
        /\ List.length out = (List.length data + List.length lines)%nat
    | Raise e =>
        exists k line cause,
          nth_error lines k = Some line
          /\ forallb well_formed_line (firstn k lines) = true
          /\ well_formed_line line = false
          /\ describes line cause
          /\ e = RuntimeError_line (number + k) cause
    end.
Proof.
  induction lines as [|line rest IH]; intros number data.
  - cbn. split; [reflexivity | lia].
  - cbn [Api.PwnedPasswordsAPIv3._extract_loop].
    pose proof (extract_line_cases prefix line) as L.
    destruct (Api.PwnedPasswordsAPIv3._extract_line prefix line)
      as [datum|e].
    + specialize (IH (S number) (data ++ [datum])%list).
      destruct (Api.PwnedPasswordsAPIv3._extract_loop _ _ _ _) as [out|e].
      * destruct IH as [A B]. cbn [forallb List.length]. rewrite L, A.
        split; [reflexivity|]. rewrite B, List.length_app. cbn. lia.
      * destruct IH as (k & bad & cause & N & F & W & D & E).
        exists (S k), bad, cause. cbn [nth_error firstn forallb].
        rewrite L, F. repeat split; try assumption.
        rewrite E. f_equal. lia.
    + destruct L as (W & cause & -> & D).
      exists 0%nat, line, cause. repeat split; try assumption.
      now rewrite Nat.add_0_r.
Qed.

Lemma describes_one (line : string) (a b : value_error) :
  describes line a -> describes line b -> a = b.
Proof.
  assert (splits_in_two line = true
          -> List.length (Py.split_sep ":" line) = 2%nat) as Two
    by (unfold splits_in_two; apply Nat.eqb_eq).
  intros A B.
  destruct A as [A | A | A Ia | d A Ia Ha];
    destruct B as [B | B | B Ib | d' B Ib Hb];
    try apply Two in A; try apply Two in B;
    try reflexivity; try lia; congruence.
Qed.

(** C3, as the code has it.  The body is read as its words, the pieces
    between white space.  Parsing fails exactly when some word does not
    split in two on the colon or has a second part that [int] does not
    parse; a negative count parses.  The error carries the 1-based
    position, among the words, of the first such word and the one
    [ValueError] that describes it: one part where two are expected, more
    than two parts, or what [int] says of the second part, an invalid
    literal with the text of that part or more than 4300 digits.  The
    outcome is one record for each word or the error, never both. *)
Theorem extract_fails_on_first_malformed_line (prefix : Api.Prefix.t)
  (string : string) :
  is_return (Api.PwnedPasswordsAPIv3._extract prefix string)
  = forallb well_formed_line (Py.split string)
  /\ match Api.PwnedPasswordsAPIv3._extract prefix string with
     | Return data => List.length data = List.length (Py.split string)
     | Raise e =>
         exists k line cause,
           nth_error (Py.split string) k = Some line
           /\ line <> EmptyString
           /\ forallb well_formed_line (firstn k (Py.split string)) = true
           /\ well_formed_line line = false
           /\ describes line cause
           /\ (forall other, describes line other -> other = cause)
           /\ e = RuntimeError_line (S k) cause
     end.
Proof.
  unfold Api.PwnedPasswordsAPIv3._extract.
  pose proof (extract_loop_cases prefix (Py.split string) 1 []) as H.
  pose proof (split_not_empty string) as NE.
  destruct (Api.PwnedPasswordsAPIv3._extract_loop _ _ _ _) as [out|e].
  - destruct H as [A B]. rewrite A. split; [reflexivity | exact B].
  - destruct H as (k & line & cause & N & F & W & D & E).
    assert (forallb well_formed_line (Py.split string) = false) as Bad.
    { apply not_true_is_false. intro All.
      rewrite forallb_forall in All.
      rewrite (All line (nth_error_In _ _ N)) in W. discriminate. }
    rewrite Bad. split; [reflexivity|].
    exists k, line, cause. repeat split; try assumption.
    + rewrite Forall_forall in NE. exact (NE line (nth_error_In _ _ N)).
    + intros other O. exact (describes_one line other cause O D).
Qed.

(** C3, as it is stated, fails in three ways.  A line whose count is [-1]
    is no line with a non-negative count, and the body that holds it is
    parsed.  A body of one line with a space in it does not split in two
    on the colon, and is parsed, as two words; the position in an error is
    that of the word.  The error for a word without a colon shows nothing
    of the word: two such bodies raise the same error. *)
Lemma extract_takes_negative_count :
  existsb (fun line => negb (well_formed_line_as_stated line))
    (Py.split ("003CD215739D7C1B2218670D26F81408237:-1" ++ CRLF)) = true
  /\ Api.PwnedPasswordsAPIv3._extract {| Api.Prefix._prefix := "5baa6" |}
       ("003CD215739D7C1B2218670D26F81408237:-1" ++ CRLF)
     = Return [("5baa6003cd215739d7c1b2218670d26f81408237", -1)]
  /\ well_formed_line_as_stated
       "003CD215739D7C1B2218670D26F81408237:1 003D68EB55068C33ACE09247EE4C639306B:4"
     = false
  /\ Api.PwnedPasswordsAPIv3._extract {| Api.Prefix._prefix := "5baa6" |}
       "003CD215739D7C1B2218670D26F81408237:1 003D68EB55068C33ACE09247EE4C639306B:4"
     = Return [("5baa6003cd215739d7c1b2218670d26f81408237", 1);
               ("5baa6003d68eb55068c33ace09247ee4c639306b", 4)]
  /\ Api.PwnedPasswordsAPIv3._extract {| Api.Prefix._prefix := "5baa6" |}
       "003CD215739D7C1B2218670D26F81408237:1 003D68EB55068C33ACE09247EE4C639306B"
     = Raise (RuntimeError_line 2 (not_enough_values 2 1))
  /\ Api.PwnedPasswordsAPIv3._extract {| Api.Prefix._prefix := "5baa6" |}
       "003CD215739D7C1B2218670D26F81408237"
     = Raise (RuntimeError_line 1 (not_enough_values 2 1))
  /\ Api.PwnedPasswordsAPIv3._extract {| Api.Prefix._prefix := "5baa6" |}
       "not a record"
     = Raise (RuntimeError_line 1 (not_enough_values 2 1)).
Proof. repeat split; reflexivity. Qed.

(** C4.  [fetch_range] sends one request, for the range URL of the
    address, and hands no timeout to it, whatever the timeout the client
    was made with; the default client, made with 5 seconds, sends its
    request with [None]. *)
Theorem fetch_range_sends_no_timeout (self : Api.PwnedPasswordsAPIv3.t)
  (prefix : Api.Prefix.t) :
  let '(outcome, self') :=
    Api.PwnedPasswordsAPIv3.fetch_range (inl prefix) self in
  Api.Requests.sent (Api.PwnedPasswordsAPIv3.session self')
  = (Api.Requests.sent (Api.PwnedPasswordsAPIv3.session self)
     ++ [ {| Api.Requests.url :=
               "https://api.pwnedpasswords.com/range/"
               ++ Api.Prefix.__str__ prefix;
             Api.Requests.timeout := None |} ])%list
  /\ Api.PwnedPasswordsAPIv3.timeout self'
     = Api.PwnedPasswordsAPIv3.timeout self
  /\ Api.PwnedPasswordsAPIv3.timeout
       (Api.PwnedPasswordsAPIv3.__init__ mocked
          Api.PwnedPasswordsAPIv3.default_timeout) = 5 # 1
  /\ Api.Requests.sent
       (Api.PwnedPasswordsAPIv3.session
          (snd (Api.PwnedPasswordsAPIv3.fetch_range
                  (inl {| Api.Prefix._prefix := "00000" |})
                  (Api.PwnedPasswordsAPIv3.__init__ mocked
                     Api.PwnedPasswordsAPIv3.default_timeout))))
     = [ {| Api.Requests.url := "https://api.pwnedpasswords.com/range/00000";
            Api.Requests.timeout := None |} ].
Proof.
  destruct (Api.PwnedPasswordsAPIv3.fetch_range (inl prefix) self)
    as [outcome self'] eqn:E.
  rewrite fetch_range_unfold, get_unfold in E.
  assert (self' = after_get self
                    ("https://api.pwnedpasswords.com/range/"
                     ++ Api.Prefix.__str__ prefix) None
          \/ exists response,
               self' = after_get self
                         ("https://api.pwnedpasswords.com/range/"
                          ++ Api.Prefix.__str__ prefix) (Some response))
    as After.
  { change (Api.PwnedPasswordsAPIv3.URL_RANGE ++ "/"
            ++ Api.Prefix.__str__ prefix)%string
      with ("https://api.pwnedpasswords.com/range/"
            ++ Api.Prefix.__str__ prefix)%string in E.
    destruct (Api.Requests.transport _ _ _) as [response|e].
    - destruct (Api.Requests.raise_for_status response) as [[]|e];
        injection E as _ <-; eauto.
    - injection E as _ <-. auto. }
  destruct After as [-> | [response ->]]; repeat split; reflexivity.
Qed.

(** * The outer loop *)


Lemma checkpoint_cases (c : CommandLine.cycle) (p : CommandLine.point)
  (self : CommandLine.t) :
  CommandLine.checkpoint c p self
  = match CommandLine.signal c p with
    | Some text => (Raise (SystemExit text), self)
    | None => (Return tt, self)
    end.
Proof.
  unfold CommandLine.checkpoint. now destruct (CommandLine.signal c p).
Qed.






(** * The rest of the code *)

(** ** Durations *)

Example test_duration :
  Utils.duration (inject_Z (3000 * 86400)) = Return "8 years"
  /\ Utils.duration (inject_Z (730 * 86400)) = Return "23 months"
  /\ Utils.duration (inject_Z (60 * 86400)) = Return "8 weeks"
  /\ Utils.duration (inject_Z (47 * 3600)) = Return "47 hours"
  /\ Utils.duration (inject_Z 120) = Return "2 minutes"
  /\ Utils.duration (inject_Z 119) = Return "119 seconds"
  /\ Utils.duration (422 # 10) = Return "42 seconds"
  /\ Utils.duration (inject_Z 1) = Return "1 second"
  /\ Utils.duration (inject_Z 0) = Return "0 seconds"
  /\ Utils.duration (inject_Z 1000000) = Return "11 days"
  /\ Utils.duration (inject_Z (-245))
     = Raise (ValueError
                (message "Positive number expected, given: -245"))
  /\ Utils.format_comma 9659365 = "9,659,365"
  /\ Utils.format_comma 1000 = "1,000"
  /\ Utils.format_comma 999 = "999".
Proof. repeat split; reflexivity. Qed.

Lemma int_of_negative (seconds : Q) :
  Utils.int_of seconds < 0 <-> (seconds <= -1 # 1)%Q.
Proof.
  unfold Utils.int_of, Qle. destruct seconds as [a b]. cbn [Qnum Qden].
  assert (0 < Z.pos b) as Hb by lia.
  destruct (Z_lt_le_dec a 0) as [Hneg | Hpos].
  - replace a with (- - a) at 1 by lia.
    rewrite Z.quot_opp_l, Z.quot_div_nonneg by lia.
    split; intro H.
    + assert (1 <= - a / Z.pos b) as H1 by lia.
      destruct (Z_lt_le_dec (- a) (Z.pos b)) as [Hs | Hl]; [|lia].
      rewrite Z.div_small in H1 by lia. lia.
    + assert (1 <= - a / Z.pos b); [|lia].
      apply Z.div_le_lower_bound; lia.
  - rewrite Z.quot_div_nonneg by lia.
    pose proof (Z.div_pos a (Z.pos b) Hpos Hb). lia.
Qed.

(** X1.  For a number of seconds that is not negative, [duration] names the
    largest unit that fits twice or more, with the whole number of such
    units, in the plural; below two seconds it says [0 seconds] or
    [1 second]. *)
Theorem duration_names_largest_unit_that_fits_twice (seconds : Q)
  (Hpos : 0 <= Utils.int_of seconds) :
  exists key length count,
    In (key, length) Utils.DURATIONS
    /\ count = Utils.int_of seconds / length
    /\ Utils.duration seconds
       = Return (Utils.format_comma count ++ " " ++ key
                 ++ (if count =? 1 then "" else "s"))
    /\ (2 <= count \/ key = "second" /\ Utils.int_of seconds <= 1)
    /\ forall key' length',
         In (key', length') Utils.DURATIONS -> length < length' ->
         Utils.int_of seconds / length' < 2.
Proof.
  set (n := Utils.int_of seconds) in *.
  unfold Utils.duration. fold n.
  replace (n <? 0) with false by (symmetry; apply Z.ltb_ge; exact Hpos).
  change Utils.DURATIONS
    with [ ("year", 31556952); ("month", 2629746); ("week", 604800);
           ("day", 86400); ("hour", 3600); ("minute", 60); ("second", 1) ].
  cbn [Utils.first_unit].
  destruct (Z.ltb_spec 1 (n / 31556952)); [duration_unit n "year" 31556952|].
  destruct (Z.ltb_spec 1 (n / 2629746)); [duration_unit n "month" 2629746|].
  destruct (Z.ltb_spec 1 (n / 604800)); [duration_unit n "week" 604800|].
  destruct (Z.ltb_spec 1 (n / 86400)); [duration_unit n "day" 86400|].
  destruct (Z.ltb_spec 1 (n / 3600)); [duration_unit n "hour" 3600|].
  destruct (Z.ltb_spec 1 (n / 60)); [duration_unit n "minute" 60|].
  destruct (Z.ltb_spec 1 (n / 1)); [duration_unit n "second" 1|].
  rewrite Z.div_1_r in *.
  exists "second", 1, n. rewrite Z.div_1_r.
  split; [cbn [In]; tauto|]. split; [reflexivity|].
  split.
  { assert (n = 0 \/ n = 1) as [-> | ->] by lia; reflexivity. }
  split; [right; split; [reflexivity | lia]|].
  intros key' length' Hin Hlt. cbn [In] in Hin.
  repeat (destruct Hin as [Hin | Hin];
          [injection Hin as <- <-; first [lia | exfalso; lia]|]).
  destruct Hin.
Qed.

Lemma duration_names_largest_unit_that_fits_twice_witness :
  0 <= Utils.int_of (inject_Z 1000000)
  /\ exists key length count,
       In (key, length) Utils.DURATIONS
       /\ count = Utils.int_of (inject_Z 1000000) / length
       /\ Utils.duration (inject_Z 1000000)
          = Return (Utils.format_comma count ++ " " ++ key
                    ++ (if count =? 1 then "" else "s"))
       /\ (2 <= count
           \/ key = "second" /\ Utils.int_of (inject_Z 1000000) <= 1)
       /\ forall key' length',
            In (key', length') Utils.DURATIONS -> length < length' ->
            Utils.int_of (inject_Z 1000000) / length' < 2.
Proof.
  assert (0 <= Utils.int_of (inject_Z 1000000)) as H by (vm_compute; discriminate).
  split; [exact H|].
  exact (duration_names_largest_unit_that_fits_twice (inject_Z 1000000) H).
Defined.

(** X2.  [duration] raises [ValueError] exactly for a number at or below
    minus one, and the message shows its whole part; a negative fraction
    above minus one is [0 seconds]. *)
Theorem duration_raises_from_minus_one_down (seconds : Q) :
  (is_return (Utils.duration seconds) = false <-> (seconds <= -1 # 1)%Q)
  /\ ((seconds <= -1 # 1)%Q ->
      Utils.duration seconds
      = Raise (ValueError
                 (message ("Positive number expected, given: "
                           ++ Utils.repr (Utils.int_of seconds)))))
  /\ ((-1 # 1 < seconds)%Q -> (seconds < 0)%Q ->
      Utils.duration seconds = Return "0 seconds").
Proof.
  pose proof (int_of_negative seconds) as N.
  unfold Utils.duration.
  destruct (Z.ltb_spec (Utils.int_of seconds) 0) as [Hneg | Hpos].
  - split; [|split].
    + split; [intros _; now apply N | reflexivity].
    + reflexivity.
    + intros Hlo _. apply N in Hneg. exfalso.
      exact (Qlt_not_le _ _ Hlo Hneg).
  - assert (~ (seconds <= -1 # 1)%Q) as Hnot by (intro H; apply N in H; lia).
    split; [|split].
    + split; [|intro H; contradiction].
      destruct (Utils.first_unit _ _); [discriminate|].
      destruct (_ =? 1); discriminate.
    + intro H. contradiction.
    + intros _ Hhi.
      assert (Utils.int_of seconds = 0) as ->; [|reflexivity].
      unfold Utils.int_of in *. unfold Qlt in Hhi. cbn in Hhi.
      destruct seconds as [a b]. cbn [Qnum Qden] in *.
      assert (a < 0) as Ha by lia.
      replace a with (- - a) in Hpos |- * by lia.
      rewrite Z.quot_opp_l in Hpos |- * by lia.
      rewrite Z.quot_div_nonneg in Hpos |- * by lia.
      pose proof (Z.div_pos (- a) (Z.pos b) ltac:(lia) ltac:(lia)). lia.
Qed.

Lemma duration_raises_from_minus_one_down_witness :
  (-245 # 1 <= -1 # 1)%Q
  /\ (-1 # 1 < -1 # 2)%Q /\ (-1 # 2 < 0)%Q
  /\ Utils.duration (-245 # 1)
     = Raise (ValueError (message "Positive number expected, given: -245"))
  /\ Utils.duration (-1 # 2) = Return "0 seconds".
Proof.
  assert (-245 # 1 <= -1 # 1)%Q as A by (unfold Qle; cbn; lia).
  assert (-1 # 1 < -1 # 2)%Q as B by (unfold Qlt; cbn; lia).
  assert (-1 # 2 < 0)%Q as C by (unfold Qlt; cbn; lia).
  repeat (split; [assumption|]). split.
  - exact (proj1 (proj2 (duration_raises_from_minus_one_down (-245 # 1))) A).
  - exact (proj2 (proj2 (duration_raises_from_minus_one_down (-1 # 2))) B C).
Defined.

(** ** Addresses *)

Lemma lower_char_idempotent (c : ascii) :
  Py.lower_char (Py.lower_char c) = Py.lower_char c.
Proof. each_ascii c; reflexivity. Qed.

Lemma casefold_idempotent (s : string) :
  Py.casefold (Py.casefold s) = Py.casefold s.
Proof.
  induction s as [|c s IH]; simpl; [reflexivity|].
  now rewrite lower_char_idempotent, IH.
Qed.

(** X3.  Whatever text an address was made from, it is five characters
    long, and the validator of the store takes its text as it is: what the
    API layer accepts, the database layer accepts unchanged. *)
Theorem constructed_prefix_fits_the_store (s : string) (p : Api.Prefix.t)
  (passwords : list Db.Password.t)
  (Hmade : Api.Prefix.__init__ s = Return p) :
  Api.Prefix.__len__ p = 5
  /\ Py.casefold (Api.Prefix.__str__ p) = Api.Prefix.__str__ p
  /\ Db.Prefix.__init__ (Api.Prefix.__str__ p) passwords
     = Return {| Db.Prefix.prefix := Api.Prefix.__str__ p;
                 Db.Prefix.updated := None;
                 Db.Prefix.passwords := passwords |}.
Proof.
  rewrite init_by_cases in Hmade.
  destruct (well_formed s) eqn:W.
  - injection Hmade as <-. unfold well_formed in W.
    apply andb_prop in W as [L _]. apply Nat.eqb_eq in L.
    unfold Api.Prefix.__len__, Api.Prefix.__str__, Db.Prefix.__init__,
      Db.Prefix.validate_prefix, Py.len.
    cbn [Api.Prefix._prefix]. rewrite L.
    assert (Py.casefold (cleaned s) = cleaned s) as E
      by (unfold cleaned; apply casefold_idempotent).
    rewrite E. repeat split.
  - destruct (negb _); discriminate Hmade.
Qed.

Lemma constructed_prefix_fits_the_store_witness :
  Api.Prefix.__init__ "0XDECAF" = Return {| Api.Prefix._prefix := "decaf" |}
  /\ Api.Prefix.__len__ {| Api.Prefix._prefix := "decaf" |} = 5
  /\ Db.Prefix.__init__ "decaf" []
     = Return {| Db.Prefix.prefix := "decaf";
                 Db.Prefix.updated := None;
                 Db.Prefix.passwords := [] |}.
Proof.
  split; [reflexivity|].
  destruct (constructed_prefix_fits_the_store "0XDECAF"
              {| Api.Prefix._prefix := "decaf" |} [] eq_refl) as (L & _ & V).
  split; [exact L | exact V].
Defined.

(** X4.  An address in canonical form is determined by its integer:
    [from_integer] of its integer is the address again, and two such
    addresses are equal exactly when their integers are. *)
Theorem canonical_prefix_is_its_integer (p q : Api.Prefix.t)
  (Hp : canonical (Api.Prefix.__str__ p) = true)
  (Hq : canonical (Api.Prefix.__str__ q) = true) :
  (exists v,
     Api.Prefix.__int__ p = Return v
     /\ 0 <= v <= Api.Prefix.MAX_VALUE
     /\ Api.Prefix.from_integer v = Return p)
  /\ (Api.Prefix.__eq__ p q = true
      <-> Api.Prefix.__int__ p = Api.Prefix.__int__ q).
Proof.
  destruct p as [a], q as [b]. unfold Api.Prefix.__str__ in Hp, Hq.
  cbn [Api.Prefix._prefix] in Hp, Hq.
  unfold Api.Prefix.__int__, Api.Prefix.__eq__. cbn [Api.Prefix._prefix].
  rewrite (int_canonical a Hp), (int_canonical b Hq).
  pose proof (canonical_value_bound a Hp) as B.
  split.
  - exists (address_value a). split; [reflexivity|].
    change Api.Prefix.MAX_VALUE with 1048575. split; [lia|].
    unfold Api.Prefix.from_integer.
    replace (address_value a <? 0) with false
      by (symmetry; apply Z.ltb_ge; lia).
    change Api.Prefix.MAX_VALUE with 1048575.
    replace (1048575 <? address_value a) with false
      by (symmetry; apply Z.ltb_ge; lia).
    fold (encode (address_value a)).
    rewrite (encode_address_value a Hp). now apply init_canonical.
  - split.
    + intro E. apply String.eqb_eq in E. now subst b.
    + intro E. injection E as E. apply String.eqb_eq.
      unfold canonical in Hp, Hq.
      apply andb_prop in Hp as [La Ha]. apply andb_prop in Hq as [Lb Hb].
      apply Nat.eqb_eq in La, Lb.
      apply lower_hex_value_inj; congruence.
Qed.

Lemma canonical_prefix_is_its_integer_witness :
  canonical "1e240" = true /\ canonical "b00b5" = true
  /\ Api.Prefix.from_integer 123456
     = Return {| Api.Prefix._prefix := "1e240" |}
  /\ Api.Prefix.__eq__ {| Api.Prefix._prefix := "1e240" |}
       {| Api.Prefix._prefix := "b00b5" |} = false.
Proof.
  split; [reflexivity|]. split; [reflexivity|].
  destruct (canonical_prefix_is_its_integer
              {| Api.Prefix._prefix := "1e240" |}
              {| Api.Prefix._prefix := "b00b5" |} eq_refl eq_refl)
    as ((v & I & _ & F) & E).
  split.
  - vm_compute in I. injection I as <-. exact F.
  - apply not_true_is_false. intro T. apply E in T. vm_compute in T.
    discriminate T.
Defined.

(** X5.  The addresses that [from_integer] makes are ordered as texts the
    way their integers are ordered as numbers: this is what lets the store
    find the largest address by sorting the text. *)
Theorem from_integer_keeps_the_order (v w : Z)
  (Hv : 0 <= v <= Api.Prefix.MAX_VALUE)
  (Hw : 0 <= w <= Api.Prefix.MAX_VALUE) :
  exists p q,
    Api.Prefix.from_integer v = Return p
    /\ Api.Prefix.from_integer w = Return q
    /\ String.compare (Api.Prefix.__str__ p) (Api.Prefix.__str__ q)
       = (v ?= w)
    /\ String.leb (Api.Prefix.__str__ p) (Api.Prefix.__str__ q)
       = (v <=? w)
    /\ Api.Prefix.__eq__ p q = (v =? w).
Proof.
  change Api.Prefix.MAX_VALUE with 1048575 in *.
  destruct (encode_canonical v) as [Cv Vv]; [change (2 ^ 20) with 1048576; lia|].
  destruct (encode_canonical w) as [Cw Vw]; [change (2 ^ 20) with 1048576; lia|].
  exists {| Api.Prefix._prefix := encode v |},
         {| Api.Prefix._prefix := encode w |}.
  unfold Api.Prefix.from_integer.
  change Api.Prefix.MAX_VALUE with 1048575.
  replace (v <? 0) with false by (symmetry; apply Z.ltb_ge; lia).
  replace (w <? 0) with false by (symmetry; apply Z.ltb_ge; lia).
  replace (1048575 <? v) with false by (symmetry; apply Z.ltb_ge; lia).
  replace (1048575 <? w) with false by (symmetry; apply Z.ltb_ge; lia).
  fold (encode v) (encode w).
  rewrite (init_canonical _ Cv), (init_canonical _ Cw).
  unfold Api.Prefix.__str__, Api.Prefix.__eq__. cbn [Api.Prefix._prefix].
  assert (String.compare (encode v) (encode w) = (v ?= w)) as Cmp.
  { pose proof Cv as Cv'. pose proof Cw as Cw'. unfold canonical in Cv', Cw'.
    apply andb_prop in Cv' as [Lv Av]. apply andb_prop in Cw' as [Lw Aw].
    apply Nat.eqb_eq in Lv, Lw.
    rewrite compare_lower_hex by congruence. now rewrite Vv, Vw. }
  repeat split; [exact Cmp | |].
  - rewrite (leb_canonical _ _ Cv Cw), Vv, Vw. reflexivity.
  - destruct (Z.eqb_spec v w) as [-> | N].
    + apply String.eqb_refl.
    + apply String.eqb_neq. intro E. apply N. congruence.
Qed.

Lemma from_integer_keeps_the_order_witness :
  0 <= 9 <= Api.Prefix.MAX_VALUE /\ 0 <= 10 <= Api.Prefix.MAX_VALUE
  /\ exists p q,
       Api.Prefix.from_integer 9 = Return p
       /\ Api.Prefix.from_integer 10 = Return q
       /\ String.compare (Api.Prefix.__str__ p) (Api.Prefix.__str__ q)
          = (9 ?= 10)
       /\ String.leb (Api.Prefix.__str__ p) (Api.Prefix.__str__ q)
          = (9 <=? 10)
       /\ Api.Prefix.__eq__ p q = (9 =? 10).
Proof.
  assert (0 <= 9 <= Api.Prefix.MAX_VALUE) as A by (vm_compute; split; discriminate).
  assert (0 <= 10 <= Api.Prefix.MAX_VALUE) as B by (vm_compute; split; discriminate).
  split; [exact A|]. split; [exact B|].
  exact (from_integer_keeps_the_order 9 10 A B).
Defined.

(** ** The API client *)

(** X6.  [fetch_range] takes the address as a text as well: a text that
    makes an address is fetched as that address, and a text that makes
    none raises [ValueError] before anything is sent or counted. *)
Theorem fetch_range_checks_the_text_first (s : string)
  (self : Api.PwnedPasswordsAPIv3.t) :
  if well_formed s then
    Api.PwnedPasswordsAPIv3.fetch_range (inr s) self
    = Api.PwnedPasswordsAPIv3.fetch_range
        (inl {| Api.Prefix._prefix := cleaned s |}) self
  else
    exists text,
      Api.PwnedPasswordsAPIv3.fetch_range (inr s) self
      = (Raise (ValueError (message text)), self).
Proof.
  rewrite !fetch_range_unfold, init_by_cases.
  destruct (well_formed s); [reflexivity|].
  destruct (negb _); eexists; reflexivity.
Qed.

(** X7.  Every [_get] counts one request and sends one, whatever comes
    back; the bytes of the body are counted only when the response came
    with a status below 400 or from 600 up, and then the text of the
    response is returned; a status from 400 to 599 raises [HTTPError] and
    an error of the transport is passed on.  The timeout and the count of
    request errors are never changed. *)
Theorem get_counts_every_request (url : string)
  (self : Api.PwnedPasswordsAPIv3.t) :
  let '(outcome, self') := Api.PwnedPasswordsAPIv3._get url self in
  Api.PwnedPasswordsAPIv3.num_requests self'
  = Api.PwnedPasswordsAPIv3.num_requests self + 1
  /\ Api.PwnedPasswordsAPIv3.num_request_errors self'
     = Api.PwnedPasswordsAPIv3.num_request_errors self
  /\ Api.PwnedPasswordsAPIv3.timeout self'
     = Api.PwnedPasswordsAPIv3.timeout self
  /\ Api.Requests.sent (Api.PwnedPasswordsAPIv3.session self')
     = (Api.Requests.sent (Api.PwnedPasswordsAPIv3.session self)
        ++ [request_for url])%list
  /\ match
       Api.Requests.transport (Api.PwnedPasswordsAPIv3.session self)
         (List.length
            (Api.Requests.sent (Api.PwnedPasswordsAPIv3.session self)))
         (request_for url)
     with
     | Raise e =>
         outcome = Raise e
         /\ Api.PwnedPasswordsAPIv3.bytes_received self'
            = Api.PwnedPasswordsAPIv3.bytes_received self
     | Return response =>
         if (400 <=? Api.Requests.status_code response)
            && (Api.Requests.status_code response <? 600)
         then
           outcome = Raise (HTTPError (Api.Requests.status_code response))
           /\ Api.PwnedPasswordsAPIv3.bytes_received self'
              = Api.PwnedPasswordsAPIv3.bytes_received self
         else
           outcome = Return (Api.Requests.text response)
           /\ Api.PwnedPasswordsAPIv3.bytes_received self'
              = Api.PwnedPasswordsAPIv3.bytes_received self
                + Py.len (Api.Requests.content response)
     end.
Proof.
  rewrite get_unfold. unfold Api.Requests.raise_for_status.
  destruct (Api.Requests.transport _ _ _) as [response|e].
  - destruct (_ && _); repeat split.
  - repeat split.
Qed.

(** ** The parser *)

Lemma startswith_app (a b : string) : Py.startswith (a ++ b) a = true.
Proof.
  induction a as [|c a IH]; [reflexivity|].
  cbn [String.append Py.startswith]. now rewrite Ascii.eqb_refl, IH.
Qed.

Lemma extract_line_returns (prefix : Api.Prefix.t) (line : string)
  (datum : string * Z) :
  Api.PwnedPasswordsAPIv3._extract_line prefix line = Return datum ->
  parsed_from prefix line datum.
Proof.
  unfold Api.PwnedPasswordsAPIv3._extract_line, parsed_from, Py.unpack2.
  destruct (Py.split_sep ":" line) as [|suffix [|count [|x r]]];
    try discriminate.
  destruct (Py.int count 10) as [n|e] eqn:I; [|discriminate].
  intro H. injection H as <-. exists suffix, count.
  cbn [fst snd]. rewrite casefold_app. auto.
Qed.

Lemma extract_loop_returns (prefix : Api.Prefix.t) (lines : list string) :
  forall (number : nat) (data out : Api.HashCounts),
    Api.PwnedPasswordsAPIv3._extract_loop prefix number lines data
    = Return out ->
    exists new,
      out = (data ++ new)%list /\ Forall2 (parsed_from prefix) lines new.
Proof.
  induction lines as [|line rest IH]; intros number data out H.
  - cbn in H. injection H as <-. exists []. rewrite app_nil_r. auto.
  - cbn [Api.PwnedPasswordsAPIv3._extract_loop] in H.
    destruct (Api.PwnedPasswordsAPIv3._extract_line prefix line)
      as [datum|[]] eqn:L; try discriminate H.
    destruct (IH _ _ _ H) as (new & -> & F).
    exists (datum :: new). rewrite <- app_assoc. split; [reflexivity|].
    constructor; [now apply extract_line_returns | exact F].
Qed.

(** X8.  When [_extract] returns, there is one record for each line of the
    body and in the order of the lines: its hash is the address followed
    by the part before the colon, in lower case, and its count is the
    integer after the colon. *)
Theorem extract_keeps_lines_in_order (prefix : Api.Prefix.t)
  (string : string) (data : Api.HashCounts)
  (Hparsed : Api.PwnedPasswordsAPIv3._extract prefix string = Return data) :
  Forall2
    (fun line datum =>
       exists suffix count,
         Py.split_sep ":" line = [suffix; count]
         /\ fst datum
            = (Py.casefold (Api.Prefix.__str__ prefix)
               ++ Py.casefold suffix)%string
         /\ Py.startswith (fst datum)
              (Py.casefold (Api.Prefix.__str__ prefix)) = true
         /\ Py.int count 10 = Return (snd datum))
    (Py.split string) data.
Proof.
  unfold Api.PwnedPasswordsAPIv3._extract in Hparsed.
  destruct (extract_loop_returns _ _ _ _ _ Hparsed) as (new & -> & F).
  clear Hparsed. cbn [app].
  induction F as [|line datum lines new P F IH]; constructor.
  - destruct P as (suffix & count & S & H & I).
    exists suffix, count. rewrite H, startswith_app. auto.
  - exact IH.
Qed.

Lemma extract_keeps_lines_in_order_witness :
  Api.PwnedPasswordsAPIv3._extract {| Api.Prefix._prefix := "5baa6" |} BODY
  = Return EXPECTED
  /\ Forall2
       (fun line datum =>
          exists suffix count,
            Py.split_sep ":" line = [suffix; count]
            /\ fst datum = ("5baa6" ++ Py.casefold suffix)%string
            /\ Py.startswith (fst datum) "5baa6" = true
            /\ Py.int count 10 = Return (snd datum))
       (Py.split BODY) EXPECTED.
Proof.
  split; [reflexivity|].
  exact (extract_keeps_lines_in_order {| Api.Prefix._prefix := "5baa6" |}
           BODY EXPECTED eq_refl).
Defined.

Lemma split_starts (c : ascii) (r : string) :
  Py.isspace c = false -> Py.split (String c r) <> [].
Proof.
  intro H. cbn [Py.split]. rewrite H.
  destruct r as [|c' r']; [discriminate|].
  destruct (Py.isspace c'); [discriminate|].
  destruct (Py.split (String c' r')); discriminate.
Qed.

(** White space between two texts keeps their lines apart. *)
Lemma split_app (a b : string) (w : ascii) :
  Py.isspace w = true ->
  Py.split (a ++ String w b) = (Py.split a ++ Py.split b)%list.
Proof.
  intro Hw. induction a as [|c a IH].
  - cbn [String.append Py.split app]. now rewrite Hw.
  - cbn [String.append]. cbn [Py.split].
    destruct (Py.isspace c) eqn:Hc; [exact IH|].
    destruct a as [|c' a'].
    + cbn [String.append]. rewrite Hw.
      cbn [String.append] in IH. rewrite IH. reflexivity.
    + cbn [String.append] in IH |- *.
      destruct (Py.isspace c') eqn:Hc'; [now rewrite IH|].
      rewrite IH. pose proof (split_starts c' a' Hc') as NE.
      destruct (Py.split (String c' a')) as [|t ts]; [congruence|].
      reflexivity.
Qed.

Lemma extract_loop_app (prefix : Api.Prefix.t) (l1 l2 : list string) :
  forall (number : nat) (data : Api.HashCounts),
    Api.PwnedPasswordsAPIv3._extract_loop prefix number (l1 ++ l2) data
    = match Api.PwnedPasswordsAPIv3._extract_loop prefix number l1 data with
      | Return out =>
          Api.PwnedPasswordsAPIv3._extract_loop prefix
            (number + List.length l1) l2 out
      | Raise e => Raise e
      end.
Proof.
  induction l1 as [|line l1 IH]; intros number data.
  - cbn. now rewrite Nat.add_0_r.
  - cbn [app Api.PwnedPasswordsAPIv3._extract_loop List.length].
    destruct (Api.PwnedPasswordsAPIv3._extract_line prefix line)
      as [datum|[]]; try reflexivity.
    rewrite IH. now rewrite Nat.add_succ_comm.
Qed.

(** Parsing from a later line number, after records already read. *)
Lemma extract_loop_shift (prefix : Api.Prefix.t) (lines : list string) :
  forall (k number : nat) (before data : Api.HashCounts),
    Api.PwnedPasswordsAPIv3._extract_loop prefix (k + number) lines
      (before ++ data)%list
    = match Api.PwnedPasswordsAPIv3._extract_loop prefix number lines data with
      | Return out => Return (before ++ out)%list
      | Raise (RuntimeError_line n cause) =>
          Raise (RuntimeError_line (k + n) cause)
      | Raise e => Raise e
      end.
Proof.
  induction lines as [|line rest IH]; intros k number before data.
  - reflexivity.
  - cbn [Api.PwnedPasswordsAPIv3._extract_loop].
    pose proof (extract_line_cases prefix line) as L.
    destruct (Api.PwnedPasswordsAPIv3._extract_line prefix line)
      as [datum|e].
    + rewrite <- app_assoc, <- (IH k (S number)). now rewrite Nat.add_succ_r.
    + destruct L as (_ & cause & -> & _). reflexivity.
Qed.

(** X9.  A body that is two bodies with white space between them is
    parsed as the first and then the second: the records of the first
    followed by those of the second, or the error of the first, or the
    error of the second with its line counted on from the lines of the
    first. *)
Theorem extract_of_joined_bodies (prefix : Api.Prefix.t) (a b : string)
  (w : ascii) (Hw : Py.isspace w = true) :
  Api.PwnedPasswordsAPIv3._extract prefix (a ++ String w b)
  = match Api.PwnedPasswordsAPIv3._extract prefix a with
    | Raise e => Raise e
    | Return first =>
        match Api.PwnedPasswordsAPIv3._extract prefix b with
        | Return second => Return (first ++ second)%list
        | Raise (RuntimeError_line n cause) =>
            Raise (RuntimeError_line (List.length (Py.split a) + n) cause)
        | Raise e => Raise e
        end
    end.
Proof.
  unfold Api.PwnedPasswordsAPIv3._extract.
  rewrite (split_app a b w Hw), extract_loop_app.
  destruct (Api.PwnedPasswordsAPIv3._extract_loop prefix 1 (Py.split a) [])
    as [first|e]; [|reflexivity].
  pose proof (extract_loop_shift prefix (Py.split b)
                (List.length (Py.split a)) 1 first []) as S.
  rewrite app_nil_r, Nat.add_comm in S. exact S.
Qed.

Lemma extract_of_joined_bodies_witness :
  Py.isspace "010" = true
  /\ Api.PwnedPasswordsAPIv3._extract {| Api.Prefix._prefix := "5baa6" |}
       (BODY ++ String "010" BODY_BAD2)
     = Raise (RuntimeError_line 7 (invalid_literal 10 "null")).
Proof.
  split; [reflexivity|].
  rewrite (extract_of_joined_bodies {| Api.Prefix._prefix := "5baa6" |}
             BODY BODY_BAD2 "010" eq_refl).
  reflexivity.
Defined.



(** ** The store *)

Lemma existsb_eqb_present (p : string) (l : list string) :
  existsb (String.eqb p) l = true <-> In p l.
Proof.
  rewrite existsb_exists. split.
  - intros (x & I & E). apply String.eqb_eq in E. now subst x.
  - intro I. exists p. split; [exact I | apply String.eqb_refl].
Qed.

Lemma fold_insert_password_length (id : Z) (ps : list Db.Password.t) :
  forall table,
    List.length (fold_left (Db.insert_password id) ps table)
    = (List.length table + List.length ps)%nat.
Proof.
  induction ps as [|p ps IH]; intro table; cbn [fold_left List.length];
    [lia|].
  rewrite IH. unfold Db.insert_password. rewrite List.length_app. cbn. lia.
Qed.

Lemma insert_cases (now : Q) (instance : Db.Prefix.t) (db : Db.Session) :
  match Db.insert now instance db with
  | Return db' =>
      ~ In (Db.Prefix.prefix instance) (persisted db)
      /\ persisted db'
         = (persisted db ++ [Db.Prefix.prefix instance])%list
      /\ Db.PasswordManager.count_rows db'
         = Db.PasswordManager.count_rows db
           + Z.of_nat (List.length (Db.Prefix.passwords instance))
      /\ Db.counts_fit instance = true
  | Raise e =>
      (In (Db.Prefix.prefix instance) (persisted db)
       /\ e = IntegrityError "UNIQUE constraint failed: prefixes.prefix")
      \/ (~ In (Db.Prefix.prefix instance) (persisted db)
          /\ Db.counts_fit instance = false
          /\ e = OverflowError
                   "Python int too large to convert to SQLite INTEGER")
  end.
Proof.
  unfold Db.insert. fold (persisted db).
  destruct (existsb _ _) eqn:E.
  - left. split; [now apply existsb_eqb_present | reflexivity].
  - assert (~ In (Db.Prefix.prefix instance) (persisted db)) as Hnew
      by (intro I; apply existsb_eqb_present in I; congruence).
    destruct (Db.counts_fit instance) eqn:Hfit; cbn [negb].
    + split; [exact Hnew|]. split; [|split; [|reflexivity]].
      * unfold persisted. cbn [Db.prefixes_table]. now rewrite map_app.
      * unfold Db.PasswordManager.count_rows. cbn [Db.passwords_table].
        rewrite fold_insert_password_length. lia.
    + right. auto.
Qed.






(** A flush of one instance is the same through [add] and [add_all]. *)
Lemma insert_all_one (now : Q) (instance : Db.Prefix.t) (db : Db.Session) :
  Db.insert_all now [instance] db = Db.insert now instance db.
Proof.
  unfold Db.insert_all, Db.insert. cbn [Db.insert_prefixes].
  destruct (existsb _ _); [reflexivity|].
  cbn [forallb]. rewrite andb_true_r.
  destruct (Db.counts_fit instance); reflexivity.
Qed.



Lemma next_id_above (ids : list Z) :
  Forall (fun i => i < Db.next_id ids) ids.
Proof.
  unfold Db.next_id. induction ids as [|i ids IH]; constructor.
  - cbn [fold_right]. lia.
  - cbn [fold_right]. eapply Forall_impl; [|exact IH].
    cbn beta. intros a H. lia.
Qed.

Lemma next_id_fresh (ids : list Z) : ~ In (Db.next_id ids) ids.
Proof.
  intro I. pose proof (next_id_above ids) as A.
  rewrite Forall_forall in A. specialize (A _ I). lia.
Qed.

Lemma NoDup_snoc_Z (l : list Z) (i : Z) :
  NoDup l -> ~ In i l -> NoDup (l ++ [i]).
Proof.
  intros N I. apply NoDup_app; [exact N | repeat constructor; intros [] |].
  intros a Ia [<- | []]. contradiction.
Qed.

Lemma insert_passwords_keys (id : Z) (ids : list Z)
  (ps : list Db.Password.t) :
  In id ids ->
  forall table,
    NoDup (map Db.passwords.id table) ->
    Forall (fun r => In (Db.passwords.prefix_id r) ids) table ->
    NoDup (map Db.passwords.id (fold_left (Db.insert_password id) ps table))
    /\ Forall (fun r => In (Db.passwords.prefix_id r) ids)
         (fold_left (Db.insert_password id) ps table).
Proof.
  intro Hid. induction ps as [|p ps IH]; intros table N F; [auto|].
  cbn [fold_left]. apply IH; unfold Db.insert_password.
  - rewrite map_app. cbn [map Db.passwords.id].
    apply NoDup_snoc_Z; [exact N | apply next_id_fresh].
  - apply Forall_app. split; [exact F|]. repeat constructor. exact Hid.
Qed.

Lemma insert_keeps_keys (now : Q) (instance : Db.Prefix.t)
  (db db' : Db.Session) :
  keys_ok db -> Db.insert now instance db = Return db' -> keys_ok db'.
Proof.
  intros (Np & Nw & F). unfold Db.insert.
  destruct (existsb _ _); [discriminate|].
  destruct (negb _); [discriminate|].
  intro H. injection H as <-. unfold keys_ok.
  cbn [Db.prefixes_table Db.passwords_table].
  rewrite map_app. cbn [map Db.prefixes.id Db.new_row].
  set (id := Db.next_id (map Db.prefixes.id (Db.prefixes_table db))).
  split; [apply NoDup_snoc_Z; [exact Np | apply next_id_fresh]|].
  apply insert_passwords_keys.
  - apply in_or_app. right. now left.
  - exact Nw.
  - eapply Forall_impl; [|exact F]. cbn beta. intros r I.
    apply in_or_app. now left.
Qed.

Lemma insert_prefixes_ids (now : Q) (instances : list Db.Prefix.t) :
  forall table table' ids,
    Db.insert_prefixes now instances table = Return (table', ids) ->
    map Db.prefixes.id table' = (map Db.prefixes.id table ++ ids)%list
    /\ (NoDup (map Db.prefixes.id table)
        -> NoDup (map Db.prefixes.id table')).
Proof.
  induction instances as [|i rest IH]; intros table table' ids H.
  - cbn in H. injection H as <- <-. rewrite app_nil_r. auto.
  - cbn [Db.insert_prefixes] in H.
    destruct (existsb _ _); [discriminate|].
    destruct (Db.insert_prefixes now rest _) as [[t l]|e] eqn:R;
      [|discriminate].
    injection H as <- <-. destruct (IH _ _ _ R) as (M & N).
    rewrite map_app in M, N. cbn [map Db.prefixes.id Db.new_row] in M, N.
    rewrite <- app_assoc in M. split; [exact M|].
    intro Np. apply N. apply NoDup_snoc_Z; [exact Np | apply next_id_fresh].
Qed.

Lemma insert_passwords_all_keys (ids : list Z) :
  forall (keyed : list (Z * Db.Prefix.t)) table,
    Forall (fun k => In (fst k) ids) keyed ->
    NoDup (map Db.passwords.id table) ->
    Forall (fun r => In (Db.passwords.prefix_id r) ids) table ->
    NoDup (map Db.passwords.id (Db.insert_passwords keyed table))
    /\ Forall (fun r => In (Db.passwords.prefix_id r) ids)
         (Db.insert_passwords keyed table).
Proof.
  induction keyed as [|[id i] rest IH]; intros table K N F; [auto|].
  cbn [Db.insert_passwords]. inversion K as [|? ? Hid Hrest]; subst.
  destruct (insert_passwords_keys id ids (Db.Prefix.passwords i) Hid
              table N F) as (N' & F').
  now apply IH.
Qed.

Lemma insert_all_keeps_keys (now : Q) (instances : list Db.Prefix.t)
  (db db' : Db.Session) :
  keys_ok db -> Db.insert_all now instances db = Return db' -> keys_ok db'.
Proof.
  intros (Np & Nw & F). unfold Db.insert_all.
  destruct (Db.insert_prefixes now instances (Db.prefixes_table db))
    as [[table ids]|e] eqn:R; [|discriminate].
  destruct (negb _); [discriminate|].
  intro H. injection H as <-. unfold keys_ok.
  cbn [Db.prefixes_table Db.passwords_table].
  destruct (insert_prefixes_ids _ _ _ _ _ R) as (M & N).
  split; [now apply N|]. rewrite M.
  apply insert_passwords_all_keys.
  - apply Forall_forall. intros [id i] I. cbn [fst].
    apply in_combine_l in I. apply in_or_app. now right.
  - exact Nw.
  - eapply Forall_impl; [|exact F]. cbn beta. intros r I.
    apply in_or_app. now left.
Qed.

(** X12.  [Manager.add] and [Manager.add_all] keep the keys of the two
    tables sound: no primary key is given twice, and every row of
    [passwords] points to a row of [prefixes].  The empty database is
    sound, so every database built by these calls is. *)
Theorem add_keeps_keys (now : Q) (instance : Db.Prefix.t)
  (instances : list Db.Prefix.t) (db : Db.Session) (Hkeys : keys_ok db) :
  keys_ok Db.empty
  /\ keys_ok (snd (Db.Manager.add now instance db))
  /\ keys_ok (snd (Db.Manager.add_all now instances db)).
Proof.
  split; [repeat split; constructor|]. split.
  - unfold Db.Manager.add.
    destruct (Db.insert now instance db) as [db'|e] eqn:I; [|exact Hkeys].
    cbn [snd]. eapply insert_keeps_keys; eassumption.
  - unfold Db.Manager.add_all.
    destruct (Db.insert_all now instances db) as [db'|e] eqn:I;
      [|exact Hkeys].
    cbn [snd]. eapply insert_all_keeps_keys; eassumption.
Qed.

Lemma add_keeps_keys_witness :
  keys_ok out_of_order
  /\ keys_ok (snd (Db.Manager.add (0 # 1)
                     {| Db.Prefix.prefix := "000b2";
                        Db.Prefix.updated := None;
                        Db.Prefix.passwords :=
                          [Db.Password.__init__ "000b2aa" 3;
                           Db.Password.__init__ "000b2bb" 0] |}
                     out_of_order)).
Proof.
  assert (keys_ok out_of_order) as H.
  { exact (proj2 (proj2 (add_keeps_keys (0 # 1) (new_prefix "00000")
             [new_prefix "000af"; new_prefix "000b1"; new_prefix "000b0";
              new_prefix "000ae"] Db.empty
             (proj1 (add_keeps_keys (0 # 1) (new_prefix "00000") []
                       Db.empty
                       (conj (NoDup_nil Z)
                          (conj (NoDup_nil Z) (Forall_nil _)))))))). }
  split; [exact H|].
  exact (proj1 (proj2 (add_keeps_keys (0 # 1) _ [] out_of_order H))).
Defined.

Lemma leb_refl (a : string) : String.leb a a = true.
Proof. destruct (String.leb_total a a); assumption. Qed.

Lemma compare_not_gt_trans (a : string) :
  forall b c,
    String.compare a b <> Gt -> String.compare b c <> Gt ->
    String.compare a c <> Gt.
Proof.
  induction a as [|x a IH]; intros [|y b] [|z c] Hab Hbc;
    cbn [String.compare] in *; try discriminate; try congruence.
  unfold Ascii.compare in *.
  destruct (N.compare_spec (N_of_ascii x) (N_of_ascii y)) as [Exy | Lxy | Gxy];
    destruct (N.compare_spec (N_of_ascii y) (N_of_ascii z)) as [Eyz | Lyz | Gyz];
    destruct (N.compare_spec (N_of_ascii x) (N_of_ascii z)) as [Exz | Lxz | Gxz];
    try discriminate; try congruence; try (exfalso; lia).
  now apply (IH b c).
Qed.

Lemma leb_trans (a b c : string) :
  String.leb a b = true -> String.leb b c = true -> String.leb a c = true.
Proof.
  unfold String.leb. intros Hab Hbc.
  pose proof (compare_not_gt_trans a b c) as T.
  destruct (String.compare a b); try discriminate;
    destruct (String.compare b c); try discriminate;
    destruct (String.compare a c); try reflexivity;
    exfalso; apply T; first [discriminate | reflexivity].
Qed.

Lemma order_by_desc_greatest (l : list string) :
  match hd_error (Db.PrefixManager.order_by_desc l) with
  | None => l = []
  | Some p => In p l /\ Forall (fun q => String.leb q p = true) l
  end.
Proof.
  induction l as [|x l IH]; [reflexivity|].
  change (Db.PrefixManager.order_by_desc (x :: l))
    with (Db.PrefixManager.insert_desc x (Db.PrefixManager.order_by_desc l)).
  rewrite insert_desc_head.
  destruct (hd_error (Db.PrefixManager.order_by_desc l)) as [y|].
  - destruct IH as (Iy & Fy). destruct (String.leb y x) eqn:L.
    + split; [now left|]. constructor; [apply leb_refl|].
      eapply Forall_impl; [|exact Fy]. cbn beta. intros q Hq.
      now apply (leb_trans q y x).
    + split; [now right|]. constructor; [|exact Fy].
      destruct (String.leb_total y x) as [T | T]; [congruence | exact T].
  - subst l. split; [now left|]. repeat constructor. apply leb_refl.
Qed.

(** X13.  On any store, [largest_prefix] is [None] exactly when there is no
    row, and is otherwise an address of the store that no address of the
    store comes after in the order of the text. *)
Theorem largest_prefix_is_greatest (db : Db.Session) :
  match Db.PrefixManager.largest_prefix db with
  | None => persisted db = []
  | Some p =>
      In p (persisted db)
      /\ Forall (fun q => String.leb q p = true) (persisted db)
  end.
Proof. apply order_by_desc_greatest. Qed.

(** ** Stores filled in order *)

Lemma in_order_S (n : nat) :
  in_order (S n) = (in_order n ++ [encode (Z.of_nat n)])%list.
Proof. unfold in_order. now rewrite seq_S, map_app. Qed.

Lemma in_order_length (n : nat) : List.length (in_order n) = n.
Proof. unfold in_order. now rewrite length_map, length_seq. Qed.

Lemma in_order_canonical (n : nat) :
  Z.of_nat n <= 2 ^ 20 ->
  Forall (fun p => canonical p = true) (in_order n).
Proof.
  induction n as [|n IH]; intro H; [constructor|].
  rewrite in_order_S. apply Forall_app. split; [apply IH; lia|].
  repeat constructor. apply encode_canonical. lia.
Qed.

Lemma numeric_maximum_snoc (l : list string) (p : string) :
  numeric_maximum (l ++ [p]) = Z.max (numeric_maximum l) (address_value p).
Proof.
  unfold numeric_maximum. induction l as [|x l IH]; cbn [app map fold_right].
  - lia.
  - rewrite IH. lia.
Qed.

Lemma numeric_maximum_in_order (n : nat) :
  Z.of_nat (S n) <= 2 ^ 20 -> numeric_maximum (in_order (S n)) = Z.of_nat n.
Proof.
  induction n as [|n IH]; intro H.
  - reflexivity.
  - rewrite in_order_S, numeric_maximum_snoc, IH by lia.
    destruct (encode_canonical (Z.of_nat (S n))) as [_ V]; [lia|].
    rewrite V. lia.
Qed.

Lemma largest_in_order (db : Db.Session) (n : nat) :
  persisted db = in_order (S n) -> Z.of_nat (S n) <= 2 ^ 20 ->
  exists p,
    Db.PrefixManager.largest_prefix db = Some p
    /\ Py.int p 16 = Return (Z.of_nat n).
Proof.
  intros E H.
  assert (Forall (fun p => canonical p = true) (persisted db)) as C
    by (rewrite E; now apply in_order_canonical).
  pose proof (largest_prefix_canonical db C) as L.
  destruct (persisted db) as [|x l]; [discriminate E|].
  destruct L as (p & Lp & Cp & Vp). exists p. split; [exact Lp|].
  rewrite (int_canonical p Cp), Vp, E. f_equal.
  now apply numeric_maximum_in_order.
Qed.

Lemma find_missing_in_order (db : Db.Session) (n : nat) :
  persisted db = in_order n -> Z.of_nat n <= 2 ^ 20 ->
  Db.PrefixManager.find_missing db
  = Return (if Z.of_nat n =? 2 ^ 20 then None
            else Some (encode (Z.of_nat n))).
Proof.
  intros E H. destruct n as [|m].
  - assert (Forall (fun p => canonical p = true) (persisted db)) as C
      by (rewrite E; constructor).
    pose proof (largest_prefix_canonical db C) as L. rewrite E in L.
    unfold Db.PrefixManager.find_missing. cbn in L. now rewrite L.
  - destruct (largest_in_order db m E H) as (p & Lp & Ip).
    unfold Db.PrefixManager.find_missing. rewrite Lp, Ip.
    change Db.PrefixManager.TOTAL_ROWS with (2 ^ 20).
    replace (Z.of_nat m + 1) with (Z.of_nat (S m)) by lia.
    now destruct (Z.of_nat (S m) =? 2 ^ 20).
Qed.

(** X14.  When the store holds the first [n] addresses in order, as the
    coordinator fills it, [find_missing] is the address of number [n], or
    [None] when all [2 ^ 20] are there, and [percentage_complete] is the
    number of rows over [2 ^ 20], times 100: the shortcut by the largest
    address gives what counting the rows would give. *)
Theorem in_order_store_knows_its_progress (db : Db.Session) (n : nat)
  (Horder : persisted db = in_order n) (Hn : Z.of_nat n <= 2 ^ 20) :
  Db.PrefixManager.find_missing db
  = Return (if Z.of_nat n =? 2 ^ 20 then None
            else Some (encode (Z.of_nat n)))
  /\ Db.PrefixManager.count_rows db = Z.of_nat n
  /\ exists q,
       Db.PrefixManager.percentage_complete db = Return q
       /\ (q == (inject_Z (Db.PrefixManager.count_rows db)
                 / inject_Z Db.PrefixManager.TOTAL_ROWS) * (100 # 1))%Q.
Proof.
  split; [now apply find_missing_in_order|].
  assert (Db.PrefixManager.count_rows db = Z.of_nat n) as R.
  { unfold Db.PrefixManager.count_rows. f_equal.
    rewrite <- (in_order_length n), <- Horder. unfold persisted.
    now rewrite length_map. }
  split; [exact R|]. rewrite R.
  unfold Db.PrefixManager.percentage_complete. destruct n as [|m].
  - assert (Forall (fun p => canonical p = true) (persisted db)) as C
      by (rewrite Horder; constructor).
    pose proof (largest_prefix_canonical db C) as L. rewrite Horder in L.
    cbn in L. rewrite L. eexists. split; reflexivity.
  - destruct (largest_in_order db m Horder Hn) as (p & Lp & Ip).
    rewrite Lp, Ip. eexists. split; [reflexivity|].
    replace (Z.of_nat m + 1) with (Z.of_nat (S m)) by lia. reflexivity.
Qed.

Lemma in_order_store_knows_its_progress_witness :
  persisted (only "00000") = in_order 1 /\ Z.of_nat 1 <= 2 ^ 20
  /\ Db.PrefixManager.find_missing (only "00000") = Return (Some "00001")
  /\ Db.PrefixManager.count_rows (only "00000") = 1.
Proof.
  assert (persisted (only "00000") = in_order 1) as A by reflexivity.
  assert (Z.of_nat 1 <= 2 ^ 20) as B by (vm_compute; discriminate).
  destruct (in_order_store_knows_its_progress (only "00000") 1 A B)
    as (F & R & _).
  split; [exact A|]. split; [exact B|]. split; [exact F | exact R].
Defined.

(** X15.  A cycle on a store that holds the first [n] addresses in order
    either returns the address of number [n] and leaves the first [n + 1]
    in order, or raises and leaves the store as it was: a run that is
    started again goes on where the last one stopped. *)
Theorem create_new_extends_in_order (now : Q) (self : Updatinator.t)
  (n : nat)
  (Horder : persisted (Updatinator.prefixes self) = in_order n)
  (Hn : Z.of_nat n < 2 ^ 20) :
  let '(outcome, self') := Updatinator.create_new now self in
  match outcome with
  | Return (address, _) =>
      address = encode (Z.of_nat n)
      /\ persisted (Updatinator.prefixes self') = in_order (S n)
  | Raise _ => Updatinator.prefixes self' = Updatinator.prefixes self
  end.
Proof.
  rewrite create_new_unfold.
  rewrite (find_missing_in_order _ n Horder) by lia.
  replace (Z.of_nat n =? 2 ^ 20) with false
    by (symmetry; apply Z.eqb_neq; lia).
  destruct (Api.PwnedPasswordsAPIv3.fetch_range _ _) as [[hashes|e] api];
    [|reflexivity].
  cbv zeta. unfold Db.Prefix.__init__, Db.Prefix.validate_prefix.
  destruct (negb _); [reflexivity|].
  rewrite casefold_encode.
  match goal with
  | |- context [Db.insert now ?i (Updatinator.prefixes self)] =>
      pose proof (insert_cases now i (Updatinator.prefixes self)) as C;
      destruct (Db.insert now i (Updatinator.prefixes self)) as [db'|e']
  end; [|reflexivity].
  destruct C as (_ & P & _). cbn [Db.Prefix.prefix] in P.
  cbn [Updatinator.prefixes]. split; [reflexivity|].
  now rewrite P, Horder, in_order_S.
Qed.

Lemma create_new_extends_in_order_witness :
  persisted (Updatinator.prefixes (Updatinator.__init__ Db.empty mocked))
  = in_order 0
  /\ Z.of_nat 0 < 2 ^ 20
  /\ persisted
       (Updatinator.prefixes
          (snd (Updatinator.create_new (0 # 1)
                  (Updatinator.__init__ Db.empty mocked))))
     = in_order 1.
Proof.
  assert (persisted (Updatinator.prefixes
                       (Updatinator.__init__ Db.empty mocked))
          = in_order 0) as A by reflexivity.
  assert (Z.of_nat 0 < 2 ^ 20) as B by reflexivity.
  split; [exact A|]. split; [exact B|].
  pose proof (create_new_extends_in_order (0 # 1)
                (Updatinator.__init__ Db.empty mocked) 0 A B) as T.
  destruct (Updatinator.create_new (0 # 1)
              (Updatinator.__init__ Db.empty mocked))
    as [[[address k]|e] self'] eqn:E.
  - exact (proj2 T).
  - vm_compute in E. discriminate E.
Defined.

(** ** Progress *)

Lemma percentage_of_rows (rows : Z) :
  let q := ((inject_Z rows / inject_Z Db.PrefixManager.TOTAL_ROWS)
            * (100 # 1))%Q in
  (0 <= rows -> (0 <= q)%Q)
  /\ (rows <= 2 ^ 20 -> (q <= 100 # 1)%Q)
  /\ ((q == 0)%Q <-> rows = 0)
  /\ ((q == 100 # 1)%Q <-> rows = 2 ^ 20).
Proof.
  change Db.PrefixManager.TOTAL_ROWS with 1048576.
  change (2 ^ 20) with 1048576.
  unfold Qle, Qeq, Qmult, Qdiv, Qinv, inject_Z. cbn [Qnum Qden].
  cbn. repeat split; intros; lia.
Qed.

Lemma numeric_maximum_bounds (l : list string) (x : string) :
  In x l -> address_value x <= numeric_maximum l.
Proof.
  unfold numeric_maximum. induction l as [|y l IH]; intros []; cbn [map fold_right].
  - subst y. lia.
  - specialize (IH H). lia.
Qed.

(** X16.  On a store of canonical addresses the percentage lies between 0
    and 100; it is 0 exactly when the store has no row and 100 exactly
    when [fffff] is in it, whatever else is missing. *)
Theorem percentage_is_between_0_and_100 (db : Db.Session)
  (Hcanonical : Forall (fun p => canonical p = true) (persisted db)) :
  exists q,
    Db.PrefixManager.percentage_complete db = Return q
    /\ (0 <= q)%Q /\ (q <= 100 # 1)%Q
    /\ ((q == 0)%Q <-> persisted db = [])
    /\ ((q == 100 # 1)%Q <-> In "fffff" (persisted db)).
Proof.
  pose proof (order_by_desc_head _ Hcanonical) as O.
  unfold Db.PrefixManager.percentage_complete, Db.PrefixManager.largest_prefix.
  fold (persisted db).
  destruct (hd_error (Db.PrefixManager.order_by_desc (persisted db)))
    as [p|].
  - destruct O as (Cp & Ip & Vp).
    pose proof (canonical_value_bound p Cp) as B.
    rewrite (int_canonical p Cp).
    destruct (percentage_of_rows (address_value p + 1)) as (P0 & P1 & Z0 & Z1).
    cbv zeta in *. eexists. split; [reflexivity|].
    split; [apply P0; lia|]. split; [apply P1; lia|]. split.
    + rewrite Z0. split; [lia|]. intro E. rewrite E in Ip. destruct Ip.
    + rewrite Z1. split.
      * intro E. assert (address_value p = 1048575) as V
          by (change (2 ^ 20) with 1048576 in E; lia).
        rewrite <- (encode_address_value p Cp), V in Ip. exact Ip.
      * intro I. pose proof (numeric_maximum_bounds _ _ I) as M.
        change (address_value "fffff") with 1048575 in M.
        change (2 ^ 20) with 1048576 in *. lia.
  - rewrite O. eexists. split; [reflexivity|].
    repeat split; try discriminate; try reflexivity; intros [].
Qed.

Lemma percentage_is_between_0_and_100_witness :
  Forall (fun p => canonical p = true) (persisted out_of_order)
  /\ exists q,
       Db.PrefixManager.percentage_complete out_of_order = Return q
       /\ (0 <= q)%Q /\ (q <= 100 # 1)%Q
       /\ ((q == 0)%Q <-> persisted out_of_order = [])
       /\ ((q == 100 # 1)%Q <-> In "fffff" (persisted out_of_order)).
Proof.
  assert (Forall (fun p => canonical p = true) (persisted out_of_order))
    as H by (repeat constructor).
  split; [exact H|].
  exact (percentage_is_between_0_and_100 out_of_order H).
Defined.

(** ** The command line *)

Lemma create_new_counts (now : Q) (self : Updatinator.t) :
  let '(outcome, self') := Updatinator.create_new now self in
  match outcome with
  | Return (_, n) =>
      Db.PrefixManager.count_rows (Updatinator.prefixes self')
      = Db.PrefixManager.count_rows (Updatinator.prefixes self) + 1
      /\ Db.PasswordManager.count_rows (Updatinator.prefixes self')
         = Db.PasswordManager.count_rows (Updatinator.prefixes self) + n
  | Raise _ => Updatinator.prefixes self' = Updatinator.prefixes self
  end.
Proof.
  rewrite create_new_unfold.
  destruct (Db.PrefixManager.find_missing _) as [[missing|]|e];
    try reflexivity.
  destruct (Api.PwnedPasswordsAPIv3.fetch_range _ _) as [[hashes|e] api];
    [|reflexivity].
  cbv zeta. destruct (Db.Prefix.__init__ _ _) as [instance|e] eqn:I;
    [|reflexivity].
  pose proof (insert_cases now instance (Updatinator.prefixes self)) as C.
  destruct (Db.insert now instance (Updatinator.prefixes self)) as [db|e];
    [|reflexivity].
  destruct C as (_ & P & W & _). cbn [Updatinator.prefixes]. split.
  - unfold Db.PrefixManager.count_rows. unfold persisted in P.
    apply (f_equal (@List.length string)) in P.
    rewrite List.length_app, !length_map in P. cbn in P. lia.
  - rewrite W. f_equal.
    unfold Db.Prefix.__init__ in I.
    destruct (Db.Prefix.validate_prefix missing); [|discriminate].
    injection I as <-. reflexivity.
Qed.

Lemma insert_counts (now : Q) (instance : Db.Prefix.t) (db db' : Db.Session) :
  Db.insert now instance db = Return db' ->
  Db.PrefixManager.count_rows db' = Db.PrefixManager.count_rows db + 1
  /\ Db.PasswordManager.count_rows db'
     = Db.PasswordManager.count_rows db
       + Z.of_nat (List.length (Db.Prefix.passwords instance)).
Proof.
  intro H. pose proof (insert_cases now instance db) as C.
  rewrite H in C. destruct C as (_ & P & W & _). split; [|exact W].
  unfold Db.PrefixManager.count_rows. unfold persisted in P.
  apply (f_equal (@List.length string)) in P.
  rewrite List.length_app, !length_map in P. cbn in P. lia.
Qed.

(** What one turn of the [try] block can do to the totals: it leaves them
    as far from the rows as they were, unless a signal is taken between
    the commit and the second total. *)
Lemma try_body_effects (c : CommandLine.cycle) (self : CommandLine.t) :
  let '(r, self') := CommandLine.try_body c self in
  CommandLine.stderr self' = CommandLine.stderr self
  /\ CommandLine.session_closed self' = CommandLine.session_closed self
  /\ match r with
     | Raise (SystemExit text) =>
         ahead self' = ahead self
         \/ ((CommandLine.signal c CommandLine.before_total_prefixes
              = Some text
              \/ CommandLine.signal c CommandLine.before_total_passwords
                 = Some text)
             /\ lags self self')
     | _ => ahead self' = ahead self
     end.
Proof.
  destruct self as [[db api] tp tw closed out err].
  unfold CommandLine.try_body, CommandLine.checkpoint.
  unfold CommandLine.on_api, CommandLine.on_prefixes,
    CommandLine.with_updater, Updatinator.with_api, Updatinator.with_prefixes,
    CommandLine.count_request, CommandLine.count_bytes,
    CommandLine.add_total_prefixes, CommandLine.add_total_passwords,
    CommandLine.print, Db.Manager.add,
    Api.PwnedPasswordsAPIv3.with_session, Api.Requests.get,
    bind, get, lift, modify, raise, ret.
  fields.
  at_point CommandLine.before_find_missing.
  destruct (Db.PrefixManager.find_missing db) as [[missing|]|e];
    [|unchanged|destruct e; unchanged].
  cbv beta iota; fields.
  at_point CommandLine.before_prefix.
  on_call (Api.Prefix.__init__ missing) as prefix.
  at_point CommandLine.before_count.
  at_point CommandLine.before_request.
  match goal with
  | |- context [Api.Requests.transport ?s ?n ?r] =>
      on_call (Api.Requests.transport s n r) as response
  end.
  at_point CommandLine.before_status.
  match goal with
  | |- context [Api.Requests.raise_for_status ?r] =>
      on_call (Api.Requests.raise_for_status r) as ok
  end.
  at_point CommandLine.before_bytes.
  at_point CommandLine.before_extract.
  match goal with
  | |- context [Api.PwnedPasswordsAPIv3._extract ?p ?s] =>
      on_call (Api.PwnedPasswordsAPIv3._extract p s) as hashes
  end.
  cbv zeta.
  at_point CommandLine.before_instance.
  match goal with
  | |- context [Db.Prefix.__init__ missing ?ps] =>
      assert (forall instance,
                 Db.Prefix.__init__ missing ps = Return instance ->
                 Db.Prefix.passwords instance = ps) as Hpasswords
        by (intros instance I; unfold Db.Prefix.__init__ in I;
            destruct (Db.Prefix.validate_prefix missing);
            [injection I as <-; reflexivity | discriminate I]);
      destruct (Db.Prefix.__init__ missing ps) as [instance|e];
      [specialize (Hpasswords instance eq_refl)
      |destruct e; unchanged]
  end.
  cbv beta iota; fields.
  at_point CommandLine.before_add.
  destruct (Db.insert (CommandLine.now c) instance db) as [db'|e] eqn:D;
    [|destruct e; unchanged].
  destruct (insert_counts _ _ _ _ D) as (Rp & Rw).
  rewrite Hpasswords in Rw.
  cbv beta iota; fields.
  destruct (CommandLine.signal c CommandLine.before_total_prefixes)
    as [text|] eqn:S1.
  { cbv beta iota. fields. do 2 (split; [reflexivity|]). right.
    split; [now left|]. unfold lags, ahead. fields. lia. }
  cbv beta iota; fields.
  destruct (CommandLine.signal c CommandLine.before_total_passwords)
    as [text|] eqn:S2.
  { cbv beta iota. fields. do 2 (split; [reflexivity|]). right.
    split; [now right|]. unfold lags, ahead. fields. lia. }
  cbv beta iota; fields.
  assert (forall api' closed' out' err',
    ahead
            {| CommandLine.updater :=
                 {| Updatinator.prefixes := db'; Updatinator.api := api' |};
               CommandLine.total_prefixes := tp + 1;
               CommandLine.total_passwords :=
                 tw + Z.of_nat (List.length
                   (map (fun '(sha1, count) => Db.Password.__init__ sha1 count)
                      hashes));
               CommandLine.session_closed := closed';
               CommandLine.stdout := out';
               CommandLine.stderr := err' |}
    = ahead
            {| CommandLine.updater :=
                 {| Updatinator.prefixes := db; Updatinator.api := api |};
               CommandLine.total_prefixes := tp;
               CommandLine.total_passwords := tw;
               CommandLine.session_closed := closed;
               CommandLine.stdout := out;
               CommandLine.stderr := err |}) as Even.
  { intros. unfold ahead. fields. f_equal; lia. }
  destruct (CommandLine.signal c CommandLine.before_percentage);
    [settled Even|].
  cbv beta iota; fields.
  destruct (Db.PrefixManager.percentage_complete db') as [completed|e];
    [|destruct e; settled Even].
  cbv beta iota; fields.
  destruct (CommandLine.signal c CommandLine.before_progress);
    [settled Even|].
  cbv beta iota; fields.
  destruct (CommandLine.signal c CommandLine.after_progress);
    settled Even.
Qed.

Lemma lags_refl (self : CommandLine.t) : lags self self.
Proof. unfold lags. lia. Qed.

Lemma lags_of_even (a b : CommandLine.t) : ahead b = ahead a -> lags a b.
Proof. unfold lags. intros ->. lia. Qed.

(** The handler of [SystemExit] closes the session and writes the empty
    line and the message, unless another signal arrives. *)
Lemma handler_cases (c : CommandLine.cycle) (e : string)
  (self : CommandLine.t) :
  let '(r, self') := CommandLine.handler c e self in
  ahead self' = ahead self
  /\ match r with
     | Return _ =>
         self'
         = {| CommandLine.updater := CommandLine.updater self;
              CommandLine.total_prefixes := CommandLine.total_prefixes self;
              CommandLine.total_passwords := CommandLine.total_passwords self;
              CommandLine.session_closed := true;
              CommandLine.stdout :=
                (CommandLine.stdout self ++ [CommandLine.blank])%list;
              CommandLine.stderr := (CommandLine.stderr self ++ [e])%list |}
     | Raise x => exists text, x = SystemExit text
     end.
Proof.
  unfold CommandLine.handler, CommandLine.checkpoint,
    CommandLine.session_close, CommandLine.print, CommandLine.print_stderr,
    bind, modify, raise, ret.
  destruct (CommandLine.signal c CommandLine.before_close);
    [split; [reflexivity | eauto]|].
  destruct (CommandLine.signal c CommandLine.before_blank);
    [split; [reflexivity | eauto]|].
  destruct (CommandLine.signal c CommandLine.before_stderr);
    [split; [reflexivity | eauto]|].
  destruct (CommandLine.signal c CommandLine.before_break);
    [split; [reflexivity | eauto]|].
  split; reflexivity.
Qed.

(** However the loop ends, the totals are as far from the rows as they
    were, unless a signal was taken between a commit and the second total;
    and the loop is left normally only through the handler. *)
Lemma loop_effects (cycles : list CommandLine.cycle) :
  forall self r self',
    CommandLine.loop cycles self = Some (r, self') ->
    lags self self'
    /\ (Forall no_signal_before_totals cycles -> ahead self' = ahead self)
    /\ match r with
       | Return last =>
           exists s s' text,
             In last cycles
             /\ CommandLine.try_body last s = (Raise (SystemExit text), s')
             /\ self'
                = {| CommandLine.updater := CommandLine.updater s';
                     CommandLine.total_prefixes :=
                       CommandLine.total_prefixes s';
                     CommandLine.total_passwords :=
                       CommandLine.total_passwords s';
                     CommandLine.session_closed := true;
                     CommandLine.stdout :=
                       (CommandLine.stdout s' ++ [CommandLine.blank])%list;
                     CommandLine.stderr :=
                       (CommandLine.stderr self ++ [text])%list |}
       | Raise (SystemExit _) => True
       | Raise _ => ahead self' = ahead self
       end.
Proof.
  induction cycles as [|c rest IH]; intros self r self' H;
    [discriminate H|].
  cbn [CommandLine.loop] in H. rewrite checkpoint_cases in H.
  destruct (CommandLine.signal c CommandLine.before_try) as [text|].
  { injection H as <- <-. split; [apply lags_refl|]. split; auto. }
  pose proof (try_body_effects c self) as E.
  destruct (CommandLine.try_body c self) as [[[]|e] s1] eqn:B.
  - destruct E as (Err & _ & Even).
    destruct (IH s1 r self' H) as (L & Calm & R).
    split; [|split].
    + unfold lags in *. rewrite <- Even. exact L.
    + intro F. inversion F; subst. rewrite <- Even. now apply Calm.
    + destruct r as [last|[]]; try (rewrite <- Even; exact R); try exact I.
      destruct R as (s & s' & text & Hin & Hbody & ->).
      exists s, s', text. rewrite Err.
      split; [now right|]. split; [exact Hbody | reflexivity].
  - destruct e as [| | | | | | |text];
      try (injection H as <- <-; destruct E as (_ & _ & Even);
           split; [now apply lags_of_even|]; split; [auto | exact Even]).
    destruct E as (Err & _ & Lag).
    pose proof (handler_cases c text s1) as Hd.
    unfold bind at 1 in H.
    destruct (CommandLine.handler c text s1) as [[[]|x] s2].
    + destruct Hd as (Even & ->). unfold ret in H. injection H as <- <-.
      split; [|split].
      * destruct Lag as [Same | (_ & L)];
          [apply lags_of_even; now rewrite Even | ].
        unfold lags in *. rewrite Even. exact L.
      * intro F. inversion F as [|? ? (N1 & N2) _]; subst.
        destruct Lag as [Same | ([S | S] & _)];
          [now rewrite Even | congruence | congruence].
      * exists self, s1, text. rewrite Err.
        split; [now left|]. split; [exact B | reflexivity].
    + destruct Hd as (Even & text' & ->). injection H as <- <-.
      split; [|split; [|exact I]].
      * destruct Lag as [Same | (_ & L)];
          [apply lags_of_even; now rewrite Even | ].
        unfold lags in *. rewrite Even. exact L.
      * intro F. inversion F as [|? ? (N1 & N2) _]; subst.
        destruct Lag as [Same | ([S | S] & _)];
          [now rewrite Even | congruence | congruence].
Qed.



(** X17.  The totals of [run] never count more than the run stored.
    However [run] ends, the rows added to [prefixes] are as many as
    [total_prefixes] has grown, or one more, and the rows added to
    [passwords] are at least as many as [total_passwords] has grown.  They
    are exactly as many when no signal is taken between a commit and the
    totals, also when a turn fails after its commit. *)
Theorem run_counts_what_it_stores (cycles : list CommandLine.cycle)
  (self self' : CommandLine.t) (outcome : result Z)
  (Hends : CommandLine.run cycles self = Some (outcome, self')) :
  let stored_prefixes :=
    Db.PrefixManager.count_rows
      (Updatinator.prefixes (CommandLine.updater self'))
    - Db.PrefixManager.count_rows
        (Updatinator.prefixes (CommandLine.updater self)) in
  let stored_passwords :=
    Db.PasswordManager.count_rows
      (Updatinator.prefixes (CommandLine.updater self'))
    - Db.PasswordManager.count_rows
        (Updatinator.prefixes (CommandLine.updater self)) in
  let counted_prefixes :=
    CommandLine.total_prefixes self' - CommandLine.total_prefixes self in
  let counted_passwords :=
    CommandLine.total_passwords self' - CommandLine.total_passwords self in
  counted_prefixes <= stored_prefixes <= counted_prefixes + 1
  /\ counted_passwords <= stored_passwords
  /\ (Forall no_signal_before_totals cycles ->
      counted_prefixes = stored_prefixes
      /\ counted_passwords = stored_passwords).
Proof.
  assert (lags self self'
          /\ (Forall no_signal_before_totals cycles
              -> ahead self' = ahead self)) as (Lag & Calm).
  { unfold CommandLine.run in Hends.
    destruct cycles as [|first rest]; [discriminate Hends|].
    unfold CommandLine.checkpoint at 1 2, CommandLine.print at 1,
      bind at 1 2 3, lift at 1, modify at 1, raise, ret in Hends.
    destruct (CommandLine.signal first CommandLine.before_next_prefix).
    { injection Hends as <- <-. split; [apply lags_refl | auto]. }
    destruct (Db.PrefixManager.find_missing _) as [next|e].
    2:{ injection Hends as <- <-. split; [apply lags_refl | auto]. }
    destruct (CommandLine.signal first CommandLine.before_opening).
    { injection Hends as <- <-. split; [apply lags_refl | auto]. }
    match type of Hends with
    | context [CommandLine.loop _ ?s] => set (s0 := s) in Hends
    end.
    assert (ahead s0 = ahead self) as A0 by reflexivity.
    destruct (CommandLine.loop (first :: rest) s0) as [[r s1]|] eqn:L;
      [|discriminate Hends].
    destruct (loop_effects _ _ _ _ L) as (Lag & Calm & _).
    assert (forall (o : result Z) s,
               ahead s = ahead s1 -> Some (o, s) = Some (outcome, self') ->
               lags self self'
               /\ (Forall no_signal_before_totals (first :: rest)
                   -> ahead self' = ahead self)) as Ends.
    { intros o s As E. injection E as <- <-. split.
      - unfold lags in *. rewrite As, <- A0. exact Lag.
      - intro F. rewrite As, <- A0. now apply Calm. }
    destruct r as [last|e]; [|(refine (Ends _ _ _ Hends); reflexivity)].
    unfold CommandLine.checkpoint, CommandLine.print,
      bind, get, lift, modify, raise, ret in Hends.
    destruct (CommandLine.signal last CommandLine.before_duration);
      [(refine (Ends _ _ _ Hends); reflexivity)|].
    destruct (Utils.duration (CommandLine.elapsed last)) as [duration|e];
      [|(refine (Ends _ _ _ Hends); reflexivity)].
    destruct (CommandLine.signal last CommandLine.before_summary);
      [(refine (Ends _ _ _ Hends); reflexivity)|].
    destruct (CommandLine.signal last CommandLine.before_return);
      (refine (Ends _ _ _ Hends); reflexivity). }
  unfold lags, ahead in *. cbv zeta. fields.
  split; [lia|]. split; [lia|].
  intro F. specialize (Calm F). injection Calm as C1 C2. lia.
Qed.

Lemma run_counts_what_it_stores_witness :
  exists self',
    CommandLine.run
      [quiet;
       interrupt CommandLine.before_total_prefixes
         "Cancelled by user, aborting."]
      (CommandLine.__init__ (Updatinator.__init__ Db.empty mocked))
    = Some (Return 0, self')
    /\ Db.PrefixManager.count_rows
         (Updatinator.prefixes (CommandLine.updater self')) = 2
    /\ Db.PasswordManager.count_rows
         (Updatinator.prefixes (CommandLine.updater self')) = 8
    /\ CommandLine.total_prefixes self' = 1
    /\ CommandLine.total_passwords self' = 4
    /\ CommandLine.total_prefixes self' <= 2
       <= CommandLine.total_prefixes self' + 1
    /\ CommandLine.total_passwords self' <= 8.
Proof.
  destruct (CommandLine.run
              [quiet;
               interrupt CommandLine.before_total_prefixes
                 "Cancelled by user, aborting."]
              (CommandLine.__init__ (Updatinator.__init__ Db.empty mocked)))
    as [[outcome self']|] eqn:R; [|vm_compute in R; discriminate R].
  pose proof (run_counts_what_it_stores _ _ _ _ R) as (T1 & T2 & _).
  assert (outcome = Return 0
          /\ Db.PrefixManager.count_rows
               (Updatinator.prefixes (CommandLine.updater self')) = 2
          /\ Db.PasswordManager.count_rows
               (Updatinator.prefixes (CommandLine.updater self')) = 8
          /\ CommandLine.total_prefixes self' = 1
          /\ CommandLine.total_passwords self' = 4)
    as (-> & K1 & K2 & K3 & K4).
  { vm_compute in R. injection R as <- <-. repeat split. }
  exists self'. split; [reflexivity|]. split; [exact K1|].
  split; [exact K2|]. split; [exact K3|]. split; [exact K4|].
  rewrite K1 in T1. rewrite K2 in T2. cbn in T1, T2. split; lia.
Defined.

(** X18.  [run] returns nothing but [0], and only after a [SystemExit]
    ended the loop: some turn of the [try] block raised it.  By then the
    session is closed, the message of that [SystemExit] is the one line
    that the run has written to the standard error, the totals are those
    at the exit, and the standard output ends with an empty line and the
    summary of these totals and of the time that has passed. *)
Theorem run_returns_after_system_exit_only
  (cycles : list CommandLine.cycle) (self self' : CommandLine.t) (code : Z)
  (Hreturns : CommandLine.run cycles self = Some (Return code, self')) :
  code = 0
  /\ exists c s s' text duration,
       In c cycles
       /\ CommandLine.try_body c s = (Raise (SystemExit text), s')
       /\ Utils.duration (CommandLine.elapsed c) = Return duration
       /\ self'
          = {| CommandLine.updater := CommandLine.updater s';
               CommandLine.total_prefixes := CommandLine.total_prefixes s';
               CommandLine.total_passwords := CommandLine.total_passwords s';
               CommandLine.session_closed := true;
               CommandLine.stdout :=
                 (CommandLine.stdout s'
                  ++ [CommandLine.blank;
                      CommandLine.summary (CommandLine.total_prefixes s')
                        (CommandLine.total_passwords s') duration])%list;
               CommandLine.stderr :=
                 (CommandLine.stderr self ++ [text])%list |}.
Proof.
  unfold CommandLine.run in Hreturns.
  destruct cycles as [|first rest]; [discriminate Hreturns|].
  unfold CommandLine.checkpoint at 1 2, CommandLine.print at 1,
    bind at 1 2 3, lift at 1, modify at 1, raise, ret in Hreturns.
  destruct (CommandLine.signal first CommandLine.before_next_prefix);
    [discriminate Hreturns|].
  destruct (Db.PrefixManager.find_missing _) as [next|e];
    [|discriminate Hreturns].
  destruct (CommandLine.signal first CommandLine.before_opening);
    [discriminate Hreturns|].
  match type of Hreturns with
  | context [CommandLine.loop _ ?s] => set (s0 := s) in Hreturns
  end.
  destruct (CommandLine.loop (first :: rest) s0) as [[[last|e] s1]|] eqn:L;
    try discriminate Hreturns.
  destruct (loop_effects _ _ _ _ L) as (_ & _ & s & s' & text & I & B & ->).
  unfold CommandLine.checkpoint, CommandLine.print,
    bind, get, lift, modify, raise, ret in Hreturns.
  destruct (CommandLine.signal last CommandLine.before_duration);
    [discriminate Hreturns|].
  destruct (Utils.duration (CommandLine.elapsed last)) as [duration|e] eqn:D;
    [|discriminate Hreturns].
  destruct (CommandLine.signal last CommandLine.before_summary);
    [discriminate Hreturns|].
  destruct (CommandLine.signal last CommandLine.before_return);
    [discriminate Hreturns|].
  injection Hreturns as <- <-. split; [reflexivity|].
  exists last, s, s', text, duration. fields.
  rewrite <- app_assoc. repeat split; assumption.
Qed.

Lemma run_returns_after_system_exit_only_witness :
  exists self',
    CommandLine.run
      [quiet; interrupt CommandLine.before_request
                "System shutdown detected, aborting."]
      (CommandLine.__init__ (Updatinator.__init__ Db.empty mocked))
    = Some (Return 0, self')
    /\ CommandLine.session_closed self' = true
    /\ CommandLine.stderr self' = ["System shutdown detected, aborting."]
    /\ CommandLine.stdout self'
       = [CommandLine.starting (Some "00000");
          CommandLine.progress (100 # 1048576) "00000";
          CommandLine.blank;
          CommandLine.summary 1 4 "90 seconds"].
Proof.
  destruct (CommandLine.run
              [quiet; interrupt CommandLine.before_request
                        "System shutdown detected, aborting."]
              (CommandLine.__init__ (Updatinator.__init__ Db.empty mocked)))
    as [[[code|e] self']|] eqn:R;
    [|vm_compute in R; discriminate R|vm_compute in R; discriminate R].
  destruct (run_returns_after_system_exit_only _ _ _ _ R)
    as (-> & c & s & s' & text & duration & _ & _ & _ & E).
  exists self'. split; [reflexivity|].
  split; [rewrite E; reflexivity|].
  vm_compute in R. injection R as <-. repeat split.
Defined.

(** ** Further edges *)

Lemma split_nil_iff (s : string) :
  Py.split s = [] <-> all_chars Py.isspace s = true.
Proof.
  induction s as [|c r IH]; [split; reflexivity|].
  cbn [all_chars]. destruct (Py.isspace c) eqn:Hc.
  - cbn [Py.split andb]. rewrite Hc. exact IH.
  - split; [|discriminate]. intro E. exfalso.
    exact (split_starts c r Hc E).
Qed.

(** X19.  [_extract] returns no record exactly when the body is empty or
    white space only: anything else in a body either gives a record or
    raises. *)
Theorem extract_is_empty_on_blank_bodies_only (prefix : Api.Prefix.t)
  (string : string) :
  Api.PwnedPasswordsAPIv3._extract prefix string = Return []
  <-> all_chars Py.isspace string = true.
Proof.
  rewrite <- split_nil_iff. unfold Api.PwnedPasswordsAPIv3._extract.
  split.
  - intro H.
    pose proof (extract_loop_cases prefix (Py.split string) 1 []) as C.
    rewrite H in C. destruct C as [_ L]. cbn in L.
    destruct (Py.split string); [reflexivity | discriminate L].
  - intros ->. reflexivity.
Qed.

(** X20.  The store tells addresses apart without regard to case: of two
    five-character texts that differ in case only, the first is committed
    and the second raises [IntegrityError] and changes nothing. *)
Theorem addresses_are_unique_up_to_case (s s' : string) (now : Q)
  (db : Db.Session)
  (Hlength : String.length s = 5%nat)
  (Hsame : Py.casefold s' = Py.casefold s)
  (Hnew : ~ In (Py.casefold s) (persisted db)) :
  exists first second db',
    Db.Prefix.__init__ s [] = Return first
    /\ Db.Prefix.__init__ s' [] = Return second
    /\ Db.Manager.add now first db = (Return tt, db')
    /\ Db.Manager.add now second db'
       = (Raise (IntegrityError "UNIQUE constraint failed: prefixes.prefix"),
          db').
Proof.
  assert (String.length s' = 5%nat) as Hlength'
    by (rewrite <- (casefold_length s'), Hsame, casefold_length; exact Hlength).
  set (first := {| Db.Prefix.prefix := Py.casefold s;
                   Db.Prefix.updated := None;
                   Db.Prefix.passwords := [] |}).
  assert (Db.Prefix.__init__ s [] = Return first
          /\ Db.Prefix.__init__ s' [] = Return first) as [I I'].
  { unfold Db.Prefix.__init__, Db.Prefix.validate_prefix, Py.len.
    rewrite Hlength, Hlength', Hsame. split; reflexivity. }
  pose proof (insert_cases now first db) as C.
  destruct (Db.insert now first db) as [db'|e] eqn:E.
  - destruct C as (_ & P & _). exists first, first, db'.
    unfold Db.Manager.add. rewrite E.
    split; [exact I|]. split; [exact I'|]. split; [reflexivity|].
    pose proof (insert_cases now first db') as C'.
    destruct (Db.insert now first db') as [db''|e'].
    + destruct C' as (N & _). exfalso. apply N. rewrite P.
      apply in_or_app. right. now left.
    + destruct C' as [(_ & ->) | (_ & F & _)]; [reflexivity | discriminate F].
  - destruct C as [(O & _) | (_ & F & _)]; [contradiction | discriminate F].
Qed.

Lemma addresses_are_unique_up_to_case_witness :
  String.length "abcde" = 5%nat
  /\ Py.casefold "ABCDE" = Py.casefold "abcde"
  /\ ~ In (Py.casefold "abcde") (persisted Db.empty)
  /\ exists first second db',
       Db.Prefix.__init__ "abcde" [] = Return first
       /\ Db.Prefix.__init__ "ABCDE" [] = Return second
       /\ Db.Manager.add (0 # 1) first Db.empty = (Return tt, db')
       /\ Db.Manager.add (0 # 1) second db'
          = (Raise
               (IntegrityError "UNIQUE constraint failed: prefixes.prefix"),
             db').
Proof.
  assert (~ In (Py.casefold "abcde") (persisted Db.empty)) as H by (intros []).
  split; [reflexivity|]. split; [reflexivity|]. split; [exact H|].
  exact (addresses_are_unique_up_to_case "abcde" "ABCDE" (0 # 1) Db.empty
           eq_refl eq_refl H).
Defined.

(** X21.  A cycle sends at most one request: none when the allocator
    raises, has nothing left or proposes a text that makes no address, and
    otherwise one, for the range URL of the address that the allocator
    proposed. *)
Theorem create_new_sends_at_most_one_request (now : Q)
  (self : Updatinator.t) :
  let sent s :=
    Api.Requests.sent
      (Api.PwnedPasswordsAPIv3.session (Updatinator.api s)) in
  let self' := snd (Updatinator.create_new now self) in
  match Db.PrefixManager.find_missing (Updatinator.prefixes self) with
  | Return (Some missing) =>
      if well_formed missing then
        sent self'
        = (sent self
           ++ [request_for
                 (Api.PwnedPasswordsAPIv3.URL_RANGE ++ "/" ++ cleaned missing)]
          )%list
      else sent self' = sent self
  | _ => sent self' = sent self
  end.
Proof.
  cbv zeta. rewrite create_new_unfold.
  destruct (Db.PrefixManager.find_missing _) as [[missing|]|e];
    try reflexivity.
  rewrite fetch_range_unfold, init_by_cases.
  destruct (well_formed missing).
  - rewrite get_unfold. unfold Api.Prefix.__str__. cbn [Api.Prefix._prefix].
    destruct (Api.Requests.transport _ _ _) as [response|e];
      [|reflexivity].
    destruct (Api.Requests.raise_for_status response) as [[]|e];
      [|reflexivity].
    destruct (Api.PwnedPasswordsAPIv3._extract _ _) as [hashes|e];
      [|reflexivity].
    cbv zeta.
    destruct (match Db.Prefix.__init__ _ _ with
              | Return _ => _ | Raise _ => _ end); reflexivity.
  - destruct (negb _); reflexivity.
Qed.
